(** * Couchbase client-side transactions: the attempt state machine

    A shallow embedding of the transaction engine of
    couchbase-transactions-cxx: the attempt context
    ([attempt_context_impl]), the transaction runner ([transactions::run]),
    the lost-attempt cleanup ([atr_cleanup_entry]) and the first-generation
    attempt context ([attempt_context], file attempt_context.cxx).

    The code is written in continuation-passing style (every KV operation
    takes a completion callback); the embedding keeps that shape.  An
    operation is a transformer of a [machine]: the attempt's own fields, the
    state of the outside world (cluster, clock, test hooks) and the trace of
    what the operation did that a caller can observe (KV requests issued,
    callbacks completed, exceptions that left the operation). *)

From stdpp Require Import base tactics decidable option list strings pretty countable gmap.
From Stdlib Require Import ZArith Ascii String.

Local Open Scope string_scope.
Local Open Scope list_scope.

(** ** Error classes and failures *)

(** Modelled from the spec: the enumeration [error_class] is declared in
    exceptions_internal.hxx, which is not among the sources; its members are
    the twelve failure classes of section 4.1. *)
Inductive error_class :=
| FAIL_HARD
| FAIL_OTHER
| FAIL_TRANSIENT
| FAIL_AMBIGUOUS
| FAIL_DOC_ALREADY_EXISTS
| FAIL_DOC_NOT_FOUND
| FAIL_PATH_NOT_FOUND
| FAIL_CAS_MISMATCH
| FAIL_WRITE_WRITE_CONFLICT
| FAIL_ATR_FULL
| FAIL_PATH_ALREADY_EXISTS
| FAIL_EXPIRY.

#[global] Instance error_class_eq_dec : EqDecision error_class.
Proof. solve_decision. Defined.

(** exceptions.hxx, [enum external_exception] (the members the engine
    raises; the others are carried along unchanged). *)
Inductive external_exception :=
| UNKNOWN
| ACTIVE_TRANSACTION_RECORD_ENTRY_NOT_FOUND
| ACTIVE_TRANSACTION_RECORD_FULL
| ACTIVE_TRANSACTION_RECORD_NOT_FOUND
| DOCUMENT_ALREADY_IN_TRANSACTION
| DOCUMENT_EXISTS_EXCEPTION
| DOCUMENT_NOT_FOUND_EXCEPTION
| NOT_SET
| FEATURE_NOT_AVAILABLE_EXCEPTION
| TRANSACTION_ABORTED_EXTERNALLY
| PREVIOUS_OPERATION_FAILED
| FORWARD_COMPATIBILITY_FAILURE.

#[global] Instance external_exception_eq_dec : EqDecision external_exception.
Proof. solve_decision. Defined.

(** Modelled from the spec: [transaction_operation_failed] (declared in
    exceptions_internal.hxx, not among the sources) carries the error class
    and the flags of section 4.8.  A fresh failure allows rollback and does
    not ask for a retry; the builder methods [retry()], [no_rollback()],
    [expired()], [ambiguous()], [failed_post_commit()] and [cause(c)] each
    set one flag and return the failure. *)
Record transaction_operation_failed := TxnFailed {
  tof_ec : error_class;
  tof_retry : bool;
  tof_rollback : bool;
  tof_expired : bool;
  tof_ambiguous : bool;
  tof_failed_post_commit : bool;
  tof_cause : external_exception
}.

#[global] Instance transaction_operation_failed_eq_dec :
  EqDecision transaction_operation_failed.
Proof. solve_decision. Defined.

Definition operation_failed (ec : error_class) : transaction_operation_failed :=
  TxnFailed ec false true false false false UNKNOWN.

Definition retry (e : transaction_operation_failed) :=
  TxnFailed (tof_ec e) true (tof_rollback e) (tof_expired e) (tof_ambiguous e)
            (tof_failed_post_commit e) (tof_cause e).

Definition no_rollback (e : transaction_operation_failed) :=
  TxnFailed (tof_ec e) (tof_retry e) false (tof_expired e) (tof_ambiguous e)
            (tof_failed_post_commit e) (tof_cause e).

Definition expired (e : transaction_operation_failed) :=
  TxnFailed (tof_ec e) (tof_retry e) (tof_rollback e) true (tof_ambiguous e)
            (tof_failed_post_commit e) (tof_cause e).

Definition ambiguous (e : transaction_operation_failed) :=
  TxnFailed (tof_ec e) (tof_retry e) (tof_rollback e) (tof_expired e) true
            (tof_failed_post_commit e) (tof_cause e).

Definition failed_post_commit (e : transaction_operation_failed) :=
  TxnFailed (tof_ec e) (tof_retry e) (tof_rollback e) (tof_expired e)
            (tof_ambiguous e) true (tof_cause e).

Definition cause (c : external_exception) (e : transaction_operation_failed) :=
  TxnFailed (tof_ec e) (tof_retry e) (tof_rollback e) (tof_expired e)
            (tof_ambiguous e) (tof_failed_post_commit e) c.

(** The exceptions that travel through the blocking half of the engine. *)
Inductive exn :=
| client_error (ec : error_class)
| operation_failed_exn (e : transaction_operation_failed)
| retry_operation
| retry_atr_commit
| retry_operation_timeout
| bad_optional_access
| runtime_error (what : string).

(** ** Attempt states *)

Inductive attempt_state :=
| NOT_STARTED | PENDING | ABORTED | COMMITTED | COMPLETED | ROLLED_BACK.

#[global] Instance attempt_state_eq_dec : EqDecision attempt_state.
Proof. solve_decision. Defined.

(** Modelled from the spec: [attempt_state_name] and [attempt_state_value]
    (attempt_state.hxx, not among the sources) print and parse the status
    names of section 3. *)
Definition attempt_state_name (s : attempt_state) : string :=
  match s with
  | NOT_STARTED => "NOT_STARTED"
  | PENDING => "PENDING"
  | ABORTED => "ABORTED"
  | COMMITTED => "COMMITTED"
  | COMPLETED => "COMPLETED"
  | ROLLED_BACK => "ROLLED_BACK"
  end.

Definition attempt_state_value (s : string) : option attempt_state :=
  if decide (s = "NOT_STARTED") then Some NOT_STARTED
  else if decide (s = "PENDING") then Some PENDING
  else if decide (s = "ABORTED") then Some ABORTED
  else if decide (s = "COMMITTED") then Some COMMITTED
  else if decide (s = "COMPLETED") then Some COMPLETED
  else if decide (s = "ROLLED_BACK") then Some ROLLED_BACK
  else None.

(** ** Document identity *)

Record document_id := DocId {
  bucket : string;
  scope : string;
  collection : string;
  key : string
}.

#[global] Instance document_id_eq_dec : EqDecision document_id.
Proof. solve_decision. Defined.

#[global] Instance document_id_countable : Countable document_id.
Proof.
  apply (inj_countable'
           (fun d => (bucket d, scope d, collection d, key d))
           (fun t => match t with (b, s, c, k) => DocId b s c k end)).
  by intros [].
Defined.

(** [collection_spec_from_id] (utils.hxx): scope.collection *)
Definition collection_spec_from_id (id : document_id) : string :=
  scope id +:+ "." +:+ collection id.

(** ** JSON values and sub-document paths *)

#[local] Unset Elimination Schemes.
Inductive json :=
| JNull
| JNum (n : Z)
| JStr (s : string)
| JArr (items : list json)
| JObj (fields : gmap string json).
#[local] Set Elimination Schemes.

(** A sub-document path is a dotted string; the server walks it one
    component at a time. *)
Fixpoint split_path_aux (acc : string) (s : string) : list string :=
  match s with
  | EmptyString => [acc]
  | String c rest =>
      if decide (c = "."%char) then acc :: split_path_aux "" rest
      else split_path_aux (acc +:+ String c "") rest
  end.

Definition split_path (s : string) : list string := split_path_aux "" s.

Fixpoint json_get (p : list string) (j : json) : option json :=
  match p with
  | [] => Some j
  | s :: p' =>
      match j with
      | JObj f => match f !! s with Some c => json_get p' c | None => None end
      | _ => None
      end
  end.

(** Modelled from the spec: the storage substrate is an external
    collaborator (section 6); these are the sub-document opcodes the engine
    sends, acting on the extended attributes of one document.  [None] is the
    server's path error: PATH_NOT_FOUND for [remove] and [replace],
    PATH_EXISTS for [dict_add]. *)
Fixpoint json_remove (p : list string) (j : json) : option json :=
  match p, j with
  | [], _ => None
  | [s], JObj f =>
      match f !! s with Some _ => Some (JObj (delete s f)) | None => None end
  | s :: p', JObj f =>
      match f !! s with
      | Some c =>
          match json_remove p' c with
          | Some c' => Some (JObj (<[s := c']> f))
          | None => None
          end
      | None => None
      end
  | _, _ => None
  end.

Fixpoint json_replace (p : list string) (v : json) (j : json) : option json :=
  match p, j with
  | [], _ => Some v
  | s :: p', JObj f =>
      match f !! s with
      | Some c =>
          match json_replace p' v c with
          | Some c' => Some (JObj (<[s := c']> f))
          | None => None
          end
      | None => None
      end
  | _, _ => None
  end.

(** [json_put must_be_new create_path p v j]: dict_add ([must_be_new]) and
    dict_upsert; missing parents are created when [create_path] is set. *)
Fixpoint json_put (must_be_new create_path : bool) (p : list string) (v : json)
    (j : json) : option json :=
  match p, j with
  | [], _ => None
  | [s], JObj f =>
      match f !! s with
      | Some _ => if must_be_new then None else Some (JObj (<[s := v]> f))
      | None => Some (JObj (<[s := v]> f))
      end
  | s :: p', JObj f =>
      match f !! s with
      | Some c =>
          match json_put must_be_new create_path p' v c with
          | Some c' => Some (JObj (<[s := c']> f))
          | None => None
          end
      | None =>
          if create_path then
            match json_put must_be_new create_path p' v (JObj ∅) with
            | Some c' => Some (JObj (<[s := c']> f))
            | None => None
            end
          else None
      end
  | _, _ => None
  end.

(** ** Sub-document requests *)

Inductive subdoc_opcode :=
| op_get | op_get_doc | op_dict_add | op_dict_upsert | op_remove | op_replace
| op_set_doc.

#[global] Instance subdoc_opcode_eq_dec : EqDecision subdoc_opcode.
Proof. solve_decision. Defined.

(** One entry of [req.specs]: the arguments of
    [add_spec(opcode, xattr, create_path, expand_macro, path, value)]; the
    three-argument [add_spec(opcode, xattr, path)] leaves the others at
    their defaults. *)
Record subdoc_spec := Spec {
  spec_opcode : subdoc_opcode;
  spec_xattr : bool;
  spec_create_path : bool;
  spec_expand_macro : bool;
  spec_path : string;
  spec_value : json
}.

Definition add_spec3 (op : subdoc_opcode) (xattr : bool) (path : string) :=
  Spec op xattr false false path JNull.

Inductive store_semantics_type := sem_replace | sem_upsert | sem_insert.

#[global] Instance store_semantics_type_eq_dec : EqDecision store_semantics_type.
Proof. solve_decision. Defined.

Inductive durability_level :=
| NONE | MAJORITY | MAJORITY_AND_PERSIST_ON_MASTER | PERSIST_TO_MAJORITY.

Record mutate_in_request := MutateIn {
  mreq_id : document_id;
  mreq_specs : list subdoc_spec;
  mreq_cas : Z;
  mreq_store_semantics : store_semantics_type;
  mreq_access_deleted : bool;
  mreq_create_as_deleted : bool;
  mreq_durability : option durability_level
}.

(** [couchbase::operations::mutate_in_request req{ id }] *)
Definition mutate_in_request_for (id : document_id) : mutate_in_request :=
  MutateIn id [] 0 sem_replace false false None.

Definition with_specs (r : mutate_in_request) (l : list subdoc_spec) :=
  MutateIn (mreq_id r) (mreq_specs r ++ l) (mreq_cas r) (mreq_store_semantics r)
           (mreq_access_deleted r) (mreq_create_as_deleted r) (mreq_durability r).

Definition with_cas (r : mutate_in_request) (c : Z) :=
  MutateIn (mreq_id r) (mreq_specs r) c (mreq_store_semantics r)
           (mreq_access_deleted r) (mreq_create_as_deleted r) (mreq_durability r).

Definition with_store_semantics (r : mutate_in_request) (s : store_semantics_type) :=
  MutateIn (mreq_id r) (mreq_specs r) (mreq_cas r) s
           (mreq_access_deleted r) (mreq_create_as_deleted r) (mreq_durability r).

Definition with_access_deleted (r : mutate_in_request) (b : bool) :=
  MutateIn (mreq_id r) (mreq_specs r) (mreq_cas r) (mreq_store_semantics r)
           b (mreq_create_as_deleted r) (mreq_durability r).

Definition with_create_as_deleted (r : mutate_in_request) (b : bool) :=
  MutateIn (mreq_id r) (mreq_specs r) (mreq_cas r) (mreq_store_semantics r)
           (mreq_access_deleted r) b (mreq_durability r).

Record lookup_in_request := LookupIn {
  lreq_id : document_id;
  lreq_specs : list subdoc_spec;
  lreq_access_deleted : bool
}.

(** Whole-document requests, used by the cleanup only. *)
Record insert_request := InsertReq {
  ireq_id : document_id;
  ireq_value : string;
  ireq_durability : option durability_level
}.

Record remove_request := RemoveReq {
  rreq_id : document_id;
  rreq_cas : Z;
  rreq_durability : option durability_level
}.

(** The macros the server expands ([mutate_in_macro]); the first
    generation of the code spells the CAS macro out. *)
Definition mutate_in_macro_CAS : json := JStr "${Mutation.CAS}".
Definition mutate_in_macro_VALUE_CRC_32C : json := JStr "${Mutation.value_crc32c}".

(** Modelled from the spec: the field names of transaction_fields.hxx
    (not among the sources), as laid out in section 6.  The transaction id
    of an ATR entry is not in that table; the theorems do not depend on how
    it is spelled. *)
Definition ATR_FIELD_ATTEMPTS := "attempts".
Definition ATR_FIELD_STATUS := "tst".
Definition ATR_FIELD_START_TIMESTAMP := "tst_s".
Definition ATR_FIELD_START_COMMIT := "tsc_s".
Definition ATR_FIELD_TIMESTAMP_ROLLBACK_START := "tsr_s".
Definition ATR_FIELD_EXPIRES_AFTER_MSECS := "exp".
Definition ATR_FIELD_DOCS_INSERTED := "ins".
Definition ATR_FIELD_DOCS_REPLACED := "rep".
Definition ATR_FIELD_DOCS_REMOVED := "rem".
Definition ATR_FIELD_TRANSACTION_ID := "tid".

Definition TRANSACTION_INTERFACE_PREFIX_ONLY := "txn".
Definition TRANSACTION_RESTORE_PREFIX_ONLY := "txn.restore".
Definition TRANSACTION_ID := "txn.id.txn".
Definition ATTEMPT_ID := "txn.id.atmpt".
Definition ATR_ID := "txn.atr.id".
Definition ATR_BUCKET_NAME := "txn.atr.bkt".
Definition ATR_COLL_NAME := "txn.atr.coll".
Definition STAGED_DATA := "txn.op.stgd".
Definition TYPE := "txn.op.type".
Definition CRC32_OF_STAGING := "txn.op.crc32".
Definition FORWARD_COMPAT := "txn.fc".
Definition PRE_TXN_CAS := "txn.restore.CAS".
Definition PRE_TXN_REVID := "txn.restore.revid".
Definition PRE_TXN_EXPTIME := "txn.restore.exptime".

(** ** Documents as the engine reads them *)

(** Modelled from the spec: [transaction_links] (transaction_links.hxx, not
    among the sources) is the parsed [txn] extended attribute of section 6;
    the fields are in the order of the constructor call in
    [create_staged_insert].  The accessors below are the ones the engine
    uses; each is named after the field whose presence it tests. *)
Record transaction_links := Links {
  atr_id : option string;
  atr_bucket_name : option string;
  atr_scope_name : option string;
  atr_collection_name : option string;
  staged_transaction_id : option string;
  staged_attempt_id : option string;
  staged_content : option string;
  cas_pre_txn : option string;
  revid_pre_txn : option string;
  exptime_pre_txn : option Z;
  crc32_of_staging : option string;
  op : option string;
  forward_compat : option json;
  is_deleted : bool
}.

Definition no_links (deleted : bool) : transaction_links :=
  Links None None None None None None None None None None None None None deleted.

Definition is_document_in_transaction (l : transaction_links) : bool :=
  bool_decide (is_Some (atr_id l)).

Definition has_staged_write (l : transaction_links) : bool :=
  bool_decide (is_Some (staged_attempt_id l)).

Definition has_staged_content (l : transaction_links) : bool :=
  bool_decide (is_Some (staged_content l)).

Definition is_document_being_removed (l : transaction_links) : bool :=
  bool_decide (op l = Some "remove").

Record document_metadata := Metadata {
  meta_cas : option string;
  meta_revid : option string;
  meta_exptime : option Z;
  meta_crc32 : option string
}.

Record transaction_get_result := GetResult {
  doc_id : document_id;
  content : string;
  cas : Z;
  links : transaction_links;
  metadata : option document_metadata
}.

Definition set_cas (d : transaction_get_result) (c : Z) :=
  GetResult (doc_id d) (content d) c (links d) (metadata d).

Definition set_content (d : transaction_get_result) (s : string) :=
  GetResult (doc_id d) s (cas d) (links d) (metadata d).

(** [transaction_get_result::create_from(doc, content)] *)
Definition create_from (d : transaction_get_result) (s : string) :=
  set_content d s.

(** ** The staged-mutation queue *)

Inductive staged_mutation_type := INSERT | REMOVE | REPLACE.

#[global] Instance staged_mutation_type_eq_dec : EqDecision staged_mutation_type.
Proof. solve_decision. Defined.

Record staged_mutation := Staged {
  sm_doc : transaction_get_result;
  sm_content : string;
  sm_type : staged_mutation_type
}.

(** Modelled from the spec: [staged_mutation_queue] (staged_mutation.cxx,
    not among the sources) is "a per-attempt ordered collection of entries
    ... keyed lookups by document identity" (section 3);
    [find_replace], [find_insert] and [find_remove] return the entry of that
    kind for the document or null, and [add] "appends, or replaces an
    existing entry for the same document identity" (section 4.5). *)
Definition find_any (t : staged_mutation_type) (q : list staged_mutation)
    (id : document_id) : option staged_mutation :=
  List.find (fun m => bool_decide (sm_type m = t) && bool_decide (doc_id (sm_doc m) = id)) q.

Definition find_replace := find_any REPLACE.
Definition find_insert := find_any INSERT.
Definition find_remove := find_any REMOVE.

Definition queue_add (q : list staged_mutation) (m : staged_mutation) :=
  List.filter (fun x => negb (bool_decide (doc_id (sm_doc x) = doc_id (sm_doc m)))) q ++ [m].

Definition queue_empty (q : list staged_mutation) : bool :=
  match q with [] => true | _ => false end.

(** In-place update of the entry a [find_*] pointer designates. *)
Fixpoint queue_update (t : staged_mutation_type) (id : document_id)
    (f : staged_mutation -> staged_mutation) (q : list staged_mutation) :=
  match q with
  | [] => []
  | m :: q' =>
      if bool_decide (sm_type m = t) && bool_decide (doc_id (sm_doc m) = id)
      then f m :: q'
      else m :: queue_update t id f q'
  end.

Definition doc_record_json (id : document_id) : json :=
  JObj (<["bkt" := JStr (bucket id)]> (<["scp" := JStr (scope id)]>
       (<["col" := JStr (collection id)]> (<["id" := JStr (key id)]> ∅)))).

Definition ids_of (t : staged_mutation_type) (q : list staged_mutation) : json :=
  JArr (List.map (fun m => doc_record_json (doc_id (sm_doc m)))
          (List.filter (fun m => bool_decide (sm_type m = t)) q)).

(** [extract_to(prefix, req)]: the three id arrays of the ATR entry. *)
Definition extract_to (prefix : string) (q : list staged_mutation)
    (req : mutate_in_request) : mutate_in_request :=
  with_specs req
    [ Spec op_dict_upsert true false false (prefix +:+ ATR_FIELD_DOCS_INSERTED) (ids_of INSERT q);
      Spec op_dict_upsert true false false (prefix +:+ ATR_FIELD_DOCS_REPLACED) (ids_of REPLACE q);
      Spec op_dict_upsert true false false (prefix +:+ ATR_FIELD_DOCS_REMOVED) (ids_of REMOVE q) ].

(** ** Configuration, transaction context, ATR entries *)

Record transaction_config := Config {
  expiration_time : Z;            (* nanoseconds *)
  config_durability : durability_level
}.

Record transaction_attempt := TxnAttempt {
  attempt_id_of : string;
  attempt_state_of : attempt_state
}.

(** transaction_context (section 3): created once per call to the runner. *)
Record transaction_context := Context {
  transaction_id : string;
  start_time_client : Z;          (* nanoseconds *)
  deferred_elapsed : Z;
  attempts : list transaction_attempt;
  ctx_atr_id : string;
  ctx_atr_collection : string
}.

(** [transaction_context::add_attempt]: pushes a fresh attempt record. *)
Definition add_attempt (fresh : string) (c : transaction_context) :=
  Context (transaction_id c) (start_time_client c) (deferred_elapsed c)
          (attempts c ++ [TxnAttempt fresh NOT_STARTED])
          (ctx_atr_id c) (ctx_atr_collection c).

Definition current_attempt (c : transaction_context) : transaction_attempt :=
  List.last (attempts c) (TxnAttempt "" NOT_STARTED).

Definition num_attempts (c : transaction_context) : nat := List.length (attempts c).

Definition set_current_state (s : attempt_state) (c : transaction_context) :=
  Context (transaction_id c) (start_time_client c) (deferred_elapsed c)
          (match List.rev (attempts c) with
           | [] => []
           | a :: r => List.rev r ++ [TxnAttempt (attempt_id_of a) s]
           end)
          (ctx_atr_id c) (ctx_atr_collection c).

Definition set_ctx_atr (coll id : string) (c : transaction_context) :=
  Context (transaction_id c) (start_time_client c) (deferred_elapsed c)
          (attempts c) id coll.

(** [transaction_context::has_expired_client_side]: elapsed wall-clock time
    against the configured expiration. *)
Definition ctx_has_expired_client_side (c : transaction_context)
    (config : transaction_config) (now : Z) : bool :=
  let expired_nanos := (now - start_time_client c + deferred_elapsed c)%Z in
  (expiration_time config <? expired_nanos)%Z.

(** [transaction_context::retry_delay]: the length of the sleep between
    retries. *)
Definition retry_delay (config : transaction_config) : Z :=
  (expiration_time config / 100)%Z.

Record doc_record := DocRecord { dr_document_id : document_id }.

(** Modelled from the spec: [atr_entry] and [active_transaction_record]
    (active_transaction_record.hxx, not among the sources) are the parsed
    ATR of section 6, and an entry has expired when
    [now - start > expires_after_msecs + safety_margin_ms] (section 4.6). *)
Record atr_entry := AtrEntry {
  entry_attempt_id : string;
  entry_state : attempt_state;
  entry_timestamp_start_ms : Z;
  entry_expires_after_ms : Z;
  inserted_ids : option (list doc_record);
  replaced_ids : option (list doc_record);
  removed_ids : option (list doc_record);
  entry_forward_compat : option json
}.

Record active_transaction_record := Atr { entries : list atr_entry }.

Definition has_expired (now_ms : Z) (safety_margin_ms : Z) (e : atr_entry) : bool :=
  (entry_expires_after_ms e + safety_margin_ms <? now_ms - entry_timestamp_start_ms e)%Z.

(** ** The attempt *)

Record attempt_context_impl := Attempt {
  overall_ : transaction_context;
  config_ : transaction_config;
  atr_id_ : option document_id;
  is_done_ : bool;
  staged_mutations_ : list staged_mutation;
  expiry_overtime_mode_ : bool
}.

Definition id (a : attempt_context_impl) : string :=
  attempt_id_of (current_attempt (overall_ a)).

Definition state (a : attempt_context_impl) : attempt_state :=
  attempt_state_of (current_attempt (overall_ a)).

Definition set_state (s : attempt_state) (a : attempt_context_impl) :=
  Attempt (set_current_state s (overall_ a)) (config_ a) (atr_id_ a) (is_done_ a)
          (staged_mutations_ a) (expiry_overtime_mode_ a).

Definition set_overall (c : transaction_context) (a : attempt_context_impl) :=
  Attempt c (config_ a) (atr_id_ a) (is_done_ a)
          (staged_mutations_ a) (expiry_overtime_mode_ a).

Definition set_atr_id_ (i : option document_id) (a : attempt_context_impl) :=
  Attempt (overall_ a) (config_ a) i (is_done_ a)
          (staged_mutations_ a) (expiry_overtime_mode_ a).

Definition set_is_done_ (b : bool) (a : attempt_context_impl) :=
  Attempt (overall_ a) (config_ a) (atr_id_ a) b
          (staged_mutations_ a) (expiry_overtime_mode_ a).

Definition set_staged_mutations_ (q : list staged_mutation) (a : attempt_context_impl) :=
  Attempt (overall_ a) (config_ a) (atr_id_ a) (is_done_ a) q
          (expiry_overtime_mode_ a).

Definition set_expiry_overtime_mode_ (b : bool) (a : attempt_context_impl) :=
  Attempt (overall_ a) (config_ a) (atr_id_ a) (is_done_ a)
          (staged_mutations_ a) b.

(** ** Responses, hooks and stages *)

(** [error_class_from_response(resp)] and the CAS of the response. *)
Record mutate_in_response := MutateResp {
  mresp_ec : option error_class;
  mresp_cas : Z
}.

(** A lookup response: its error class, the values of the specs, and the
    document [transaction_get_result::create_from(resp)] parses out of it
    (the parser is not among the sources). *)
Record lookup_in_response := LookupResp {
  lresp_ec : option error_class;
  lresp_values : list string;
  lresp_is_deleted : bool;
  lresp_doc : transaction_get_result
}.

Inductive hook_point :=
| after_get_complete
| before_doc_get
| before_staged_replace
| after_staged_replace_complete
| before_staged_remove
| after_staged_remove_complete
| before_staged_insert
| after_staged_insert_complete
| before_get_doc_in_exists_during_staged_insert
| before_check_atr_entry_for_blocking_doc
| before_atr_pending
| after_atr_pending
| before_atr_commit
| after_atr_commit
| before_atr_commit_ambiguity_resolution
| before_atr_complete
| after_atr_complete
| before_atr_aborted
| after_atr_aborted
| before_atr_rolled_back
| after_atr_rolled_back.

Inductive stage :=
| STAGE_GET | STAGE_REPLACE | STAGE_INSERT | STAGE_REMOVE | STAGE_BEFORE_COMMIT
| STAGE_ATR_PENDING | STAGE_ATR_COMMIT | STAGE_ATR_COMMIT_AMBIGUITY_RESOLUTION
| STAGE_ATR_COMPLETE | STAGE_ATR_ABORT | STAGE_ATR_ROLLBACK_COMPLETE
| STAGE_ROLLBACK | STAGE_CREATE_STAGED_INSERT.

Inductive forward_compat_stage :=
| WWC_READING_ATR | WWC_REPLACING | WWC_REMOVING | WWC_INSERTING
| WWC_INSERTING_GET | GETS | GETS_READING_ATR | CLEANUP_ENTRY.

(** What an operation does that its caller, or the cluster, can see. *)
Inductive event :=
| ev_mutate_in (r : mutate_in_request)
| ev_lookup_in (r : lookup_in_request)
| ev_get_atr (id : document_id)
| ev_insert (r : insert_request)
| ev_remove (r : remove_request)
| ev_sleep (nanos : Z)
| ev_logic (attempt_id : string)
| ev_error (e : transaction_operation_failed)
| ev_result (r : option transaction_get_result)
| ev_done
| ev_throw (e : exn)
| ev_out_of_fuel.

Definition is_kv (e : event) : bool :=
  match e with
  | ev_mutate_in _ | ev_lookup_in _ | ev_get_atr _ | ev_insert _ | ev_remove _ => true
  | _ => false
  end.

(** What a blocking call comes back with.  [out_of_fuel] is the model's own:
    the loops of the engine are unrolled a bounded number of times. *)
Inductive outcome (A : Type) :=
| returned (a : A)
| thrown (e : exn)
| out_of_fuel.

Arguments returned {A} a.
Arguments thrown {A} e.
Arguments out_of_fuel {A}.

(** * The engine over an arbitrary outside world *)

Section Engine.

Context {W : Type}.

(** The collaborators the engine is specified against only at their
    interfaces (section 1): the cluster that executes requests, the wall
    clock, the testing hooks (no-ops in production), the pacer [exp_delay],
    the uid generator, the ATR id table ([atr_ids], not among the sources),
    the forward-compatibility gate ([forward_compat::check], not among the
    sources) and the replay of the staged-mutation queue
    ([staged_mutation_queue::commit] and [::rollback], not among the
    sources).  Each takes the state of the world and returns its answer and
    the next state. *)
Record cluster := Cluster {
  now : W -> Z;
  execute_mutate_in : mutate_in_request -> W -> mutate_in_response * W;
  execute_lookup_in : lookup_in_request -> W -> lookup_in_response * W;
  execute_insert : insert_request -> W -> option error_class * W;
  execute_remove : remove_request -> W -> option error_class * W;
  get_atr : document_id -> W -> (bool * option active_transaction_record) * W;
  hook : hook_point -> option string -> W -> option error_class * W;
  hook_has_expired_client_side : stage -> option string -> W -> bool * W;
  hook_random_atr_id_for_vbucket : W -> option string * W;
  exp_delay : W -> bool * W;
  sleep_for : Z -> W -> W;
  next_uid : W -> string * W;
  vbucket_for_key : string -> nat;
  atr_id_for_vbucket : nat -> string;
  forward_compat_check :
    forward_compat_stage -> option json -> option transaction_operation_failed;
  queue_commit : list staged_mutation -> W -> option exn * W;
  queue_rollback : list staged_mutation -> W -> option exn * W;
  indeterminate_error_class : error_class
}.

Variable E : cluster.

Record machine := Machine {
  self : attempt_context_impl;
  world : W;
  trace : list event
}.

(** An asynchronous operation: it runs, issues requests, and completes by
    handing a result or a failure to its callback. *)
Definition action := machine -> machine.

Definition skip : action := fun m => m.

Definition emit (e : event) : action :=
  fun m => Machine (self m) (world m) (trace m ++ [e]).

Definition modify (f : attempt_context_impl -> attempt_context_impl) : action :=
  fun m => Machine (f (self m)) (world m) (trace m).

(** The helpers that take a continuation are written once for any answer
    type [R]: [R] is [machine] in the asynchronous operations and an outcome
    with the machine in the blocking ones. *)
Definition then_ {R} (a : action) (b : machine -> R) : machine -> R :=
  fun m => b (a m).

Notation "a >> b" := (then_ a b) (at level 62, right associativity).

Definition read {A R} (f : attempt_context_impl -> A) (k : A -> machine -> R)
    : machine -> R :=
  fun m => k (f (self m)) m.

Definition ask {A R} (f : W -> A * W) (k : A -> machine -> R) : machine -> R :=
  fun m => let '(a, w) := f (world m) in k a (Machine (self m) w (trace m)).

Definition clock {R} (k : Z -> machine -> R) : machine -> R :=
  fun m => k (now E (world m)) m.

(** [std::optional::value()] *)
Definition value {A} (o : option A) (k : A -> action) : action :=
  match o with
  | Some a => k a
  | None => emit (ev_throw bad_optional_access)
  end.

Definition call_hook {R} (h : hook_point) (key : option string)
    (k : option error_class -> machine -> R) : machine -> R :=
  ask (hook E h key) k.

Definition execute_mutate {R} (req : mutate_in_request)
    (k : mutate_in_response -> machine -> R) : machine -> R :=
  emit (ev_mutate_in req) >> ask (execute_mutate_in E req) k.

Definition execute_lookup {R} (req : lookup_in_request)
    (k : lookup_in_response -> machine -> R) : machine -> R :=
  emit (ev_lookup_in req) >> ask (execute_lookup_in E req) k.

Definition fetch_atr (id : document_id)
    (k : bool -> option active_transaction_record -> action) : action :=
  emit (ev_get_atr id) >> ask (get_atr E id) (fun r => k (fst r) (snd r)).

(** Modelled from the spec: [op_completed_with_error],
    [op_completed_with_callback] and [cache_error_async] are defined in
    attempt_context_impl.hxx, which is not among the sources, and neither
    is the op-list through which the operations of an attempt are
    serialized (section 5).  Following section 9 ("operations accept
    continuations") and their call sites, which all return right after
    them, the first two hand the failure or the result to the operation's
    callback and return to their caller.  [cache_error_async] runs the
    operation it is handed, as for an operation that the op-list admits.
    What the op-list does with an operation that arrives after [commit] or
    [rollback] has closed it ([wait_and_block_ops]) is in neither the
    sources nor the spec, and the model does not decide it: what is said
    of an operation is said of one that the op-list admits. *)
Definition op_completed_with_error (err : transaction_operation_failed) : action :=
  emit (ev_error err).

Definition op_completed_with_callback (res : option transaction_get_result) : action :=
  emit (ev_result res).

Definition op_completed_with_void_callback : action := emit ev_done.

Definition cache_error_async (f : action) : action := f.

(** [wrap_durable_request(req, config)] (utils.hxx) *)
Definition wrap_durable_request (req : mutate_in_request)
    (config : transaction_config) : mutate_in_request :=
  MutateIn (mreq_id req) (mreq_specs req) (mreq_cas req) (mreq_store_semantics req)
           (mreq_access_deleted req) (mreq_create_as_deleted req)
           (Some (config_durability config)).

(** ** Expiry *)

Definition has_expired_client_side {R} (place : stage) (doc_id : option string)
    (k : bool -> machine -> R) : machine -> R :=
  read (fun a => (overall_ a, config_ a)) (fun oc =>
  clock (fun t =>
  let over := ctx_has_expired_client_side (fst oc) (snd oc) t in
  ask (hook_has_expired_client_side E place doc_id) (fun hook =>
  k (over || hook)))).

Definition check_expiry_pre_commit {R} (place : stage) (doc_id : option string)
    (k : bool -> machine -> R) : machine -> R :=
  has_expired_client_side place doc_id (fun e =>
  if e then modify (set_expiry_overtime_mode_ true) >> k true
  else k false).

Definition error_if_expired_and_not_in_overtime {R} (place : stage)
    (doc_id : option string) (k : option error_class -> machine -> R)
    : machine -> R :=
  read expiry_overtime_mode_ (fun overtime =>
  if overtime then k None
  else has_expired_client_side place doc_id (fun e =>
       if e then k (Some FAIL_EXPIRY) else k None)).

Definition check_expiry_during_commit_or_rollback (place : stage)
    (doc_id : option string) : action :=
  read expiry_overtime_mode_ (fun overtime =>
  if overtime then skip
  else has_expired_client_side place doc_id (fun e =>
       if e then modify (set_expiry_overtime_mode_ true) else skip)).

(** ** check_for_own_write, check_if_done *)

Definition check_for_own_write (q : list staged_mutation) (id : document_id)
    : option staged_mutation :=
  match find_replace q id with
  | Some own_replace => Some own_replace
  | None =>
      match find_insert q id with
      | Some own_insert => Some own_insert
      | None => None
      end
  end.

(** [check_if_done(cb)] completes the callback with the failure when the
    attempt is done, and returns to the operation that called it. *)
Definition check_if_done : action :=
  read is_done_ (fun done =>
  if done then
    op_completed_with_error (no_rollback (operation_failed FAIL_OTHER))
  else skip).

(** ** Blocking transactions *)

Definition write_write_conflict : transaction_operation_failed :=
  retry (operation_failed FAIL_WRITE_WRITE_CONFLICT).

Fixpoint check_atr_entry_for_blocking_document (fuel : nat)
    (doc : transaction_get_result)
    (cb : option transaction_operation_failed -> action) : action :=
  match fuel with
  | O => emit ev_out_of_fuel
  | S fuel' =>
      ask (exp_delay E) (fun timed_out =>
      if timed_out : bool then cb (Some write_write_conflict)
      else
      call_hook before_check_atr_entry_for_blocking_doc (Some (key (doc_id doc))) (fun ec =>
      match ec with
      | Some _ => cb (Some write_write_conflict)
      | None =>
          value (atr_bucket_name (links doc)) (fun b =>
          value (atr_scope_name (links doc)) (fun s =>
          value (atr_collection_name (links doc)) (fun c =>
          value (atr_id (links doc)) (fun k =>
          fetch_atr (DocId b s c k) (fun err atr =>
          if err then cb (Some write_write_conflict)
          else
            let entries := match atr with Some a => entries a | None => [] end in
            match List.find (fun e => bool_decide
                               (Some (entry_attempt_id e) = staged_attempt_id (links doc)))
                            entries with
            | Some it =>
                match forward_compat_check E WWC_READING_ATR (entry_forward_compat it) with
                | Some err => cb (Some err)
                | None =>
                    clock (fun t =>
                    if has_expired (t / 1000000) 0 it then cb None
                    else
                      match entry_state it with
                      | COMPLETED | ROLLED_BACK => cb None
                      | _ => check_atr_entry_for_blocking_document fuel' doc cb
                      end)
                end
            | None => cb None
            end)))))
      end))
  end.

Definition check_and_handle_blocking_transactions (fuel : nat)
    (doc : transaction_get_result) (stg : forward_compat_stage)
    (cb : option transaction_operation_failed -> action) : action :=
  if has_staged_write (links doc) then
    value (staged_transaction_id (links doc)) (fun tid =>
    read (fun a => transaction_id (overall_ a)) (fun own =>
    if bool_decide (tid = own) then cb None
    else if bool_decide (is_Some (atr_id (links doc)))
            && bool_decide (is_Some (atr_bucket_name (links doc)))
            && bool_decide (is_Some (staged_attempt_id (links doc)))
    then
      match forward_compat_check E stg (forward_compat (links doc)) with
      | Some err => cb (Some err)
      | None => check_atr_entry_for_blocking_document fuel doc cb
      end
    else cb None))
  else cb None.

(** ** get *)

Definition get_doc_specs : list subdoc_spec :=
  [ add_spec3 op_get true ATR_ID;
    add_spec3 op_get true TRANSACTION_ID;
    add_spec3 op_get true ATTEMPT_ID;
    add_spec3 op_get true STAGED_DATA;
    add_spec3 op_get true ATR_BUCKET_NAME;
    add_spec3 op_get true ATR_COLL_NAME;
    add_spec3 op_get true TRANSACTION_RESTORE_PREFIX_ONLY;
    add_spec3 op_get true TYPE;
    add_spec3 op_get true "$document";
    add_spec3 op_get true CRC32_OF_STAGING;
    add_spec3 op_get true FORWARD_COMPAT;
    add_spec3 op_get_doc false "" ].

Definition get_doc_request (id : document_id) : lookup_in_request :=
  LookupIn id get_doc_specs true.

(** [get_doc]: the case FAIL_PATH_NOT_FOUND of the switch has no [break],
    so the callback runs a second time through [default]. *)
Definition get_doc (id : document_id)
    (cb : option error_class -> option transaction_get_result -> action) : action :=
  execute_lookup (get_doc_request id) (fun resp =>
  match lresp_ec resp with
  | Some FAIL_PATH_NOT_FOUND =>
      cb (Some FAIL_PATH_NOT_FOUND) (Some (lresp_doc resp)) >>
      cb (Some FAIL_PATH_NOT_FOUND) None
  | Some ec => cb (Some ec) None
  | None => cb None (Some (lresp_doc resp))
  end).

(** [links().staged_content()]: the staged content, empty when there is
    none. *)
Definition staged_content_of (l : transaction_links) : string :=
  default "" (staged_content l).

Definition is_empty (s : string) : bool := bool_decide (s = "").

(** [content<nlohmann::json>().empty()]: a JSON null, an empty object and
    an empty array are empty. *)
Definition json_is_empty (s : string) : bool :=
  bool_decide (s = "") || bool_decide (s = "null") || bool_decide (s = "{}")
  || bool_decide (s = "[]").

(** The continuation of [get_atr] inside [do_get]. *)
Definition do_get_with_atr (doc : transaction_get_result)
    (cb : option error_class -> option transaction_get_result -> action)
    (ec : bool) (atr : option active_transaction_record) : action :=
  match ec, atr with
  | false, Some atr_doc =>
      match entries atr_doc, staged_attempt_id (links doc) with
      | _ :: _, None => emit (ev_throw bad_optional_access)
      | es, sid =>
          let entry := List.find (fun e => bool_decide (sid = Some (entry_attempt_id e))) es in
          read id (fun this_id =>
          let finish (ignore_doc : bool) (content : string) : action :=
            if ignore_doc then cb None None
            else cb None (Some (create_from doc content)) in
          match entry with
          | Some entry =>
              if bool_decide (is_Some (staged_attempt_id (links doc)))
                 && bool_decide (entry_attempt_id entry = this_id)
              then finish false (staged_content_of (links doc))
              else
                match forward_compat_check E GETS_READING_ATR (entry_forward_compat entry) with
                | Some err => cb (Some (tof_ec err)) None
                | None =>
                    match entry_state entry with
                    | COMMITTED =>
                        if is_document_being_removed (links doc)
                        then finish true (content doc)
                        else finish false (staged_content_of (links doc))
                    | _ =>
                        if is_empty (content doc)
                        then finish true (content doc)
                        else finish false (content doc)
                    end
                end
          | None =>
              if is_empty (content doc) then finish true (content doc)
              else finish false (content doc)
          end)
      end
  | _, _ =>
      if json_is_empty (content doc) then cb None None
      else cb None (Some doc)
  end.

Definition do_get (id : document_id)
    (cb : option error_class -> option transaction_get_result -> action) : action :=
  check_expiry_pre_commit STAGE_GET (Some (key id)) (fun exp =>
  if exp then cb (Some FAIL_EXPIRY) None
  else
    read staged_mutations_ (fun q =>
    match check_for_own_write q id with
    | Some own_write =>
        cb None (Some (create_from (sm_doc own_write) (sm_content own_write)))
    | None =>
        match find_remove q id with
        | Some _ => cb None None
        | None =>
            call_hook before_doc_get (Some (key id)) (fun ec =>
            match ec with
            | Some _ => cb ec None
            | None =>
                get_doc id (fun ec doc =>
                match ec, doc with
                | None, None => cb None None
                | None, Some doc =>
                    if is_document_in_transaction (links doc) then
                      value (atr_bucket_name (links doc)) (fun b =>
                      value (atr_scope_name (links doc)) (fun s =>
                      value (atr_collection_name (links doc)) (fun c =>
                      value (atr_id (links doc)) (fun k =>
                      fetch_atr (DocId b s c k) (do_get_with_atr doc cb)))))
                    else if is_deleted (links doc) then cb None None
                    else cb None (Some doc)
                | Some _, _ => cb ec None
                end)
            end)
        end
    end)).

(** The error mapping shared by [get] and [get_optional], apart from
    FAIL_DOC_NOT_FOUND. *)
Definition get_error (not_found : action) (ec : error_class) : action :=
  match ec with
  | FAIL_EXPIRY => op_completed_with_error (expired (operation_failed ec))
  | FAIL_DOC_NOT_FOUND => not_found
  | FAIL_TRANSIENT => op_completed_with_error (retry (operation_failed ec))
  | FAIL_HARD => op_completed_with_error (no_rollback (operation_failed ec))
  | _ => op_completed_with_error (operation_failed FAIL_OTHER)
  end.

Definition after_do_get (key : string)
    (k : option error_class -> action) (ec : option error_class) : action :=
  match ec with
  | None => call_hook after_get_complete (Some key) k
  | Some _ => k ec
  end.

(** [get]: when the document is not there the failure is built from [*ec]
    with [ec] empty, so its error class is not determined by the source. *)
Definition get (id : document_id) : action :=
  cache_error_async (
    check_if_done >>
    do_get id (fun ec res =>
      after_do_get (key id) (fun ec =>
        match ec with
        | Some ec =>
            get_error (op_completed_with_error (operation_failed ec)) ec
        | None =>
            match res with
            | None =>
                op_completed_with_error
                  (operation_failed (indeterminate_error_class E))
            | Some r =>
                match forward_compat_check E GETS (forward_compat (links r)) with
                | Some err => op_completed_with_error err
                | None => op_completed_with_callback res
                end
            end
        end) ec)).

Definition get_optional (id : document_id) : action :=
  cache_error_async (
    check_if_done >>
    do_get id (fun ec res =>
      after_do_get (key id) (fun ec =>
        match ec with
        | Some ec => get_error (op_completed_with_callback None) ec
        | None =>
            match res with
            | Some r =>
                match forward_compat_check E GETS (forward_compat (links r)) with
                | Some err => op_completed_with_error err
                | None => op_completed_with_callback res
                end
            | None => op_completed_with_callback res
            end
        end) ec)).

(** ** Selecting the ATR and writing ATR-PENDING *)

(** [std::chrono::duration_cast<std::chrono::milliseconds>(d).count()] *)
Definition to_millis (nanos : Z) : Z := (nanos ÷ 1000000)%Z.

Definition atr_prefix (attempt_id : string) : string :=
  ATR_FIELD_ATTEMPTS +:+ "." +:+ attempt_id +:+ ".".

Definition atr_pending_request (a : attempt_context_impl) (atr : document_id)
    : mutate_in_request :=
  let prefix := atr_prefix (id a) in
  let req := with_specs (mutate_in_request_for atr)
    [ Spec op_dict_add true true false (prefix +:+ ATR_FIELD_TRANSACTION_ID)
           (JStr (transaction_id (overall_ a)));
      Spec op_dict_add true true false (prefix +:+ ATR_FIELD_STATUS)
           (JStr (attempt_state_name PENDING));
      Spec op_dict_add true true true (prefix +:+ ATR_FIELD_START_TIMESTAMP)
           mutate_in_macro_CAS;
      Spec op_dict_add true true false (prefix +:+ ATR_FIELD_EXPIRES_AFTER_MSECS)
           (JNum (to_millis (expiration_time (config_ a)))) ] in
  wrap_durable_request (with_store_semantics req sem_upsert) (config_ a).

Fixpoint set_atr_pending_locked (fuel : nat) (doc : document_id)
    (fn : option transaction_operation_failed -> action) : action :=
  match fuel with
  | O => emit ev_out_of_fuel
  | S fuel' =>
      read staged_mutations_ (fun q =>
      if queue_empty q then
        read atr_id_ (fun atr =>
        match atr with
        | None => fn (Some (operation_failed FAIL_OTHER))
        | Some atr =>
            error_if_expired_and_not_in_overtime STAGE_ATR_PENDING None (fun ec =>
            match ec with
            | Some ec => fn (Some (expired (operation_failed ec)))
            | None =>
                let error_handler (ec : error_class) : action :=
                  let err := operation_failed ec in
                  read expiry_overtime_mode_ (fun overtime =>
                  if overtime then fn (Some (expired (no_rollback err)))
                  else
                    match ec with
                    | FAIL_EXPIRY =>
                        modify (set_expiry_overtime_mode_ true) >>
                        fn (Some (expired err))
                    | FAIL_ATR_FULL => fn (Some err)
                    | FAIL_PATH_ALREADY_EXISTS => fn None
                    | FAIL_AMBIGUOUS =>
                        read config_ (fun c =>
                        emit (ev_sleep (retry_delay c)) >>
                        ask (fun w => (tt, sleep_for E (retry_delay c) w)) (fun _ =>
                        set_atr_pending_locked fuel' doc fn))
                    | FAIL_TRANSIENT => fn (Some (retry err))
                    | FAIL_HARD => fn (Some (no_rollback err))
                    | _ => fn (Some err)
                    end) in
                call_hook before_atr_pending None (fun ec =>
                match ec with
                | Some ec => error_handler ec
                | None =>
                    read (fun a => atr_pending_request a atr) (fun req =>
                    execute_mutate req (fun resp =>
                    let continue (ec : option error_class) : action :=
                      match ec with
                      | None => modify (set_state PENDING) >> fn None
                      | Some ec => error_handler ec
                      end in
                    match mresp_ec resp with
                    | None => call_hook after_atr_pending None continue
                    | Some ec => continue (Some ec)
                    end))
                end)
            end)
        end)
      else skip)
  end.

Definition select_atr_if_needed_unlocked (fuel : nat) (doc : document_id)
    (cb : option transaction_operation_failed -> action) : action :=
  read atr_id_ (fun atr =>
  match atr with
  | Some _ => cb None
  | None =>
      ask (hook_random_atr_id_for_vbucket E) (fun hook_atr =>
      let atr_key :=
        match hook_atr with
        | Some h => h
        | None => atr_id_for_vbucket E (vbucket_for_key E (key doc))
        end in
      modify (set_atr_id_ (Some (DocId (bucket doc) "_default" "_default" atr_key))) >>
      modify (fun a => set_overall
                         (set_ctx_atr (collection_spec_from_id doc) atr_key (overall_ a)) a) >>
      modify (set_state NOT_STARTED) >>
      set_atr_pending_locked fuel doc cb)
  end).

(** ** Staging a mutation *)

Definition upsert (path : string) (v : json) : subdoc_spec :=
  Spec op_dict_upsert true true false path v.

Definition metadata_specs (m : option document_metadata) : list subdoc_spec :=
  match m with
  | None => []
  | Some m =>
      match meta_cas m with Some c => [upsert PRE_TXN_CAS (JStr c)] | None => [] end ++
      match meta_revid m with Some r => [upsert PRE_TXN_REVID (JStr r)] | None => [] end ++
      match meta_exptime m with Some t => [upsert PRE_TXN_EXPTIME (JNum t)] | None => [] end
  end.

Definition create_staging_request (a : attempt_context_impl) (atr : document_id)
    (document : transaction_get_result) (type : string) (content : option string)
    : mutate_in_request :=
  let req := with_specs (mutate_in_request_for (doc_id document))
    ([ upsert TRANSACTION_ID (JStr (transaction_id (overall_ a)));
       upsert ATTEMPT_ID (JStr (id a));
       upsert ATR_ID (JStr (ctx_atr_id (overall_ a)));
       upsert ATR_BUCKET_NAME (JStr (bucket (doc_id document)));
       upsert ATR_COLL_NAME (JStr (collection_spec_from_id atr));
       Spec op_dict_upsert true true true CRC32_OF_STAGING mutate_in_macro_VALUE_CRC_32C;
       upsert TYPE (JStr type) ]
     ++ metadata_specs (metadata document)
     ++ (if bool_decide (type = "remove") then []
         else [upsert STAGED_DATA (JStr (default "" content))])) in
  wrap_durable_request req (config_ a).

Definition staging_error_handler (ec : error_class) : action :=
  let err := operation_failed ec in
  match ec with
  | FAIL_DOC_NOT_FOUND | FAIL_DOC_ALREADY_EXISTS | FAIL_CAS_MISMATCH
  | FAIL_TRANSIENT | FAIL_AMBIGUOUS => op_completed_with_error (retry err)
  | FAIL_HARD => op_completed_with_error (no_rollback err)
  | _ => op_completed_with_error err
  end.

Definition replace_raw (fuel : nat) (document : transaction_get_result)
    (content : string) : action :=
  cache_error_async (
    check_if_done >>
    check_expiry_pre_commit STAGE_REPLACE (Some (key (doc_id document))) (fun exp =>
    if exp then op_completed_with_error (expired (operation_failed FAIL_EXPIRY))
    else
      check_and_handle_blocking_transactions fuel document WWC_REPLACING (fun err =>
      match err with
      | Some err => op_completed_with_error err
      | None =>
          select_atr_if_needed_unlocked fuel (doc_id document) (fun err =>
          match err with
          | Some err => op_completed_with_error err
          | None =>
              read atr_id_ (fun atr => value atr (fun atr =>
              read (fun a => create_staging_request a atr document "replace" (Some content))
                (fun req =>
              let req := with_access_deleted (with_cas req (cas document)) true in
              call_hook before_staged_replace (Some (key (doc_id document))) (fun ec =>
              match ec with
              | Some ec => staging_error_handler ec
              | None =>
                  execute_mutate req (fun resp =>
                  match mresp_ec resp with
                  | None =>
                      call_hook after_staged_replace_complete
                        (Some (key (doc_id document))) (fun err =>
                      match err with
                      | Some err => staging_error_handler err
                      | None =>
                          let out := set_cas document (mresp_cas resp) in
                          read staged_mutations_ (fun q =>
                          match find_replace q (doc_id document),
                                find_insert q (doc_id document) with
                          | Some _, _ =>
                              modify (set_staged_mutations_
                                (queue_update REPLACE (doc_id document)
                                   (fun m => Staged (set_cas (sm_doc m) (cas out))
                                                    content (sm_type m)) q))
                          | None, Some _ =>
                              modify (set_staged_mutations_
                                (queue_update INSERT (doc_id document)
                                   (fun m => Staged (set_cas (set_content (sm_doc m) content)
                                                             (cas out))
                                                    (sm_content m) (sm_type m)) q))
                          | None, None =>
                              modify (set_staged_mutations_
                                (queue_add q (Staged out content REPLACE)))
                          end >>
                          op_completed_with_callback (Some out))
                      end)
                  | Some ec => staging_error_handler ec
                  end)
              end))))
          end)
      end))).

Definition remove_error_handler (ec : error_class) : action :=
  let err := operation_failed ec in
  match ec with
  | FAIL_EXPIRY =>
      modify (set_expiry_overtime_mode_ true) >>
      op_completed_with_error (expired err)
  | FAIL_DOC_NOT_FOUND | FAIL_DOC_ALREADY_EXISTS | FAIL_CAS_MISMATCH
  | FAIL_TRANSIENT | FAIL_AMBIGUOUS => op_completed_with_error (retry err)
  | FAIL_HARD => op_completed_with_error (no_rollback err)
  | _ => op_completed_with_error err
  end.

Definition remove (fuel : nat) (document : transaction_get_result) : action :=
  cache_error_async (
    check_if_done >>
    check_expiry_pre_commit STAGE_REMOVE (Some (key (doc_id document))) (fun exp =>
    if exp then remove_error_handler FAIL_EXPIRY
    else
      read staged_mutations_ (fun q =>
      match find_insert q (doc_id document) with
      | Some _ => op_completed_with_error (operation_failed FAIL_OTHER)
      | None =>
          check_and_handle_blocking_transactions fuel document WWC_REMOVING (fun err =>
          match err with
          | Some err => op_completed_with_error err
          | None =>
              select_atr_if_needed_unlocked fuel (doc_id document) (fun err =>
              match err with
              | Some err => op_completed_with_error err
              | None =>
                  call_hook before_staged_remove (Some (key (doc_id document))) (fun ec =>
                  match ec with
                  | Some ec => remove_error_handler ec
                  | None =>
                      read atr_id_ (fun atr => value atr (fun atr =>
                      read (fun a => create_staging_request a atr document "remove" None)
                        (fun req =>
                      let req := with_access_deleted (with_cas req (cas document))
                                   (is_deleted (links document)) in
                      execute_mutate req (fun resp =>
                      let finish (ec : option error_class) : action :=
                        match ec with
                        | None =>
                            let new_res := set_cas document (mresp_cas resp) in
                            modify (fun a => set_staged_mutations_
                                      (queue_add (staged_mutations_ a)
                                                 (Staged new_res "" REMOVE)) a) >>
                            op_completed_with_void_callback
                        | Some ec => remove_error_handler ec
                        end in
                      match mresp_ec resp with
                      | None =>
                          call_hook after_staged_remove_complete
                            (Some (key (doc_id document))) finish
                      | Some ec => finish (Some ec)
                      end))))
                  end)
              end)
          end)
      end))).

(** ** insert *)

Definition staged_insert_request (a : attempt_context_impl) (doc : document_id)
    (content : string) (cas : Z) : mutate_in_request :=
  let req := with_specs (mutate_in_request_for doc)
    [ upsert TRANSACTION_ID (JStr (transaction_id (overall_ a)));
      upsert ATTEMPT_ID (JStr (id a));
      upsert ATR_ID (JStr (ctx_atr_id (overall_ a)));
      upsert STAGED_DATA (JStr content);
      upsert ATR_BUCKET_NAME (JStr (bucket doc));
      upsert ATR_COLL_NAME (JStr (collection_spec_from_id doc));
      upsert TYPE (JStr "insert");
      Spec op_dict_upsert true true true CRC32_OF_STAGING mutate_in_macro_VALUE_CRC_32C ] in
  let req := with_cas (with_create_as_deleted (with_access_deleted req true) true) cas in
  let req := with_store_semantics req
               (if bool_decide (cas = 0%Z) then sem_insert else sem_replace) in
  wrap_durable_request req (config_ a).

(** The pacer [delay()]: it sleeps, or throws [retry_operation_timeout]. *)
Definition delay (k : action) : action :=
  ask (exp_delay E) (fun timed_out =>
  if timed_out : bool then emit (ev_throw retry_operation_timeout) else k).

(** The handler of [get_doc]'s failure inside
    [create_staged_insert_error_handler]. *)
Definition found_doc_error_handler (ec : error_class) : action :=
  read expiry_overtime_mode_ (fun overtime =>
  if overtime then op_completed_with_error (expired (operation_failed FAIL_EXPIRY))
  else
    match ec with
    | FAIL_EXPIRY =>
        modify (set_expiry_overtime_mode_ true) >>
        op_completed_with_error (expired (operation_failed ec))
    | FAIL_TRANSIENT | FAIL_PATH_NOT_FOUND =>
        op_completed_with_error (retry (operation_failed ec))
    | FAIL_OTHER => op_completed_with_error (operation_failed ec)
    | FAIL_HARD => op_completed_with_error (no_rollback (operation_failed ec))
    | _ => op_completed_with_error (retry (operation_failed ec))
    end).

(** [create_staged_insert_error_handler]; [again cas] is the recursive
    call [create_staged_insert(id, content, cas, delay, cb)]. *)
Definition create_staged_insert_error_handler (fuel : nat) (again : Z -> action)
    (doc : document_id) (cas0 : Z) (ec : error_class) : action :=
  read expiry_overtime_mode_ (fun overtime =>
  if overtime then op_completed_with_error (expired (operation_failed FAIL_EXPIRY))
  else
    match ec with
    | FAIL_EXPIRY =>
        modify (set_expiry_overtime_mode_ true) >>
        op_completed_with_error (expired (operation_failed ec))
    | FAIL_TRANSIENT => op_completed_with_error (retry (operation_failed ec))
    | FAIL_AMBIGUOUS => delay (again cas0)
    | FAIL_OTHER => op_completed_with_error (operation_failed ec)
    | FAIL_HARD => op_completed_with_error (no_rollback (operation_failed ec))
    | FAIL_DOC_ALREADY_EXISTS | FAIL_CAS_MISMATCH =>
        call_hook before_get_doc_in_exists_during_staged_insert (Some (key doc)) (fun err =>
        match err with
        | Some err => found_doc_error_handler err
        | None =>
            get_doc doc (fun ec found =>
            match ec with
            | None =>
                match found with
                | Some found =>
                    match forward_compat_check E WWC_INSERTING_GET
                            (forward_compat (links found)) with
                    | Some err => op_completed_with_error err
                    | None =>
                        if negb (is_document_in_transaction (links found))
                           && is_deleted (links found)
                        then delay (again (cas found))
                        else if negb (is_document_in_transaction (links found))
                        then op_completed_with_error (operation_failed FAIL_DOC_ALREADY_EXISTS)
                        else if bool_decide (is_Some (op (links found)))
                                && negb (bool_decide (op (links found) = Some "insert"))
                        then op_completed_with_error
                               (cause DOCUMENT_EXISTS_EXCEPTION
                                  (operation_failed FAIL_DOC_ALREADY_EXISTS))
                        else
                          check_and_handle_blocking_transactions fuel found WWC_INSERTING
                            (fun err =>
                             match err with
                             | Some err => op_completed_with_error err
                             | None => delay (again (cas found))
                             end)
                    end
                | None =>
                    op_completed_with_error (retry (operation_failed FAIL_DOC_NOT_FOUND))
                end
            | Some ec => found_doc_error_handler ec
            end)
        end)
    | _ => op_completed_with_error (retry (operation_failed ec))
    end).

Fixpoint create_staged_insert (fuel : nat) (doc : document_id) (content : string)
    (cas0 : Z) : action :=
  match fuel with
  | O => emit ev_out_of_fuel
  | S fuel' =>
      let handler :=
        create_staged_insert_error_handler fuel'
          (fun cas' => create_staged_insert fuel' doc content cas') doc cas0 in
      error_if_expired_and_not_in_overtime STAGE_CREATE_STAGED_INSERT (Some (key doc)) (fun ec =>
      match ec with
      | Some ec => handler ec
      | None =>
          call_hook before_staged_insert (Some (key doc)) (fun ec =>
          match ec with
          | Some ec => handler ec
          | None =>
              read (fun a => staged_insert_request a doc content cas0) (fun req =>
              execute_mutate req (fun resp =>
              call_hook after_staged_insert_complete (Some (key doc)) (fun ec =>
              match ec with
              | Some ec => handler ec
              | None =>
                  match mresp_ec resp with
                  | None =>
                      read (fun a => (a, atr_id_ a)) (fun p => value (snd p) (fun atr =>
                      let a := fst p in
                      let l := Links (Some (key atr)) (Some (bucket doc)) (Some (scope doc))
                                     (Some (collection doc))
                                     (Some (transaction_id (overall_ a))) (Some (id a))
                                     (Some content) None None None None
                                     (Some "insert") None true in
                      let out := GetResult doc content (mresp_cas resp) l None in
                      modify (fun a => set_staged_mutations_
                                (queue_add (staged_mutations_ a)
                                           (Staged out content INSERT)) a) >>
                      op_completed_with_callback (Some out)))
                  | Some ec => handler ec
                  end
              end)))
          end)
      end)
  end.

Definition insert_raw (fuel : nat) (doc : document_id) (content : string) : action :=
  cache_error_async (
    check_if_done >>
    read staged_mutations_ (fun q =>
    match check_for_own_write q doc with
    | Some _ => op_completed_with_error (operation_failed FAIL_OTHER)
    | None =>
        check_expiry_pre_commit STAGE_INSERT (Some (key doc)) (fun exp =>
        if exp then op_completed_with_error (expired (operation_failed FAIL_EXPIRY))
        else
          select_atr_if_needed_unlocked fuel doc (fun err =>
          match err with
          | Some err => op_completed_with_error err
          | None => create_staged_insert fuel doc content 0
          end))
    end)).

(** ** The blocking half: commit and rollback *)

Definition blocking (A : Type) : Type := machine -> outcome A * machine.

#[local] Instance blocking_ret : MRet blocking :=
  fun A a m => (returned a, m).

#[local] Instance blocking_bind : MBind blocking :=
  fun A B k c m =>
    match c m with
    | (returned a, m') => k a m'
    | (thrown e, m') => (thrown e, m')
    | (out_of_fuel, m') => (out_of_fuel, m')
    end.

Definition ret {A} (a : A) : blocking A := fun m => (returned a, m).

Definition throw {A} (e : exn) : blocking A := fun m => (thrown e, m).

Definition try_catch {A} (c : blocking A) (handler : exn -> blocking A) : blocking A :=
  fun m =>
    match c m with
    | (thrown e, m') => handler e m'
    | r => r
    end.

Definition lift (a : action) : blocking unit := fun m => (returned tt, a m).

(** [throw transaction_operation_failed(...)] *)
Definition throw_failed {A} (e : transaction_operation_failed) : blocking A :=
  throw (operation_failed_exn e).

Definition throw_if {A} (ec : option error_class) (k : blocking A) : blocking A :=
  match ec with
  | Some ec => throw (client_error ec)
  | None => k
  end.

(** Modelled from the spec: [retry_op] and [retry_op_exp] (utils.hxx and
    attempt_context_impl.hxx, not among the sources) run the operation
    again for as long as it throws [retry_operation] (section 4.2); the
    second paces itself with an exponential backoff and gives up with
    [retry_operation_timeout] when the budget is spent, the first sleeps
    [retry_delay] between the runs. *)
Fixpoint retry_op {A} (fuel : nat) (f : blocking A) : blocking A :=
  match fuel with
  | O => fun m => (out_of_fuel, m)
  | S fuel' =>
      try_catch f (fun e =>
        match e with
        | retry_operation =>
            read config_ (fun c =>
            emit (ev_sleep (retry_delay c)) >>
            ask (fun w => (tt, sleep_for E (retry_delay c) w)) (fun _ =>
            retry_op fuel' f))
        | _ => throw e
        end)
  end.

Fixpoint retry_op_exp {A} (fuel : nat) (f : blocking A) : blocking A :=
  match fuel with
  | O => fun m => (out_of_fuel, m)
  | S fuel' =>
      try_catch f (fun e =>
        match e with
        | retry_operation =>
            ask (exp_delay E) (fun timed_out =>
            if timed_out : bool then throw retry_operation_timeout
            else retry_op_exp fuel' f)
        | _ => throw e
        end)
  end.

Definition atr_commit_request (a : attempt_context_impl) (atr : document_id)
    : mutate_in_request :=
  let prefix := atr_prefix (id a) in
  wrap_durable_request
    (with_specs (mutate_in_request_for atr)
       [ Spec op_dict_upsert true false false (prefix +:+ ATR_FIELD_STATUS)
              (JStr (attempt_state_name COMMITTED));
         Spec op_dict_upsert true false true (prefix +:+ ATR_FIELD_START_COMMIT)
              mutate_in_macro_CAS ])
    (config_ a).

Definition atr_status_request (a : attempt_context_impl) (atr : document_id)
    : lookup_in_request :=
  LookupIn atr [add_spec3 op_get true (atr_prefix (id a) +:+ ATR_FIELD_STATUS)] false.

(** [atr_commit_ambiguity_resolution]: re-reads the status of the entry. *)
Definition atr_commit_ambiguity_resolution : blocking unit :=
  try_catch
    (error_if_expired_and_not_in_overtime STAGE_ATR_COMMIT_AMBIGUITY_RESOLUTION None (fun ec =>
     throw_if ec (
     call_hook before_atr_commit_ambiguity_resolution None (fun ec =>
     throw_if ec (
     read (fun a => (a, atr_id_ a)) (fun p =>
     match snd p with
     | None => throw bad_optional_access
     | Some atr =>
         execute_lookup (atr_status_request (fst p) atr) (fun res =>
         throw_if (lresp_ec res) (
         match lresp_values res with
         | [] => throw (runtime_error "no value")
         | v :: _ =>
             match attempt_state_value v with
             | None => throw (runtime_error "unknown attempt state")
             | Some atr_status =>
                 match atr_status with
                 | COMPLETED => ret tt
                 | ABORTED | ROLLED_BACK =>
                     throw_failed (no_rollback (operation_failed FAIL_OTHER))
                 | _ => throw retry_atr_commit
                 end
             end
         end))
     end))))))
    (fun e =>
       match e with
       | client_error ec =>
           match ec with
           | FAIL_EXPIRY =>
               lift (modify (set_expiry_overtime_mode_ true)) ;;
               throw_failed (ambiguous (no_rollback (operation_failed ec)))
           | FAIL_HARD => throw_failed (no_rollback (operation_failed ec))
           | FAIL_TRANSIENT | FAIL_OTHER => throw retry_operation
           | FAIL_PATH_NOT_FOUND =>
               throw_failed (no_rollback (operation_failed FAIL_OTHER))
           | _ => throw_failed (no_rollback (operation_failed ec))
           end
       | _ => throw e
       end).

(** [atr_commit]: the ATR-COMMIT write and the handling of its failure. *)
Definition atr_commit (fuel : nat) : blocking unit :=
  try_catch
    (read (fun a => (a, atr_id_ a)) (fun p =>
     match snd p with
     | None => throw bad_optional_access
     | Some atr =>
         let req := atr_commit_request (fst p) atr in
         error_if_expired_and_not_in_overtime STAGE_ATR_COMMIT None (fun ec =>
         throw_if ec (
         call_hook before_atr_commit None (fun ec =>
         throw_if ec (
         read staged_mutations_ (fun q =>
         execute_mutate (extract_to (atr_prefix (id (fst p))) q req) (fun res =>
         throw_if (mresp_ec res) (
         call_hook after_atr_commit None (fun ec =>
         throw_if ec (
         lift (modify (set_state COMMITTED)))))))))))
     end))
    (fun e =>
       match e with
       | client_error ec =>
           match ec with
           | FAIL_EXPIRY =>
               lift (modify (set_expiry_overtime_mode_ true)) ;;
               throw_failed (expired (operation_failed ec))
           | FAIL_AMBIGUOUS =>
               try_catch (retry_op fuel atr_commit_ambiguity_resolution) (fun e =>
                 match e with
                 | retry_atr_commit => throw retry_operation
                 | _ => throw e
                 end)
           | FAIL_TRANSIENT => throw_failed (retry (operation_failed ec))
           | FAIL_HARD => throw_failed (no_rollback (operation_failed ec))
           | _ => throw_failed (operation_failed ec)
           end
       | _ => throw e
       end).

Definition atr_remove_request (a : attempt_context_impl) (atr : document_id)
    : mutate_in_request :=
  let prefix := ATR_FIELD_ATTEMPTS +:+ "." +:+ id a in
  wrap_durable_request
    (with_specs (mutate_in_request_for atr) [add_spec3 op_remove true prefix])
    (config_ a).

(** [atr_complete]: removes the attempt from the ATR; only FAIL_HARD
    surfaces. *)
Definition atr_complete : blocking unit :=
  try_catch
    (call_hook before_atr_complete None (fun ec =>
     throw_if ec (
     error_if_expired_and_not_in_overtime STAGE_ATR_COMPLETE None (fun ec =>
     throw_if ec (
     read (fun a => (a, atr_id_ a)) (fun p =>
     match snd p with
     | None => throw bad_optional_access
     | Some atr =>
         execute_mutate (atr_remove_request (fst p) atr) (fun res =>
         throw_if (mresp_ec res) (
         call_hook after_atr_complete None (fun ec =>
         throw_if ec (
         lift (modify (set_state COMPLETED))))))
     end))))))
    (fun e =>
       match e with
       | client_error FAIL_HARD =>
           throw_failed (failed_post_commit (no_rollback (operation_failed FAIL_HARD)))
       | client_error _ => ret tt
       | _ => throw e
       end).

Definition run_queue (f : list staged_mutation -> W -> option exn * W) : blocking unit :=
  read staged_mutations_ (fun q =>
  ask (f q) (fun r =>
  match r with
  | Some e => throw e
  | None => ret tt
  end)).

(** [commit].  [op_list_.wait_and_block_ops()] and [existing_error()] are
    not among the sources.  One operation runs at a time here and completes
    before the next, so there is nothing to wait for; that the op-list is
    closed to later operations from then on, and that an earlier failure
    is rethrown, is left out (see [cache_error_async]): [commit] and
    [rollback] are those of an attempt none of whose operations failed. *)
Definition commit (fuel : nat) : blocking unit :=
  check_expiry_pre_commit STAGE_BEFORE_COMMIT None (fun exp =>
  if exp then throw_failed (expired (operation_failed FAIL_EXPIRY))
  else
    read (fun a => (atr_id_ a, is_done_ a)) (fun p =>
    match p with
    | (Some atr, false) =>
        if negb (is_empty (key atr)) then
          retry_op_exp fuel (atr_commit fuel) ;;
          run_queue (queue_commit E) ;;
          atr_complete ;;
          lift (modify (set_is_done_ true))
        else lift (modify (set_is_done_ true))
    | (None, false) => lift (modify (set_is_done_ true))
    | (_, true) => throw_failed (no_rollback (operation_failed FAIL_OTHER))
    end)).

Definition atr_abort_request (a : attempt_context_impl) (atr : document_id)
    : mutate_in_request :=
  let prefix := atr_prefix (id a) in
  wrap_durable_request
    (extract_to prefix (staged_mutations_ a)
       (with_specs (mutate_in_request_for atr)
          [ Spec op_dict_upsert true true false (prefix +:+ ATR_FIELD_STATUS)
                 (JStr (attempt_state_name ABORTED));
            Spec op_dict_upsert true true true
                 (prefix +:+ ATR_FIELD_TIMESTAMP_ROLLBACK_START) mutate_in_macro_CAS ]))
    (config_ a).

Definition atr_abort : blocking unit :=
  try_catch
    (error_if_expired_and_not_in_overtime STAGE_ATR_ABORT None (fun ec =>
     throw_if ec (
     call_hook before_atr_aborted None (fun ec =>
     throw_if ec (
     read (fun a => (a, atr_id_ a)) (fun p =>
     match snd p with
     | None => throw bad_optional_access
     | Some atr =>
         execute_mutate (atr_abort_request (fst p) atr) (fun res =>
         throw_if (mresp_ec res) (
         lift (modify (set_state ABORTED)) ;;
         call_hook after_atr_aborted None (fun ec =>
         throw_if ec (ret tt))))
     end))))))
    (fun e =>
       match e with
       | client_error ec =>
           read expiry_overtime_mode_ (fun overtime =>
           if overtime then
             throw_failed (expired (no_rollback (operation_failed FAIL_EXPIRY)))
           else
             match ec with
             | FAIL_EXPIRY =>
                 lift (modify (set_expiry_overtime_mode_ true)) ;;
                 throw retry_operation
             | FAIL_PATH_NOT_FOUND =>
                 throw_failed (cause ACTIVE_TRANSACTION_RECORD_ENTRY_NOT_FOUND
                                 (no_rollback (operation_failed ec)))
             | FAIL_DOC_NOT_FOUND =>
                 throw_failed (cause ACTIVE_TRANSACTION_RECORD_NOT_FOUND
                                 (no_rollback (operation_failed ec)))
             | FAIL_ATR_FULL =>
                 throw_failed (cause ACTIVE_TRANSACTION_RECORD_FULL
                                 (no_rollback (operation_failed ec)))
             | FAIL_HARD => throw_failed (no_rollback (operation_failed ec))
             | _ => throw retry_operation
             end)
       | _ => throw e
       end).

Definition atr_rollback_complete : blocking unit :=
  try_catch
    (error_if_expired_and_not_in_overtime STAGE_ATR_ROLLBACK_COMPLETE None (fun ec =>
     throw_if ec (
     call_hook before_atr_rolled_back None (fun ec =>
     throw_if ec (
     read (fun a => (a, atr_id_ a)) (fun p =>
     match snd p with
     | None => throw bad_optional_access
     | Some atr =>
         execute_mutate (atr_remove_request (fst p) atr) (fun res =>
         throw_if (mresp_ec res) (
         lift (modify (set_state ROLLED_BACK)) ;;
         call_hook after_atr_rolled_back None (fun ec =>
         throw_if ec (
         lift (modify (set_is_done_ true))))))
     end))))))
    (fun e =>
       match e with
       | client_error ec =>
           read expiry_overtime_mode_ (fun overtime =>
           if overtime then
             throw_failed (expired (no_rollback (operation_failed FAIL_EXPIRY)))
           else
             match ec with
             | FAIL_DOC_NOT_FOUND | FAIL_PATH_NOT_FOUND =>
                 lift (modify (set_is_done_ true))
             | FAIL_ATR_FULL => throw retry_operation
             | FAIL_HARD => throw_failed (no_rollback (operation_failed ec))
             | FAIL_EXPIRY =>
                 throw_failed (expired (no_rollback (operation_failed ec)))
             | _ => throw retry_operation
             end)
       | _ => throw e
       end).

Definition rollback (fuel : nat) : blocking unit :=
  lift (check_expiry_during_commit_or_rollback STAGE_ROLLBACK None) ;;
  read (fun a => (atr_id_ a, state a, is_done_ a)) (fun p =>
  match p with
  | (atr, st, done) =>
      if bool_decide (atr = None)
         || match atr with Some k => is_empty (key k) | None => true end
         || bool_decide (st = NOT_STARTED)
      then lift (modify (set_is_done_ true))
      else if done then throw_failed (no_rollback (operation_failed FAIL_OTHER))
      else
        try_catch
          (retry_op_exp fuel atr_abort ;;
           run_queue (queue_rollback E) ;;
           retry_op_exp fuel atr_rollback_complete)
          (fun e =>
             match e with
             | client_error FAIL_HARD =>
                 throw_failed (no_rollback (operation_failed FAIL_HARD))
             | client_error _ => ret tt
             | _ => throw e
             end)
  end).

(** ** The transaction runner *)

Record transaction_result := Result {
  result_transaction_id : string;
  result_atr_id : string;
  result_atr_collection : string;
  result_attempts : list transaction_attempt;
  unstaging_complete : bool
}.

(** [transaction_context::transaction_context()] *)
Definition new_transaction_context (k : transaction_context -> W -> machine)
    : W -> machine :=
  fun w =>
    let '(tid, w1) := next_uid E w in
    k (Context tid (now E w1) 0 [] "" "") w1.

(** The constructor of the attempt: it puts a new attempt in the context. *)
Definition new_attempt (overall : transaction_context) (config : transaction_config)
    (w : W) : machine :=
  let '(aid, w1) := next_uid E w in
  Machine (Attempt (add_attempt aid overall) config None false [] false) w1 [].

(** [transactions::run(logic)].  The body [logic] is any code that works on
    the attempt it is handed; what it throws leaves [run]. *)
Definition run_steps (fuel : nat) (logic : blocking unit) : blocking transaction_result :=
  read id (fun aid => emit (ev_logic aid) >> logic) ;;
  read is_done_ (fun done => if done then ret tt else commit fuel) ;;
  read overall_ (fun overall =>
  ret (Result (transaction_id overall) (ctx_atr_id overall) (ctx_atr_collection overall)
              (attempts overall)
              (bool_decide (attempt_state_of (current_attempt overall) = COMPLETED)))).

Definition run (fuel : nat) (config : transaction_config) (logic : blocking unit)
    (w : W) : outcome transaction_result * machine :=
  run_steps fuel logic
    (new_transaction_context (fun overall => new_attempt overall config) w).

(** ** Lost-attempt cleanup (atr_cleanup_entry.cxx) *)

Record atr_cleanup_entry := CleanupEntry {
  ce_atr_id : document_id;
  ce_attempt_id : string;
  ce_check_if_expired : bool;
  ce_atr_entry : option atr_entry;
  ce_config : transaction_config
}.

Definition safety_margin_ms_ : Z := 1500.

Definition execute_insert_req (req : insert_request)
    (k : option error_class -> blocking unit) : blocking unit :=
  emit (ev_insert req) >> ask (execute_insert E req) k.

Definition execute_remove_req (req : remove_request)
    (k : option error_class -> blocking unit) : blocking unit :=
  emit (ev_remove req) >> ask (execute_remove E req) k.

(** The staged CRC against the CRC of the document as fetched.  The source
    reads [doc.metadata()->crc32()] without testing that the metadata is
    there; a document fetched with the [$document] virtual attribute always
    carries it, and the case without is taken as no match. *)
Definition crc_matches (doc : transaction_get_result) : bool :=
  match metadata doc with
  | Some md =>
      match meta_crc32 md, crc32_of_staging (links doc) with
      | Some body_crc, Some staged_crc => bool_decide (staged_crc = body_crc)
      | _, _ => false
      end
  | None => false
  end.

(** The test [do_per_doc] makes on the document it has just fetched,
    before it calls the mutating function. *)
Definition cleanup_applies (attempt_id : string) (require_crc_to_match : bool)
    (doc : transaction_get_result) : bool :=
  if negb (has_staged_content (links doc) || is_document_being_removed (links doc))
     || negb (has_staged_write (links doc))
  then false
  else if negb (bool_decide (staged_attempt_id (links doc) = Some attempt_id))
  then false
  else if require_crc_to_match then crc_matches doc
  else true.

Definition fetched_doc (dr : doc_record) (res : lookup_in_response)
    : transaction_get_result :=
  GetResult (dr_document_id dr) (content (lresp_doc res)) (cas (lresp_doc res))
            (links (lresp_doc res)) (metadata (lresp_doc res)).

Fixpoint do_per_doc (e : atr_cleanup_entry) (docs : list doc_record)
    (require_crc_to_match : bool)
    (call : transaction_get_result -> bool -> blocking unit) : blocking unit :=
  match docs with
  | [] => ret tt
  | dr :: rest =>
      try_catch
        (execute_lookup (get_doc_request (dr_document_id dr)) (fun res =>
         throw_if (lresp_ec res) (
         match lresp_values res with
         | [] => ret tt
         | _ :: _ =>
             let doc := fetched_doc dr res in
             if cleanup_applies (ce_attempt_id e) require_crc_to_match doc
             then call doc (lresp_is_deleted res)
             else ret tt
         end)))
        (fun ex =>
           match ex with
           | client_error FAIL_DOC_NOT_FOUND => ret tt
           | _ => throw ex
           end) ;;
      do_per_doc e rest require_crc_to_match call
  end.

Definition remove_links_request (e : atr_cleanup_entry) (doc : transaction_get_result)
    : mutate_in_request :=
  wrap_durable_request
    (with_cas
       (with_access_deleted
          (with_specs (mutate_in_request_for (doc_id doc))
             [add_spec3 op_remove true TRANSACTION_INTERFACE_PREFIX_ONLY])
          true)
       (cas doc))
    (ce_config e).

Definition commit_doc_request (e : atr_cleanup_entry) (doc : transaction_get_result)
    : mutate_in_request :=
  wrap_durable_request
    (with_store_semantics
       (with_cas
          (with_specs (mutate_in_request_for (doc_id doc))
             [ add_spec3 op_remove true TRANSACTION_INTERFACE_PREFIX_ONLY;
               Spec op_set_doc false false false "" (JStr (staged_content_of (links doc))) ])
          (cas doc))
       sem_replace)
    (ce_config e).

Definition commit_docs (e : atr_cleanup_entry) (docs : option (list doc_record))
    : blocking unit :=
  match docs with
  | None => ret tt
  | Some docs =>
      do_per_doc e docs true (fun doc _ =>
        if has_staged_content (links doc) then
          if is_deleted (links doc) then
            execute_insert_req
              (InsertReq (doc_id doc) (staged_content_of (links doc))
                         (Some (config_durability (ce_config e))))
              (fun ec => throw_if ec (ret tt))
          else
            execute_mutate (commit_doc_request e doc)
              (fun res => throw_if (mresp_ec res) (ret tt))
        else ret tt)
  end.

Definition remove_docs (e : atr_cleanup_entry) (docs : option (list doc_record))
    : blocking unit :=
  match docs with
  | None => ret tt
  | Some docs =>
      do_per_doc e docs true (fun doc is_deleted =>
        if is_deleted then
          execute_mutate (remove_links_request e doc)
            (fun res => throw_if (mresp_ec res) (ret tt))
        else
          execute_remove_req
            (RemoveReq (doc_id doc) (cas doc) (Some (config_durability (ce_config e))))
            (fun ec => throw_if ec (ret tt)))
  end.

Definition remove_docs_staged_for_removal (e : atr_cleanup_entry)
    (docs : option (list doc_record)) : blocking unit :=
  match docs with
  | None => ret tt
  | Some docs =>
      do_per_doc e docs true (fun doc _ =>
        if is_document_being_removed (links doc) then
          execute_remove_req
            (RemoveReq (doc_id doc) (cas doc) (Some (config_durability (ce_config e))))
            (fun ec => throw_if ec (ret tt))
        else ret tt)
  end.

Definition remove_txn_links (e : atr_cleanup_entry) (docs : option (list doc_record))
    : blocking unit :=
  match docs with
  | None => ret tt
  | Some docs =>
      do_per_doc e docs false (fun doc _ =>
        execute_mutate (remove_links_request e doc)
          (fun res => throw_if (mresp_ec res) (ret tt)))
  end.

Definition cleanup_docs (e : atr_cleanup_entry) (entry : atr_entry) : blocking unit :=
  match entry_state entry with
  | COMMITTED =>
      commit_docs e (inserted_ids entry) ;;
      commit_docs e (replaced_ids entry) ;;
      remove_docs_staged_for_removal e (removed_ids entry)
  | ABORTED =>
      remove_docs e (inserted_ids entry) ;;
      remove_txn_links e (replaced_ids entry) ;;
      remove_txn_links e (removed_ids entry)
  | _ => ret tt
  end.

(** [cleanup_entry]: the request that takes the attempt out of the ATR. *)
Definition cleanup_entry_request (e : atr_cleanup_entry) : mutate_in_request :=
  wrap_durable_request
    (with_specs (mutate_in_request_for (ce_atr_id e))
       [Spec op_replace true false false "attempts" (JObj ∅)])
    (ce_config e).

Definition cleanup_entry (e : atr_cleanup_entry) : blocking unit :=
  execute_mutate (cleanup_entry_request e)
    (fun res => throw_if (mresp_ec res) (ret tt)).

Definition check_atr_and_cleanup (e : atr_cleanup_entry) (entry : atr_entry)
    : blocking unit :=
  clock (fun t =>
  if ce_check_if_expired e && negb (has_expired (t / 1000000) safety_margin_ms_ entry)
  then ret tt
  else
    match forward_compat_check E CLEANUP_ENTRY (entry_forward_compat entry) with
    | Some err => throw_failed err
    | None => cleanup_docs e entry ;; cleanup_entry e
    end).

Definition clean (e : atr_cleanup_entry) : blocking unit :=
  match ce_atr_entry e with
  | None =>
      emit (ev_get_atr (ce_atr_id e)) >>
      ask (get_atr E (ce_atr_id e)) (fun r =>
      match snd r with
      | Some atr =>
          match List.find (fun x => bool_decide (entry_attempt_id x = ce_attempt_id e))
                          (entries atr) with
          | Some it => check_atr_and_cleanup e it
          | None => ret tt
          end
      | None => ret tt
      end)
  | Some entry => check_atr_and_cleanup e entry
  end.

End Engine.

Arguments machine : clear implicits.
Arguments cluster : clear implicits.
Arguments action : clear implicits.
Arguments blocking : clear implicits.

(** * The first-generation attempt context (attempt_context.cxx)

    The synchronous attempt context the repository started from.  It keeps
    the id of the ATR as an optional string, talks to one collection and
    reports failures as [std::runtime_error]. *)

Module Legacy.

Inductive spec_kind := k_insert | k_upsert | k_fulldoc_insert | k_fulldoc_upsert.

(** [mutate_in_spec::insert(path, value).xattr().create_path().expand_macro()] *)
Record mutate_in_spec := LSpec {
  kind : spec_kind;
  path : string;
  value : json;
  xattr : bool;
  create_path : bool;
  expand_macro : bool
}.

Definition insert_spec (p : string) (v : json) := LSpec k_insert p v false false false.
Definition upsert_spec (p : string) (v : json) := LSpec k_upsert p v false false false.
Definition fulldoc_upsert (v : json) := LSpec k_fulldoc_upsert "" v false false false.
Definition fulldoc_insert (v : json) := LSpec k_fulldoc_insert "" v false false false.
Definition with_xattr (s : mutate_in_spec) :=
  LSpec (kind s) (path s) (value s) true (create_path s) (expand_macro s).
Definition with_create_path (s : mutate_in_spec) :=
  LSpec (kind s) (path s) (value s) (xattr s) true (expand_macro s).
Definition with_expand_macro (s : mutate_in_spec) :=
  LSpec (kind s) (path s) (value s) (xattr s) (create_path s) true.

Record collection_ref := Coll {
  bucket_name : string;
  coll_scope : string;
  coll_name : string
}.

(** [collection->mutate_in(key, specs, durability)] *)
Record request := Req {
  req_collection : collection_ref;
  req_key : string;
  req_specs : list mutate_in_spec
}.

(** [result]: [rc == LCB_SUCCESS], and the CAS. *)
Record result := Res { success : bool; res_cas : Z }.

Record staged := LStaged {
  staged_id : string;
  staged_type : staged_mutation_type
}.

Record attempt_context := LAttempt {
  id_ : string;
  atr_id_ : option string;
  atr_collection_ : option collection_ref;
  state_ : attempt_state;
  is_done_ : bool;
  staged_mutations_ : list staged
}.

(** The field names of that generation that section 6 does not list; no
    theorem depends on how they are spelled. *)
Definition STAGED_VERSION := "txn.ver".
Definition ATR_SCOPE_NAME := "txn.atr.scp".

Section WithCluster.

Context {W : Type}.
Variable mutate_in : request -> W -> result * W.
Variable vbucket_for_key : string -> nat.
Variable atr_id_for_vbucket : nat -> string.

Record state := St {
  this : attempt_context;
  world : W;
  sent : list request
}.

Definition send (r : request) (s : state) : result * state :=
  let '(res, w) := mutate_in r (world s) in
  (res, St (this s) w (sent s ++ [r])).

(** [attempt_context::attempt_context] *)
Definition new_attempt_context (uid : string) : attempt_context :=
  LAttempt uid None None NOT_STARTED false [].

Definition init_atr_if_needed (collection : collection_ref) (id : string)
    (a : attempt_context) : attempt_context :=
  match atr_id_ a with
  | Some _ =>
      let vbucket_id := vbucket_for_key id in
      LAttempt (id_ a) (Some (atr_id_for_vbucket vbucket_id)) (Some collection)
               PENDING (is_done_ a) (staged_mutations_ a)
  | None => a
  end.

Definition pending_specs (a : attempt_context) : list mutate_in_spec :=
  let prefix := ATR_FIELD_ATTEMPTS +:+ "." +:+ id_ a +:+ "." in
  [ with_create_path (with_xattr
      (insert_spec (prefix +:+ ATR_FIELD_STATUS) (JStr (attempt_state_name PENDING))));
    with_expand_macro (with_xattr
      (insert_spec (prefix +:+ ATR_FIELD_START_TIMESTAMP) (JStr "${Mutation.CAS}")));
    with_xattr (insert_spec (prefix +:+ ATR_FIELD_EXPIRES_AFTER_MSECS) (JNum 15));
    fulldoc_upsert (JObj ∅) ].

Definition add_staged (m : staged) (a : attempt_context) : attempt_context :=
  LAttempt (id_ a) (atr_id_ a) (atr_collection_ a) (state_ a) (is_done_ a)
           (List.filter (fun x => negb (bool_decide (staged_id x = staged_id m)))
                        (staged_mutations_ a) ++ [m]).

Definition set_this (a : attempt_context) (s : state) : state :=
  St a (world s) (sent s).

Definition no_staged (a : attempt_context) : bool :=
  match staged_mutations_ a with [] => true | _ => false end.

(** [atr_id_.value()] *)
Definition atr_id_value {A} (s : state) (k : string -> outcome A * state)
    : outcome A * state :=
  match atr_id_ (this s) with
  | Some atr => k atr
  | None => (thrown bad_optional_access, s)
  end.

Definition staging_specs (first rest : string -> json -> mutate_in_spec)
    (a : attempt_context) (atr : string) (collection : collection_ref)
    (staged_data : json) : list mutate_in_spec :=
  [ with_create_path (with_xattr (first STAGED_VERSION (JStr (id_ a))));
    with_xattr (rest ATR_ID (JStr atr));
    with_xattr (rest STAGED_DATA staged_data);
    with_xattr (rest ATR_BUCKET_NAME (JStr (bucket_name collection)));
    with_xattr (rest ATR_SCOPE_NAME (JStr (coll_scope collection)));
    with_xattr (rest ATR_COLL_NAME (JStr (coll_name collection))) ].

(** [attempt_context::replace] *)
Definition replace (collection : collection_ref) (document_id : string)
    (content : json) (s : state) : outcome Z * state :=
  let s := set_this (init_atr_if_needed collection document_id (this s)) s in
  let stage (s : state) : outcome Z * state :=
    atr_id_value s (fun atr =>
    let '(res, s') :=
      send (Req collection document_id
              (staging_specs upsert_spec upsert_spec (this s) atr collection content)) s in
    if success res then
      (returned (res_cas res),
       set_this (add_staged (LStaged document_id REPLACE) (this s')) s')
    else (thrown (runtime_error "failed to replace the document"), s')) in
  if no_staged (this s) then
    atr_id_value s (fun atr =>
    let '(res, s') := send (Req collection atr (pending_specs (this s))) s in
    if success res then stage s'
    else (thrown (runtime_error "failed to set ATR to pending state"), s'))
  else stage s.

(** [attempt_context::insert] *)
Definition insert (collection : collection_ref) (id : string) (content : json)
    (s : state) : outcome Z * state :=
  let s := set_this (init_atr_if_needed collection id (this s)) s in
  let s :=
    if no_staged (this s)
    then snd (send (Req collection id (pending_specs (this s))) s)
    else s in
  atr_id_value s (fun atr =>
  let '(res, s') :=
    send (Req collection id
            (staging_specs upsert_spec insert_spec (this s) atr collection content
             ++ [fulldoc_insert (JObj ∅)])) s in
  if success res then
    (returned (res_cas res), set_this (add_staged (LStaged id INSERT) (this s')) s')
  else (thrown (runtime_error "failed to insert the document"), s')).

Definition STAGED_DATA_REMOVED_VALUE : json := JStr "<<REMOVE>>".

(** [attempt_context::remove] *)
Definition remove (collection : collection_ref) (document_id : string)
    (s : state) : outcome Z * state :=
  let s := set_this (init_atr_if_needed collection document_id (this s)) s in
  let s :=
    if no_staged (this s)
    then snd (send (Req collection document_id (pending_specs (this s))) s)
    else s in
  atr_id_value s (fun atr =>
  let '(res, s') :=
    send (Req collection document_id
            (staging_specs upsert_spec upsert_spec (this s) atr collection
               STAGED_DATA_REMOVED_VALUE)) s in
  if success res then
    (returned (res_cas res),
     set_this (add_staged (LStaged document_id REMOVE) (this s')) s')
  else (thrown (runtime_error "failed to remove the document"), s')).

End WithCluster.
End Legacy.

(** * The ATR document on the server *)

(** Modelled from the spec: how the server applies the extended-attribute
    specs of a mutate-in to the attributes of the addressed document
    (section 6; the storage substrate is not part of the repository).  The
    request is atomic: one failing spec fails it and changes nothing. *)
Definition expand (cas : Z) (s : subdoc_spec) : json :=
  if spec_expand_macro s then
    match spec_value s with
    | JStr m => if decide (m = "${Mutation.CAS}") then JNum cas else spec_value s
    | v => v
    end
  else spec_value s.

Definition apply_spec (cas : Z) (s : subdoc_spec) (xattrs : json) : option json :=
  if spec_xattr s then
    match spec_opcode s with
    | op_dict_add =>
        json_put true (spec_create_path s) (split_path (spec_path s)) (expand cas s) xattrs
    | op_dict_upsert =>
        json_put false (spec_create_path s) (split_path (spec_path s)) (expand cas s) xattrs
    | op_remove => json_remove (split_path (spec_path s)) xattrs
    | op_replace => json_replace (split_path (spec_path s)) (expand cas s) xattrs
    | _ => Some xattrs
    end
  else Some xattrs.

Fixpoint apply_specs (cas : Z) (l : list subdoc_spec) (xattrs : json) : option json :=
  match l with
  | [] => Some xattrs
  | s :: l' =>
      match apply_spec cas s xattrs with
      | Some x => apply_specs cas l' x
      | None => None
      end
  end.

(** The entry of an attempt in the attributes of an ATR document. *)
Definition atr_entry_of (attempt_id : string) (xattrs : json) : option json :=
  json_get [ATR_FIELD_ATTEMPTS; attempt_id] xattrs.

Definition no_dot (s : string) : Prop :=
  forall c, In c (list_ascii_of_string s) -> c <> "."%char.

(** * A scripted cluster

    A small cluster to run the engine against: documents and ATRs as the
    engine parses them, a clock, and a script that says how the successive
    mutate-in requests end (absent entries succeed).  Hooks are the
    production no-ops. *)

Module Sim.

Record sim := Sim {
  sim_now : Z;
  sim_docs : gmap document_id transaction_get_result;
  sim_atrs : gmap document_id active_transaction_record;
  sim_script : list (option error_class);
  sim_cas : Z;
  sim_uids : list string
}.

Definition mutate_in (req : mutate_in_request) (w : sim) : mutate_in_response * sim :=
  let cas' := (sim_cas w + 1)%Z in
  match sim_script w with
  | ec :: rest =>
      (MutateResp ec cas', Sim (sim_now w) (sim_docs w) (sim_atrs w) rest cas' (sim_uids w))
  | [] =>
      (MutateResp None cas', Sim (sim_now w) (sim_docs w) (sim_atrs w) [] cas' (sim_uids w))
  end.

Definition absent : transaction_get_result :=
  GetResult (DocId "" "" "" "") "" 0 (no_links false) None.

(** A lookup of one path [attempts.<id>.tst] reads the status of an ATR
    entry; any other lookup fetches a document. *)
Definition lookup_in (req : lookup_in_request) (w : sim) : lookup_in_response * sim :=
  match lreq_specs req with
  | [s] =>
      match sim_atrs w !! lreq_id req, split_path (spec_path s) with
      | Some atr, [_; attempt; _] =>
          match List.find (fun e => bool_decide (entry_attempt_id e = attempt)) (entries atr) with
          | Some e => (LookupResp None [attempt_state_name (entry_state e)] false absent, w)
          | None => (LookupResp (Some FAIL_PATH_NOT_FOUND) [] false absent, w)
          end
      | Some _, _ => (LookupResp (Some FAIL_PATH_NOT_FOUND) [] false absent, w)
      | None, _ => (LookupResp (Some FAIL_DOC_NOT_FOUND) [] false absent, w)
      end
  | _ =>
      match sim_docs w !! lreq_id req with
      | Some d => (LookupResp None [content d] (is_deleted (links d)) d, w)
      | None => (LookupResp (Some FAIL_DOC_NOT_FOUND) [] false absent, w)
      end
  end.

Definition next_uid (w : sim) : string * sim :=
  match sim_uids w with
  | u :: rest => (u, Sim (sim_now w) (sim_docs w) (sim_atrs w) (sim_script w) (sim_cas w) rest)
  | [] => ("", w)
  end.

Definition sleep_for (d : Z) (w : sim) : sim :=
  Sim (sim_now w + d) (sim_docs w) (sim_atrs w) (sim_script w) (sim_cas w) (sim_uids w).

Definition the_cluster : cluster sim :=
  Cluster sim_now mutate_in lookup_in
          (fun _ w => (None, w)) (fun _ w => (None, w))
          (fun id w => ((false, sim_atrs w !! id), w))
          (fun _ _ w => (None, w))
          (fun _ _ w => (false, w))
          (fun w => (None, w))
          (fun w => (false, w))
          sleep_for next_uid
          (fun k => (String.length k mod 1024)%nat)
          (fun v => "_txn:atr-" +:+ pretty v)
          (fun _ _ => None)
          (fun _ w => (None, w)) (fun _ w => (None, w))
          FAIL_DOC_NOT_FOUND.

Definition config : transaction_config := Config 15000000000 MAJORITY.

Definition doc (k : string) : document_id := DocId "default" "_default" "_default" k.

(** An attempt "attempt-1" of transaction "txn-1", started at time 0, with
    the ATR of [doc "a"] selected and the given queue. *)
Definition attempt (done : bool) (q : list staged_mutation) : attempt_context_impl :=
  Attempt (Context "txn-1" 0 0 [TxnAttempt "attempt-1" PENDING] "_txn:atr-1" "_default._default")
          config (Some (doc "_txn:atr-1")) done q false.

Definition fresh_attempt : attempt_context_impl :=
  Attempt (Context "txn-1" 0 0 [TxnAttempt "attempt-1" NOT_STARTED] "" "")
          config None false [] false.

Definition empty_world : sim := Sim 1000 ∅ ∅ [] 100 [].

Definition plain (k body : string) : transaction_get_result :=
  GetResult (doc k) body 7 (no_links false) None.

(** A staged write of another attempt, as it sits on the document. *)
Definition foreign_links (attempt type : string) (staged : option string)
    : transaction_links :=
  Links (Some "_txn:atr-9") (Some "default") (Some "_default") (Some "_default")
        (Some "txn-2") (Some attempt) staged None None None (Some "crc-1")
        (Some type) None false.

Definition entry (attempt : string) (st : attempt_state) (start expires : Z) : atr_entry :=
  AtrEntry attempt st start expires None None None None.

End Sim.

(** * What the claims talk about *)

(** The events an operation adds to the trace of the machine it starts
    from. *)
Definition new_events {W} (a : action W) (m : machine W) : list event :=
  drop (List.length (trace m)) (trace (a m)).

Definition is_completion (e : event) : bool :=
  match e with
  | ev_error _ | ev_result _ | ev_done => true
  | _ => false
  end.

(** The completions of the operation's callback, in order. *)
Definition completions {W} (a : action W) (m : machine W) : list event :=
  List.filter is_completion (new_events a m).

Definition is_logic (e : event) : bool :=
  match e with
  | ev_logic _ => true
  | _ => false
  end.

Definition fails_with {W} (ec : error_class) (a : action W) (m : machine W) : Prop :=
  exists e, completions a m = [ev_error e] /\ tof_ec e = ec.

Definition in_queue (q : list staged_mutation) (id : document_id) : Prop :=
  exists mu, In mu q /\ doc_id (sm_doc mu) = id.

(** The attempt has not run out of its budget, as [has_expired_client_side]
    sees it at the given stage. *)
Definition not_expired {W} (E : cluster W) (place : stage) (k : option string)
    (m : machine W) : Prop :=
  ctx_has_expired_client_side (overall_ (self m)) (config_ (self m)) (now E (world m)) = false
  /\ fst (hook_has_expired_client_side E place k (world m)) = false.

(** Claim C2 as the spec states it: removing a document inserted earlier in
    the same attempt succeeds and takes the insert out of the queue. *)
Definition remove_of_own_insert_allowed {W} (E : cluster W) (fuel : nat)
    (m : machine W) (document : transaction_get_result) : Prop :=
  find_insert (staged_mutations_ (self m)) (doc_id document) <> None ->
  completions (remove E fuel document) m = [ev_done]
  /\ find_insert (staged_mutations_ (self (remove E fuel document m))) (doc_id document) = None.

(** Claim C7 as the spec states it: an insert of a document that is in the
    queue as any kind of entry fails with FAIL_OTHER. *)
Definition insert_of_queued_fails {W} (E : cluster W) (fuel : nat)
    (m : machine W) (id : document_id) (content : string) : Prop :=
  in_queue (staged_mutations_ (self m)) id ->
  fails_with FAIL_OTHER (insert_raw E fuel id content) m.

(** ** The reference lookup of section 4.7 *)











(** An operation keeps the ATR when an ATR that is selected before it runs
    is still the selected one after it. *)
Definition keeps_atr {W} (a : action W) : Prop :=
  forall m x, atr_id_ (self m) = Some x -> atr_id_ (self (a m)) = Some x.

(** * What the operations keep and do

    Notions for the properties of the operations that hold on any cluster. *)

(** An operation, asynchronous ([proj] the identity) or blocking ([proj]
    the machine it leaves), keeps a property of the attempt. *)
Definition preserves {W R} (proj : R -> machine W)
    (P : attempt_context_impl -> Prop) (f : machine W -> R) : Prop :=
  forall m, P (self m) -> P (self (proj (f m))).

(** A property that every assignment the engine makes to a field of the
    attempt keeps. *)
Record setter_closed (P : attempt_context_impl -> Prop) : Prop := SetterClosed {
  closed_state : forall s a, P a -> P (set_state s a);
  closed_overall :
    forall coll k a, P a -> P (set_overall (set_ctx_atr coll k (overall_ a)) a);
  closed_atr : forall i a, P a -> P (set_atr_id_ (Some i) a);
  closed_done : forall a, P a -> P (set_is_done_ true a);
  closed_queue : forall q a, P a -> P (set_staged_mutations_ q a);
  closed_overtime : forall a, P a -> P (set_expiry_overtime_mode_ true a)
}.

(** ** What staging writes *)

(** A request that leaves the bodies of the documents alone: a mutate-in
    all of whose specs address extended attributes; never a full-document
    insert or remove. *)
Definition stages_in_xattrs (e : event) : Prop :=
  match e with
  | ev_mutate_in req => Forall (fun s => spec_xattr s = true) (mreq_specs req)
  | ev_insert _ | ev_remove _ => False
  | _ => True
  end.

(** The operation adds to the trace, and only events that satisfy [Q]. *)
Definition emits {W} (Q : event -> Prop) (a : action W) : Prop :=
  forall m, exists l, trace (a m) = trace m ++ l /\ Forall Q l.

(** ** Reads *)

(** The events of a read: lookups, ATR fetches and exceptions. *)
Definition is_read (e : event) : bool :=
  match e with
  | ev_lookup_in _ | ev_get_atr _ | ev_throw _ => true
  | _ => false
  end.

(** The calls an operation makes to its callback, replayed on the machine
    the operation leaves. *)
Definition replay {W} (cb : option error_class -> option transaction_get_result -> action W)
    (calls : list (option error_class * option transaction_get_result))
    (m0 : machine W) : machine W :=
  fold_left (fun m c => cb (fst c) (snd c) m) calls m0.

(** What [get_optional] reports as "no document", [get] reports as a
    failure; everything else is the same. *)
Definition same_but_missing (optional required : event) : Prop :=
  match optional with
  | ev_result None => exists ec, required = ev_error (operation_failed ec)
  | _ => required = optional
  end.

(** Anything but a mutation sent to the cluster. *)
Definition no_write (e : event) : bool :=
  match e with
  | ev_mutate_in _ | ev_insert _ | ev_remove _ => false
  | _ => true
  end.

Section ReadCallbacks.
Context {W : Type} (E : cluster W).

(** The callback [get] hands to [do_get]. *)
Definition get_cb (doc : document_id) (ec : option error_class)
    (res : option transaction_get_result) : action W :=
  after_do_get E (key doc) (fun ec =>
    match ec with
    | Some ec => get_error (op_completed_with_error (operation_failed ec)) ec
    | None =>
        match res with
        | None => op_completed_with_error (operation_failed (indeterminate_error_class E))
        | Some r =>
            match forward_compat_check E GETS (forward_compat (links r)) with
            | Some err => op_completed_with_error err
            | None => op_completed_with_callback res
            end
        end
    end) ec.

(** The callback [get_optional] hands to [do_get]. *)
Definition get_optional_cb (doc : document_id) (ec : option error_class)
    (res : option transaction_get_result) : action W :=
  after_do_get E (key doc) (fun ec =>
    match ec with
    | Some ec => get_error (op_completed_with_callback None) ec
    | None =>
        match res with
        | Some r =>
            match forward_compat_check E GETS (forward_compat (links r)) with
            | Some err => op_completed_with_error err
            | None => op_completed_with_callback res
            end
        | None => op_completed_with_callback res
        end
    end) ec.

End ReadCallbacks.

(** ** Operations on a cluster with the production hooks *)

(** The testing hooks as they are in production: they raise nothing, age
    nothing, supply no ATR id and leave the world as it is. *)
Record production_hooks {W} (E : cluster W) : Prop := ProductionHooks {
  hook_is_silent : forall h k w, hook E h k w = (None, w);
  expiry_hook_is_silent :
    forall p k w, hook_has_expired_client_side E p k w = (false, w);
  atr_hook_is_silent : forall w, hook_random_atr_id_for_vbucket E w = (None, w)
}.

(** The transaction has not used up its time, by the clock of the world
    the machine is in. *)
Definition in_time {W} (E : cluster W) (m : machine W) : Prop :=
  ctx_has_expired_client_side (overall_ (self m)) (config_ (self m)) (now E (world m))
  = false.

(** The document is free for this transaction to write: nothing is staged
    on it, or what is staged is of this transaction. *)
Definition writable_by (a : attempt_context_impl) (doc : transaction_get_result) : Prop :=
  has_staged_write (links doc) = false
  \/ staged_transaction_id (links doc) = Some (transaction_id (overall_ a)).

(** The document a staged insert hands back: the content, the CAS of the
    write, and the links that a fetch of the staged document would show. *)
Definition inserted_document (a : attempt_context_impl) (atr doc : document_id)
    (content : string) (cas0 : Z) : transaction_get_result :=
  GetResult doc content cas0
    (Links (Some (key atr)) (Some (bucket doc)) (Some (scope doc)) (Some (collection doc))
           (Some (transaction_id (overall_ a))) (Some (id a)) (Some content)
           None None None None (Some "insert") None true)
    None.

Section SelectedAtr.
Context {W : Type} (E : cluster W).

(** The attempt once [select_atr_if_needed_unlocked] has chosen the ATR of
    the first document it mutates. *)
Definition with_atr_selected (a : attempt_context_impl) (doc : document_id)
    : attempt_context_impl :=
  let atr_key := atr_id_for_vbucket E (vbucket_for_key E (key doc)) in
  let a1 := set_atr_id_ (Some (DocId (bucket doc) "_default" "_default" atr_key)) a in
  set_state NOT_STARTED
    (set_overall (set_ctx_atr (collection_spec_from_id doc) atr_key (overall_ a1)) a1).

(** The ATR that [select_atr_if_needed_unlocked] chooses for a document. *)
Definition selected_atr (doc : document_id) : document_id :=
  DocId (bucket doc) "_default" "_default"
        (atr_id_for_vbucket E (vbucket_for_key E (key doc))).

End SelectedAtr.

(** ** What the cleanup fetches *)

(** A fetch of a document. *)
Definition is_lookup (e : event) : bool :=
  match e with
  | ev_lookup_in _ => true
  | _ => false
  end.

(** The fetches among the events of a trace. *)
Definition lookups (l : list event) : list event := List.filter is_lookup l.

(** The fetches of a list of documents, in the order of the list. *)
Definition fetches (docs : list doc_record) : list event :=
  List.map (fun dr => ev_lookup_in (get_doc_request (dr_document_id dr))) docs.

(** A computation that fetches no document. *)
Definition writes_only {W A} (c : blocking W A) : Prop :=
  forall m, exists l, trace (snd (c m)) = trace m ++ l /\ lookups l = [].

(** A step of the cleanup fetches documents of [docs], from the first on
    and each once; all of them when the step completes. *)
Definition fetches_in_order {W} (c : blocking W unit) (docs : list doc_record) : Prop :=
  forall m, exists l fetched,
    trace (snd (c m)) = trace m ++ l
    /\ lookups l = fetches fetched
    /\ fetched `prefix_of` docs
    /\ (fst (c m) = returned tt -> fetched = docs).

(** The documents an ATR entry lists, in the order the cleanup goes through
    them: inserted, replaced, removed; none for an entry that is neither
    COMMITTED nor ABORTED. *)
Definition listed (entry : atr_entry) : list doc_record :=
  match entry_state entry with
  | COMMITTED | ABORTED =>
      default [] (inserted_ids entry) ++ default [] (replaced_ids entry)
      ++ default [] (removed_ids entry)
  | _ => []
  end.

(** ** What the cleanup may touch *)








(** * The queue of attempts to clean (atr_cleanup_entry.cxx) *)

Module CleanupQueue.

(** A cleanup entry as the queue holds it: the entry, and the time of the
    steady clock from which it may be cleaned. *)
Record queued_cleanup := Queued {
  min_start_time_ : Z;
  queued_entry : atr_cleanup_entry
}.

(** [atr_cleanup_entry(atr_id, attempt_id, cleanup)] and
    [atr_cleanup_entry(entry, atr_id, cleanup, check_if_expired)] leave
    [min_start_time_] to its default constructor, the epoch of the clock. *)
Definition cleanup_entry_for (atr_id : document_id) (attempt_id : string)
    (config : transaction_config) : queued_cleanup :=
  Queued 0 (CleanupEntry atr_id attempt_id false None config).

Definition cleanup_entry_of_atr_entry (entry : atr_entry) (atr_id : document_id)
    (config : transaction_config) (check_if_expired : bool) : queued_cleanup :=
  Queued 0 (CleanupEntry atr_id (entry_attempt_id entry) check_if_expired (Some entry)
                         config).

(** [atr_cleanup_entry(attempt_context& ctx)]: the entry of an attempt,
    startable from now on; [ctx_impl.atr_id_.value()] throws when the
    attempt has no ATR.  The cleanup the entry points to is the one of the
    transactions object, which is configured as the attempt is. *)
Definition cleanup_entry_of_attempt (now : Z) (ctx : attempt_context_impl)
    : outcome queued_cleanup :=
  match atr_id_ ctx with
  | Some atr =>
      returned (Queued now (CleanupEntry (DocId (bucket atr) (scope atr) (collection atr)
                                                (key atr))
                                         (id ctx) false None (config_ ctx)))
  | None => thrown bad_optional_access
  end.

(** [compare_atr_entries::operator()]: true when [lhs] starts later. *)
Definition compare_atr_entries (lhs rhs : queued_cleanup) : bool :=
  (min_start_time_ rhs <? min_start_time_ lhs)%Z.

(** [atr_cleanup_entry::ready] *)
Definition ready (now : Z) (e : queued_cleanup) : bool :=
  (min_start_time_ e <? now)%Z.

(** The [std::priority_queue] of the entries under [compare_atr_entries]: a
    bag of entries, here the list of them in the order they were pushed.
    The library keeps on top an entry that no other entry compares above;
    which one, among entries that start at the same time, depends on the
    library and on the pushes and pops so far, and the source does not
    depend on it.  So each [pop] is told where the top is: [top] is the
    place in the list of the entry the library has on top ([is_top]).  The
    mutex that guards the queue is left out: the operations are taken one
    at a time. *)
Definition atr_cleanup_queue := list queued_cleanup.

(** The entry at [i] can be [queue_.top()]: no entry of the queue compares
    above it.  An empty queue has no top. *)
Definition is_top (q : atr_cleanup_queue) (i : nat) : Prop :=
  match q !! i with
  | Some t => forall y, In y q -> compare_atr_entries t y = false
  | None => q = []
  end.

(** [atr_cleanup_queue::pop(check_time)], with the top at [top] *)
Definition pop (top : nat) (check_time : bool) (now : Z) (q : atr_cleanup_queue)
    : option queued_cleanup * atr_cleanup_queue :=
  match q !! top with
  | Some t =>
      if negb check_time || (check_time && ready now t)
      then (Some t, delete top q)
      else (None, q)
  | None => (None, q)
  end.

(** [atr_cleanup_queue::size] *)
Definition size (q : atr_cleanup_queue) : nat := List.length q.

(** [atr_cleanup_queue::push(const atr_cleanup_entry&)] *)
Definition push (e : queued_cleanup) (q : atr_cleanup_queue) : atr_cleanup_queue :=
  q ++ [e].

(** [atr_cleanup_queue::push(attempt_context&)] *)
Definition push_attempt (now : Z) (ctx : attempt_context_impl) (q : atr_cleanup_queue)
    : outcome atr_cleanup_queue :=
  match cleanup_entry_of_attempt now ctx with
  | returned e => returned (push e q)
  | thrown ex => thrown ex
  | out_of_fuel => out_of_fuel
  end.

End CleanupQueue.

(** The concrete inputs of the examples. *)
Module Inputs.
Import Sim.

(** A finished attempt, and a committed document "a". *)
Definition finished : machine sim :=
  Machine (attempt true [])
          (Sim 1000 (<[doc "a" := plain "a" "{v:1}"]> ∅) ∅ [] 100 []) [].

(** C2: document "b" was inserted earlier in the attempt. *)
Definition inserted_b : transaction_get_result :=
  GetResult (doc "b") "x" 8
    (Links (Some "_txn:atr-1") (Some "default") (Some "_default") (Some "_default")
           (Some "txn-1") (Some "attempt-1") (Some "x") None None None None
           (Some "insert") None true) None.

Definition after_insert_b : machine sim :=
  Machine (attempt false [Staged inserted_b "x" INSERT])
          (Sim 1000 (<[doc "b" := inserted_b]> ∅) ∅ [] 100 []) [].

(** C7: document "b" was removed earlier in the attempt; the server
    answers the staged insert with "document exists". *)
Definition removed_b : transaction_get_result :=
  GetResult (doc "b") "old" 8
    (Links (Some "_txn:atr-1") (Some "default") (Some "_default") (Some "_default")
           (Some "txn-1") (Some "attempt-1") None None None None (Some "crc")
           (Some "remove") None false) None.

Definition after_remove_b : machine sim :=
  Machine (attempt false [Staged removed_b "" REMOVE])
          (Sim 1000 (<[doc "b" := removed_b]> ∅) ∅ [Some FAIL_DOC_ALREADY_EXISTS] 100 []) [].

Definition after_replace_b : machine sim :=
  Machine (attempt false [Staged (plain "b" "new") "new" REPLACE]) empty_world [].

(** C3: the attempt commits; the first ATR-COMMIT write ends ambiguously
    (then the script goes on), and the ATR shows the entry in [st]. *)
Definition committing (script : list (option error_class)) (st : attempt_state)
    : machine sim :=
  Machine (attempt false [Staged inserted_b "x" INSERT])
          (Sim 1000 ∅ (<[doc "_txn:atr-1" := Atr [entry "attempt-1" st 0 15000]]> ∅)
               script 100 []) [].






Definition other_d : transaction_get_result :=
  GetResult (doc "d") "old" 8 (foreign_links "attempt-7" "replace" (Some "new"))
            (Some (Metadata None None None (Some "crc-1"))).

Definition cleaning : machine sim :=
  Machine fresh_attempt (Sim 1000 (<[doc "d" := other_d]> ∅) ∅ [] 100 []) [].

(** C9: an ATR that holds the entries of two attempts. *)
Definition entry_json (status : string) : json :=
  JObj (<[ATR_FIELD_STATUS := JStr status]> ∅).

Definition two_attempts : json :=
  JObj (<[ATR_FIELD_ATTEMPTS :=
            JObj (<["attempt-1" := entry_json "COMMITTED"]>
                 (<["attempt-2" := entry_json "PENDING"]> ∅))]> ∅).

Definition cleaner_1 : atr_cleanup_entry :=
  CleanupEntry (doc "_txn:atr-1") "attempt-1" false None config.

(** C1: a body whose first operation fails with a transient error. *)
Definition transient : transaction_operation_failed :=
  retry (operation_failed FAIL_TRANSIENT).

Definition start_world : sim := Sim 1000 ∅ ∅ [] 100 ["txn-1"; "attempt-1"; "attempt-2"].

(** C5, C6: the first-generation attempt and its collection. *)
Definition default_collection : Legacy.collection_ref :=
  Legacy.Coll "default" "_default" "_default".

Definition legacy_cluster (r : Legacy.request) (w : nat) : Legacy.result * nat :=
  (Legacy.Res true (Z.of_nat w), S w).


(** An attempt that has its ATR and has written nothing yet, over a
    cluster that holds document "a"; the script says how its writes end. *)
Definition ready_to_write (script : list (option error_class)) : machine sim :=
  Machine (attempt false [])
          (Sim 1000 (<[doc "a" := plain "a" "{v:1}"]> ∅) ∅ script 100 []) [].

(** The same attempt after it has removed document "a". *)
Definition after_remove_a : machine sim :=
  Machine (attempt false [Staged (plain "a" "{v:1}") "" REMOVE])
          (Sim 1000 (<[doc "a" := plain "a" "{v:1}"]> ∅) ∅ [] 100 []) [].

(** A new attempt, before its first mutation. *)
Definition starting (script : list (option error_class)) : machine sim :=
  Machine fresh_attempt (Sim 1000 ∅ ∅ script 100 []) [].

(** Document "t" is a tombstone outside any transaction; the server
    refuses the first write. *)
Definition tombstone_t : transaction_get_result :=
  GetResult (doc "t") "" 7 (no_links true) None.

Definition over_tombstone : machine sim :=
  Machine (attempt false [])
          (Sim 1000 (<[doc "t" := tombstone_t]> ∅) ∅ [Some FAIL_DOC_ALREADY_EXISTS] 100 [])
          [].

(** The attempt with two staged mutations, about to commit or roll back. *)
Definition with_two_staged (script : list (option error_class)) : machine sim :=
  Machine (attempt false [Staged inserted_b "x" INSERT;
                          Staged (plain "a" "{v:1}") "{v:2}" REPLACE])
          (Sim 1000 ∅ ∅ script 100 []) [].

(** The attempt 20 s after the start of its transaction. *)
Definition too_late : machine sim :=
  Machine (attempt false []) (Sim 20000000000 ∅ ∅ [] 100 []) [].

(** The attempt in expiry-overtime mode; its next write fails. *)
Definition in_overtime : machine sim :=
  Machine (set_expiry_overtime_mode_ true (attempt false [Staged inserted_b "x" INSERT]))
          (Sim 20000000000 ∅ ∅ [Some FAIL_TRANSIENT] 100 []) [].

(** A cluster on which every lookup ends with "path not found". *)
Definition path_not_found_cluster : cluster sim :=
  Cluster (now the_cluster) (execute_mutate_in the_cluster)
          (fun _ w => (LookupResp (Some FAIL_PATH_NOT_FOUND) [] false absent, w))
          (execute_insert the_cluster) (execute_remove the_cluster)
          (get_atr the_cluster) (hook the_cluster)
          (hook_has_expired_client_side the_cluster)
          (hook_random_atr_id_for_vbucket the_cluster)
          (exp_delay the_cluster) Sim.sleep_for
          Sim.next_uid
          (vbucket_for_key the_cluster) (atr_id_for_vbucket the_cluster)
          (forward_compat_check the_cluster)
          (queue_commit the_cluster) (queue_rollback the_cluster)
          (indeterminate_error_class the_cluster).

(** The cleanup of attempt "attempt-9", which expired while PENDING. *)
Definition expired_pending : atr_entry := entry "attempt-9" PENDING 0 15000.

Definition cleaner_of_pending : atr_cleanup_entry :=
  CleanupEntry (doc "_txn:atr-9") "attempt-9" false (Some expired_pending) config.

(** Three entries for the queue, pushed in this order: startable from 30,
    from 10 and from 20. *)
Definition queued (start : Z) (attempt_id : string) : CleanupQueue.queued_cleanup :=
  CleanupQueue.Queued start
    (CleanupEntry (doc "_txn:atr-9") attempt_id false None config).

Definition three_queued : CleanupQueue.atr_cleanup_queue :=
  CleanupQueue.push (queued 20 "attempt-3")
    (CleanupQueue.push (queued 10 "attempt-2")
       (CleanupQueue.push (queued 30 "attempt-1") [])).

End Inputs.

(** * Theorems *)

(** ** Traces *)

Lemma new_events_app {W} (a : action W) (m : machine W) (l : list event) :
  trace (a m) = trace m ++ l -> new_events a m = l.
Proof.
  intros H. unfold new_events. rewrite H. apply drop_app_length.
Qed.

Lemma then_apply {W R} (a : action W) (b : machine W -> R) (m : machine W) :
  then_ a b m = b (a m).
Proof. reflexivity. Qed.

Lemma check_if_done_not_done {W} (m : machine W) :
  is_done_ (self m) = false -> check_if_done m = m.
Proof. intros H. unfold check_if_done, read. rewrite H. reflexivity. Qed.

Lemma check_if_done_done {W} (m : machine W) :
  is_done_ (self m) = true ->
  check_if_done m
  = Machine (self m) (world m)
      (trace m ++ [ev_error (no_rollback (operation_failed FAIL_OTHER))]).
Proof. intros H. unfold check_if_done, read. rewrite H. reflexivity. Qed.

Lemma find_any_in (t : staged_mutation_type) (q : list staged_mutation)
    (id : document_id) (mu : staged_mutation) :
  In mu q -> doc_id (sm_doc mu) = id -> sm_type mu = t ->
  find_any t q id <> None.
Proof.
  intros Hin Hid Ht Hnone. unfold find_any in Hnone.
  pose proof (List.find_none _ _ Hnone mu Hin) as Hf. simpl in Hf.
  rewrite Ht, Hid in Hf.
  rewrite !bool_decide_eq_true_2 in Hf by reflexivity. discriminate.
Qed.

Lemma check_for_own_write_in (q : list staged_mutation) (id : document_id)
    (mu : staged_mutation) :
  In mu q -> doc_id (sm_doc mu) = id -> sm_type mu <> REMOVE ->
  check_for_own_write q id <> None.
Proof.
  intros Hin Hid Ht. unfold check_for_own_write.
  destruct (find_replace q id) eqn:Hr; [discriminate |].
  destruct (find_insert q id) eqn:Hi; [discriminate |].
  destruct (sm_type mu) eqn:Hty.
  - exfalso. eapply (find_any_in INSERT); eauto.
  - congruence.
  - exfalso. eapply (find_any_in REPLACE); eauto.
Qed.

(** ** insert after an earlier write of the same document *)

(** C7, as amended: when the document is in the queue as an INSERT or a
    REPLACE entry, [insert] completes with FAIL_OTHER, sends nothing to the
    cluster and changes neither the attempt nor the world.  (A finished
    attempt has been told so first, by [check_if_done].) *)
Theorem insert_after_own_write_fails {W} (E : cluster W) (fuel : nat)
    (m : machine W) (id : document_id) (content : string) (mu : staged_mutation) :
  In mu (staged_mutations_ (self m)) ->
  doc_id (sm_doc mu) = id ->
  sm_type mu <> REMOVE ->
  insert_raw E fuel id content m
  = Machine (self m) (world m)
      (trace m
       ++ (if is_done_ (self m)
           then [ev_error (no_rollback (operation_failed FAIL_OTHER))] else [])
       ++ [ev_error (operation_failed FAIL_OTHER)]).
Proof.
  intros Hin Hid Hty.
  pose proof (check_for_own_write_in _ _ _ Hin Hid Hty) as Hown.
  unfold insert_raw, cache_error_async, then_, check_if_done, read,
    op_completed_with_error, emit, skip.
  destruct (is_done_ (self m)); simpl;
    destruct (check_for_own_write (staged_mutations_ (self m)) id);
    try congruence; simpl; rewrite <- ?app_assoc; reflexivity.
Qed.

Lemma insert_after_own_write_fails_witness :
  insert_raw Sim.the_cluster 5 (Sim.doc "b") "again" Inputs.after_replace_b
  = Machine (self Inputs.after_replace_b) (world Inputs.after_replace_b)
      [ev_error (operation_failed FAIL_OTHER)].
Proof.
  apply (insert_after_own_write_fails Sim.the_cluster 5 Inputs.after_replace_b
           (Sim.doc "b") "again" (Staged (Sim.plain "b" "new") "new" REPLACE)).
  - simpl. left. reflexivity.
  - reflexivity.
  - discriminate.
Defined.

(** C7, counterexample: "b" is in the queue as a REMOVE entry.  The insert
    is not stopped at the queue: it is staged, the server answers that the
    document exists, and the operation fails with
    FAIL_DOC_ALREADY_EXISTS. *)
Lemma insert_after_own_remove_counterexample :
  ~ insert_of_queued_fails Sim.the_cluster 5 Inputs.after_remove_b (Sim.doc "b") "new".
Proof.
  unfold insert_of_queued_fails, fails_with. intros H.
  destruct H as [e [Hc Hec]].
  - exists (Staged Inputs.removed_b "" REMOVE). split; [left; reflexivity | reflexivity].
  - vm_compute in Hc. inversion Hc; subst e. discriminate Hec.
Qed.

(** ** remove after an insert of the same document *)

Lemma check_expiry_pre_commit_not_expired {W R} (E : cluster W) (place : stage)
    (k : option string) (cont : bool -> machine W -> R) (m : machine W) :
  not_expired E place k m ->
  check_expiry_pre_commit E place k cont m
  = cont false (Machine (self m) (snd (hook_has_expired_client_side E place k (world m)))
                        (trace m)).
Proof.
  intros [Hover Hhook].
  unfold check_expiry_pre_commit, has_expired_client_side, read, clock, ask.
  simpl. rewrite Hover.
  destruct (hook_has_expired_client_side E place k (world m)) as [h w] eqn:Hh.
  simpl in *. subst h. reflexivity.
Qed.

(** C2, as amended: in an attempt that is neither done nor expired, [remove]
    of a document that the attempt inserted is refused.  The operation
    completes with FAIL_OTHER (rollback allowed, no retry), sends nothing to
    the cluster, and the attempt, its queue included, stays as it was. *)
Theorem remove_of_own_insert_refused {W} (E : cluster W) (fuel : nat)
    (m : machine W) (document : transaction_get_result) (mu : staged_mutation) :
  is_done_ (self m) = false ->
  not_expired E STAGE_REMOVE (Some (key (doc_id document))) m ->
  In mu (staged_mutations_ (self m)) ->
  doc_id (sm_doc mu) = doc_id document ->
  sm_type mu = INSERT ->
  remove E fuel document m
  = Machine (self m)
      (snd (hook_has_expired_client_side E STAGE_REMOVE
              (Some (key (doc_id document))) (world m)))
      (trace m ++ [ev_error (operation_failed FAIL_OTHER)]).
Proof.
  intros Hdone Hexp Hin Hid Hty.
  pose proof (find_any_in INSERT _ _ _ Hin Hid Hty) as Hfind.
  unfold remove, cache_error_async.
  rewrite then_apply, check_if_done_not_done by exact Hdone.
  rewrite check_expiry_pre_commit_not_expired by exact Hexp.
  unfold read. simpl.
  destruct (find_insert (staged_mutations_ (self m)) (doc_id document)) eqn:Hf.
  - reflexivity.
  - exfalso. apply Hfind. exact Hf.
Qed.

Lemma remove_of_own_insert_refused_witness :
  remove Sim.the_cluster 5 Inputs.inserted_b Inputs.after_insert_b
  = Machine (self Inputs.after_insert_b) (world Inputs.after_insert_b)
      [ev_error (operation_failed FAIL_OTHER)].
Proof.
  apply (remove_of_own_insert_refused Sim.the_cluster 5 Inputs.after_insert_b
           Inputs.inserted_b (Staged Inputs.inserted_b "x" INSERT)).
  - reflexivity.
  - split; reflexivity.
  - simpl. left. reflexivity.
  - reflexivity.
  - reflexivity.
Defined.

(** C2, counterexample: "b" was inserted in this attempt; [remove] does not
    succeed, it completes with a failure, and the INSERT entry stays. *)
Lemma remove_of_own_insert_counterexample :
  ~ remove_of_own_insert_allowed Sim.the_cluster 5 Inputs.after_insert_b Inputs.inserted_b.
Proof.
  unfold remove_of_own_insert_allowed. intros H.
  destruct H as [Hc _].
  - vm_compute. discriminate.
  - vm_compute in Hc. discriminate Hc.
Qed.

(** ** The runner *)

(** C1, at the failing input and at every other: when the body fails, with
    whatever failure [e] (one that asks for a retry, is not expired and
    allows rollback included) and however much of the budget is left, [run]
    lets the failure out.  The body has run once, on the one attempt of the
    transaction; no second attempt is made. *)
Theorem run_makes_one_attempt {W} (E : cluster W) (fuel : nat)
    (config : transaction_config) (e : transaction_operation_failed) (w : W) :
  let r := run E fuel config (throw_failed e) w in
  fst r = thrown (operation_failed_exn e)
  /\ List.length (attempts (overall_ (self (snd r)))) = 1%nat
  /\ List.length (List.filter is_logic (trace (snd r))) = 1%nat.
Proof.
  unfold run, run_steps, new_transaction_context, new_attempt.
  destruct (next_uid E w) as [tid w1].
  destruct (next_uid E w1) as [aid w2].
  unfold mbind, blocking_bind, read, then_, emit, throw_failed, throw. simpl.
  repeat split; reflexivity.
Qed.

(** The body runs on a fresh attempt, and an attempt that the body did not
    finish is committed. *)
Lemma run_commits_when_not_done {W} (E : cluster W) (fuel : nat)
    (config : transaction_config) (w : W) :
  let m := new_transaction_context E (fun overall => new_attempt E overall config) w in
  staged_mutations_ (self m) = [] /\ is_done_ (self m) = false
  /\ atr_id_ (self m) = None /\ state (self m) = NOT_STARTED
  /\ fst (run E fuel config (ret tt) w)
     = match commit E fuel (Machine (self m) (world m) [ev_logic (id (self m))]) with
       | (returned _, m') =>
           let overall := overall_ (self m') in
           returned (Result (transaction_id overall) (ctx_atr_id overall)
                            (ctx_atr_collection overall) (attempts overall)
                            (bool_decide (attempt_state_of (current_attempt overall)
                                          = COMPLETED)))
       | (thrown e, _) => thrown e
       | (out_of_fuel, _) => out_of_fuel
       end.
Proof.
  unfold run, run_steps, new_transaction_context, new_attempt.
  destruct (next_uid E w) as [tid w1].
  destruct (next_uid E w1) as [aid w2].
  unfold state, id, current_attempt. simpl.
  repeat split; try reflexivity.
  unfold mbind, blocking_bind, read, then_, emit, ret. simpl.
  destruct (commit E fuel _) as [[u | e |] m']; reflexivity.
Qed.

(** ** Commit ambiguity *)

(** What the resolution read decides, for every status the entry can show
    and for a missing entry: only COMPLETED ends the commit well; ABORTED,
    ROLLED_BACK and a missing entry raise FAIL_OTHER marked no-rollback;
    every other status, COMMITTED included, asks for the ATR-COMMIT write
    to be made again. *)
Lemma ambiguity_resolution_by_status (st : attempt_state) :
  fst (atr_commit_ambiguity_resolution Sim.the_cluster (Inputs.committing [] st))
  = match st with
    | COMPLETED => returned tt
    | ABORTED | ROLLED_BACK =>
        thrown (operation_failed_exn (no_rollback (operation_failed FAIL_OTHER)))
    | NOT_STARTED | PENDING | COMMITTED => thrown retry_atr_commit
    end
  /\ fst (atr_commit_ambiguity_resolution Sim.the_cluster
            (Machine (Sim.attempt false [])
                     (Sim.Sim 1000 ∅ (<[Sim.doc "_txn:atr-1" := Atr []]> ∅) [] 100 []) []))
     = thrown (operation_failed_exn (no_rollback (operation_failed FAIL_OTHER))).
Proof.
  split; [destruct st |]; vm_compute; reflexivity.
Qed.

(** C3, at the failing input: the ATR-COMMIT write ends with
    FAIL_AMBIGUOUS and the entry reads COMMITTED.  [atr_commit] does not
    return: it reads the status once and asks for a retry, and [commit]
    sends the ATR-COMMIT write a second time.  When that second write fails
    with FAIL_TRANSIENT, [commit] fails with a retryable failure although
    the ATR shows the attempt committed. *)
Theorem ambiguous_commit_reading_committed_is_retried :
  let a := Sim.attempt false [Staged Inputs.inserted_b "x" INSERT] in
  let atr := Sim.doc "_txn:atr-1" in
  let write :=
    ev_mutate_in (extract_to (atr_prefix (id a)) (staged_mutations_ a)
                    (atr_commit_request a atr)) in
  let read_status := ev_lookup_in (atr_status_request a atr) in
  let r1 := atr_commit Sim.the_cluster 5
              (Inputs.committing [Some FAIL_AMBIGUOUS] COMMITTED) in
  let r2 := commit Sim.the_cluster 5
              (Inputs.committing [Some FAIL_AMBIGUOUS; Some FAIL_TRANSIENT] COMMITTED) in
  fst r1 = thrown retry_operation
  /\ trace (snd r1) = [write; read_status]
  /\ fst r2 = thrown (operation_failed_exn (retry (operation_failed FAIL_TRANSIENT)))
  /\ trace (snd r2) = [write; read_status; write].
Proof.
  repeat split; vm_compute; reflexivity.
Qed.

(** ** Taking an attempt out of the ATR *)

Lemma append_empty_r (s : string) : s +:+ "" = s.
Proof.
  induction s as [| c s IH]; [reflexivity |].
  change (String c s +:+ "") with (String c (s +:+ "")). by rewrite IH.
Qed.

Lemma append_cons_assoc (acc : string) (c : ascii) (rest : string) :
  (acc +:+ String c "") +:+ rest = acc +:+ String c rest.
Proof.
  induction acc as [| d acc IH]; [reflexivity |].
  change ((String d acc +:+ String c "") +:+ rest)
    with (String d ((acc +:+ String c "") +:+ rest)).
  change (String d acc +:+ String c rest) with (String d (acc +:+ String c rest)).
  by rewrite IH.
Qed.

Lemma split_path_aux_no_dot (s acc : string) :
  no_dot s -> split_path_aux acc s = [acc +:+ s].
Proof.
  revert acc. induction s as [| c s IH]; intros acc Hs; cbn [split_path_aux].
  - by rewrite append_empty_r.
  - destruct (decide (c = "."%char)) as [-> | _].
    + exfalso. apply (Hs "."%char); [left; reflexivity | reflexivity].
    + rewrite IH.
      * by rewrite append_cons_assoc.
      * intros d Hd. apply Hs. right. exact Hd.
Qed.

Lemma split_path_attempt (s : string) :
  no_dot s -> split_path (ATR_FIELD_ATTEMPTS +:+ "." +:+ s) = [ATR_FIELD_ATTEMPTS; s].
Proof.
  intros Hs. unfold split_path, ATR_FIELD_ATTEMPTS. simpl.
  by rewrite split_path_aux_no_dot.
Qed.

(** The request of [atr_complete] and of [atr_rollback_complete] removes
    the entry of the attempt and leaves the entry of every other attempt as
    it was. *)
Lemma atr_remove_request_frame (a : attempt_context_impl) (atr : document_id)
    (cas0 : Z) (root atts : gmap string json) (e : json) (other : string) :
  no_dot (id a) ->
  root !! ATR_FIELD_ATTEMPTS = Some (JObj atts) ->
  atts !! id a = Some e ->
  other <> id a ->
  exists x,
    apply_specs cas0 (mreq_specs (atr_remove_request a atr)) (JObj root) = Some x
    /\ atr_entry_of (id a) x = None
    /\ atr_entry_of other x = atr_entry_of other (JObj root).
Proof.
  intros Hdot Hroot He Hother.
  exists (JObj (<[ATR_FIELD_ATTEMPTS := JObj (delete (id a) atts)]> root)).
  unfold atr_remove_request, wrap_durable_request, with_specs, add_spec3,
    mutate_in_request_for.
  cbn [mreq_specs app apply_specs]. unfold apply_spec.
  cbn [spec_xattr spec_opcode spec_path]. rewrite split_path_attempt by exact Hdot.
  unfold atr_entry_of. cbn [json_remove json_get]. rewrite Hroot, He.
  rewrite !lookup_insert_eq.
  rewrite lookup_delete_eq, lookup_delete_ne by congruence.
  repeat split; reflexivity.
Qed.

(** The request of [cleanup_entry] puts an empty object in the place of
    the whole [attempts] tree, whatever it holds. *)
Lemma cleanup_entry_request_empties (e : atr_cleanup_entry) (cas0 : Z)
    (root : gmap string json) (atts : json) (any : string) :
  root !! ATR_FIELD_ATTEMPTS = Some atts ->
  exists x,
    apply_specs cas0 (mreq_specs (cleanup_entry_request e)) (JObj root) = Some x
    /\ atr_entry_of any x = None.
Proof.
  intros Hroot.
  exists (JObj (<[ATR_FIELD_ATTEMPTS := JObj ∅]> root)).
  assert (Hpath : split_path "attempts" = [ATR_FIELD_ATTEMPTS]) by (vm_compute; reflexivity).
  unfold cleanup_entry_request, wrap_durable_request, with_specs, mutate_in_request_for.
  cbn [mreq_specs app apply_specs]. unfold apply_spec, expand.
  cbn [spec_xattr spec_opcode spec_path spec_expand_macro spec_value].
  rewrite Hpath. unfold atr_entry_of. cbn [json_replace json_get].
  rewrite Hroot. rewrite lookup_insert_eq. rewrite lookup_empty. split; reflexivity.
Qed.

(** C9, at the failing input: the ATR holds the entries of "attempt-1" and
    "attempt-2", and the cleanup removes "attempt-1".  The one request
    [cleanup_entry] sends replaces the [attempts] tree by an empty object,
    so the entry of "attempt-2" is gone as well. *)
Theorem cleanup_entry_drops_other_attempts :
  let sent := cleanup_entry Sim.the_cluster Inputs.cleaner_1
                (Machine Sim.fresh_attempt Sim.empty_world []) in
  let after := apply_specs 5 (mreq_specs (cleanup_entry_request Inputs.cleaner_1))
                 Inputs.two_attempts in
  trace (snd sent) = [ev_mutate_in (cleanup_entry_request Inputs.cleaner_1)]
  /\ atr_entry_of "attempt-2" Inputs.two_attempts = Some (Inputs.entry_json "PENDING")
  /\ after = Some (JObj (<[ATR_FIELD_ATTEMPTS := JObj ∅]> ∅))
  /\ (after ≫= atr_entry_of "attempt-2") = None.
Proof.
  repeat split; vm_compute; reflexivity.
Qed.

(** ** The ATR of an attempt *)

Lemma error_if_expired_not_expired {W R} (E : cluster W) (place : stage)
    (k : option string) (cont : option error_class -> machine W -> R) (m : machine W) :
  expiry_overtime_mode_ (self m) = false ->
  not_expired E place k m ->
  error_if_expired_and_not_in_overtime E place k cont m
  = cont None (Machine (self m) (snd (hook_has_expired_client_side E place k (world m)))
                       (trace m)).
Proof.
  intros Hover [Hclock Hhook].
  unfold error_if_expired_and_not_in_overtime, has_expired_client_side, read, clock, ask.
  rewrite Hover. simpl. rewrite Hclock.
  destruct (hook_has_expired_client_side E place k (world m)) as [h w] eqn:Hh.
  simpl in *. subst h. reflexivity.
Qed.

(** The ATR-PENDING request of [set_atr_pending_locked] is addressed to the
    ATR; it adds the status PENDING, the start timestamp as the CAS macro
    for the server to expand, and the configured expiration in
    milliseconds. *)
Lemma atr_pending_request_shape (a : attempt_context_impl) (atr : document_id) :
  let req := atr_pending_request a atr in
  let prefix := atr_prefix (id a) in
  mreq_id req = atr
  /\ In (Spec op_dict_add true true false (prefix +:+ ATR_FIELD_STATUS) (JStr "PENDING"))
        (mreq_specs req)
  /\ In (Spec op_dict_add true true true (prefix +:+ ATR_FIELD_START_TIMESTAMP)
              mutate_in_macro_CAS) (mreq_specs req)
  /\ In (Spec op_dict_add true true false (prefix +:+ ATR_FIELD_EXPIRES_AFTER_MSECS)
              (JNum (to_millis (expiration_time (config_ a))))) (mreq_specs req).
Proof.
  unfold atr_pending_request, wrap_durable_request, with_store_semantics, with_specs,
    mutate_in_request_for. cbn [mreq_id mreq_specs app].
  repeat split; cbn [In]; auto.
Qed.

(** The first mutation of an attempt that is neither expired nor in
    overtime sends that request, and a FAIL_PATH_ALREADY_EXISTS answer
    counts as success: the mutation goes on with no failure. *)
Lemma set_atr_pending_locked_path_exists {W} (E : cluster W) (fuel : nat)
    (doc atr : document_id) (fn : option transaction_operation_failed -> action W)
    (m : machine W) :
  staged_mutations_ (self m) = [] ->
  atr_id_ (self m) = Some atr ->
  expiry_overtime_mode_ (self m) = false ->
  not_expired E STAGE_ATR_PENDING None m ->
  let w1 := snd (hook_has_expired_client_side E STAGE_ATR_PENDING None (world m)) in
  let req := atr_pending_request (self m) atr in
  fst (hook E before_atr_pending None w1) = None ->
  let w2 := snd (hook E before_atr_pending None w1) in
  mresp_ec (fst (execute_mutate_in E req w2)) = Some FAIL_PATH_ALREADY_EXISTS ->
  set_atr_pending_locked E (S fuel) doc fn m
  = fn None (Machine (self m) (snd (execute_mutate_in E req w2))
                     (trace m ++ [ev_mutate_in req])).
Proof.
  intros Hq Hatr Hover Hexp w1 req Hhook w2 Hresp.
  cbn [set_atr_pending_locked]. unfold read at 1. rewrite Hq. cbn [queue_empty].
  unfold read at 1. rewrite Hatr.
  rewrite error_if_expired_not_expired by assumption.
  fold w1. unfold call_hook at 1, ask at 1. cbn [world self trace].
  destruct (hook E before_atr_pending None w1) as [h w2'] eqn:Hh.
  cbn [fst snd] in *. subst h. subst w2.
  unfold read at 1. cbn [self]. fold req.
  unfold execute_mutate, then_, emit, ask. cbn [world self trace].
  destruct (execute_mutate_in E req w2') as [resp w3] eqn:Hr.
  cbn [fst snd] in *. rewrite Hresp.
  unfold read. cbn [self]. rewrite Hover. reflexivity.
Qed.

(** The first mutation selects the ATR of the document's vbucket, in the
    default scope and collection of the document's bucket, and records it
    on the transaction context. *)
Lemma select_atr_if_needed_unlocked_first {W} (E : cluster W) (fuel : nat)
    (doc : document_id) (cb : option transaction_operation_failed -> action W)
    (m : machine W) :
  atr_id_ (self m) = None ->
  fst (hook_random_atr_id_for_vbucket E (world m)) = None ->
  let atr_key := atr_id_for_vbucket E (vbucket_for_key E (key doc)) in
  exists a,
    atr_id_ a = Some (DocId (bucket doc) "_default" "_default" atr_key)
    /\ ctx_atr_id (overall_ a) = atr_key
    /\ staged_mutations_ a = staged_mutations_ (self m)
    /\ select_atr_if_needed_unlocked E fuel doc cb m
       = set_atr_pending_locked E fuel doc cb
           (Machine a (snd (hook_random_atr_id_for_vbucket E (world m))) (trace m)).
Proof.
  intros Hnone Hhook atr_key.
  unfold select_atr_if_needed_unlocked, read, ask. rewrite Hnone.
  destruct (hook_random_atr_id_for_vbucket E (world m)) as [h w1].
  cbn [fst snd] in *. subst h.
  unfold then_, modify. cbn [self world trace].
  set (a1 := set_atr_id_ (Some (DocId (bucket doc) "_default" "_default" atr_key)) (self m)).
  exists (set_state NOT_STARTED
            (set_overall (set_ctx_atr (collection_spec_from_id doc) atr_key (overall_ a1)) a1)).
  repeat split; reflexivity.
Qed.

(** Once the ATR is selected, [select_atr_if_needed_unlocked] changes
    nothing. *)
Lemma select_atr_if_needed_unlocked_frozen {W} (E : cluster W) (fuel : nat)
    (doc atr : document_id) (cb : option transaction_operation_failed -> action W)
    (m : machine W) :
  atr_id_ (self m) = Some atr ->
  select_atr_if_needed_unlocked E fuel doc cb m = cb None m.
Proof.
  intros Hatr. unfold select_atr_if_needed_unlocked, read. rewrite Hatr. reflexivity.
Qed.

Section KeepsAtr.
Context {W : Type} (E : cluster W).

Lemma keeps_skip : keeps_atr (skip (W := W)).
Proof. intros m x H. exact H. Qed.

Lemma keeps_emit (e : event) : keeps_atr (emit (W := W) e).
Proof. intros m x H. exact H. Qed.

Lemma keeps_then (a b : action W) : keeps_atr a -> keeps_atr b -> keeps_atr (then_ a b).
Proof. intros Ha Hb m x H. unfold then_. apply Hb, Ha, H. Qed.

Lemma keeps_read {A} (f : attempt_context_impl -> A) (k : A -> action W) :
  (forall v, keeps_atr (k v)) -> keeps_atr (read f k).
Proof. intros Hk m x H. unfold read. apply Hk, H. Qed.

Lemma keeps_ask {A} (f : W -> A * W) (k : A -> action W) :
  (forall v, keeps_atr (k v)) -> keeps_atr (ask f k).
Proof.
  intros Hk m x H. unfold ask. destruct (f (world m)) as [v w]. apply Hk. exact H.
Qed.

Lemma keeps_clock (k : Z -> action W) :
  (forall v, keeps_atr (k v)) -> keeps_atr (clock E k).
Proof. intros Hk m x H. unfold clock. apply Hk, H. Qed.

Lemma keeps_modify (f : attempt_context_impl -> attempt_context_impl) :
  (forall a, atr_id_ (f a) = atr_id_ a) -> keeps_atr (modify (W := W) f).
Proof. intros Hf m x H. unfold modify. simpl. rewrite Hf. exact H. Qed.

Lemma keeps_value {A} (o : option A) (k : A -> action W) :
  (forall v, keeps_atr (k v)) -> keeps_atr (value o k).
Proof. intros Hk. destruct o; [apply Hk | apply keeps_emit]. Qed.

Lemma keeps_select (fuel : nat) (doc : document_id)
    (cb : option transaction_operation_failed -> action W) :
  (forall v, keeps_atr (cb v)) -> keeps_atr (select_atr_if_needed_unlocked E fuel doc cb).
Proof.
  intros Hcb m x H.
  rewrite (select_atr_if_needed_unlocked_frozen E fuel doc x cb m H). apply Hcb, H.
Qed.

End KeepsAtr.

Ltac keeps_step :=
  match goal with
  | |- keeps_atr skip => apply keeps_skip
  | |- keeps_atr (emit _) => apply keeps_emit
  | |- keeps_atr (then_ _ _) => apply keeps_then
  | |- keeps_atr (select_atr_if_needed_unlocked _ _ _ _) => apply keeps_select; intros
  | |- keeps_atr (read _ _) => apply keeps_read; intros
  | |- keeps_atr (ask _ _) => apply keeps_ask; intros
  | |- keeps_atr (clock _ _) => apply keeps_clock; intros
  | |- keeps_atr (value _ _) => apply keeps_value; intros
  | |- keeps_atr (modify _) => apply keeps_modify; intros; reflexivity
  | |- keeps_atr (match ?x with _ => _ end) => destruct x
  | H : forall _, keeps_atr (?f _) |- keeps_atr (?f _) => apply H
  | H : keeps_atr ?a |- keeps_atr ?a => exact H
  end.

Ltac keeps :=
  repeat first
    [ keeps_step
    | progress unfold op_completed_with_error, op_completed_with_callback,
        op_completed_with_void_callback, cache_error_async, call_hook,
        execute_mutate, execute_lookup, fetch_atr, delay, check_if_done,
        has_expired_client_side, check_expiry_pre_commit,
        error_if_expired_and_not_in_overtime, staging_error_handler,
        remove_error_handler, found_doc_error_handler, get_error,
        after_do_get ].

Lemma keeps_check_atr_entry {W} (E : cluster W) (fuel : nat)
    (doc : transaction_get_result)
    (cb : option transaction_operation_failed -> action W) :
  (forall v, keeps_atr (cb v)) ->
  keeps_atr (check_atr_entry_for_blocking_document E fuel doc cb).
Proof.
  intros Hcb. induction fuel as [| fuel IH];
    cbn [check_atr_entry_for_blocking_document]; keeps.
Qed.

Lemma keeps_check_and_handle {W} (E : cluster W) (fuel : nat)
    (doc : transaction_get_result) (stg : forward_compat_stage)
    (cb : option transaction_operation_failed -> action W) :
  (forall v, keeps_atr (cb v)) ->
  keeps_atr (check_and_handle_blocking_transactions E fuel doc stg cb).
Proof.
  intros Hcb. unfold check_and_handle_blocking_transactions.
  keeps; apply keeps_check_atr_entry; exact Hcb.
Qed.

Lemma keeps_get_doc {W} (E : cluster W) (doc : document_id)
    (cb : option error_class -> option transaction_get_result -> action W) :
  (forall e r, keeps_atr (cb e r)) -> keeps_atr (get_doc E doc cb).
Proof. intros Hcb. unfold get_doc. keeps; apply Hcb. Qed.

Ltac keeps_more :=
  repeat first
    [ progress keeps
    | match goal with
      | |- keeps_atr (get_doc _ _ _) => apply keeps_get_doc; intros
      | |- keeps_atr (check_and_handle_blocking_transactions _ _ _ _ _) =>
          apply keeps_check_and_handle; intros
      end ].

Lemma keeps_create_staged_insert {W} (E : cluster W) (fuel : nat)
    (doc : document_id) (content : string) (cas0 : Z) :
  keeps_atr (create_staged_insert E fuel doc content cas0).
Proof.
  revert cas0. induction fuel as [| fuel IH]; intros cas0;
    cbn [create_staged_insert]; [keeps |].
  assert (Hh : forall ec,
            keeps_atr (create_staged_insert_error_handler E fuel
                         (fun cas' => create_staged_insert E fuel doc content cas')
                         doc cas0 ec)).
  { intros ec. unfold create_staged_insert_error_handler. keeps_more; apply IH. }
  keeps; apply Hh.
Qed.

(** The selection is frozen: [insert], [replace] and [remove] leave a
    selected ATR as it is. *)
Lemma mutations_keep_the_atr {W} (E : cluster W) (fuel : nat)
    (document : transaction_get_result) (doc : document_id) (content : string) :
  keeps_atr (insert_raw E fuel doc content)
  /\ keeps_atr (replace_raw E fuel document content)
  /\ keeps_atr (remove E fuel document).
Proof.
  repeat split.
  - unfold insert_raw. keeps. apply keeps_create_staged_insert.
  - unfold replace_raw. keeps_more.
  - unfold remove. keeps_more.
Qed.

(** ** The first-generation attempt context *)

(** C6, at the failing input: the first mutation of a new attempt.  The
    test in [init_atr_if_needed] is the wrong way round: an attempt without
    an ATR selects none and stays NOT_STARTED, and [replace] then fails on
    the empty optional before it sends anything; an attempt that has an ATR
    selects again, from the key of whichever document is mutated next. *)
Theorem legacy_first_mutation_selects_no_atr {W}
    (mutate_in : Legacy.request -> W -> Legacy.result * W)
    (vbucket_for_key : string -> nat) (atr_id_for_vbucket : nat -> string)
    (collection : Legacy.collection_ref) (uid doc next old : string)
    (content : json) (w : W) :
  let fresh := Legacy.new_attempt_context uid in
  let selected := Legacy.LAttempt uid (Some old) (Some collection) PENDING false [] in
  Legacy.init_atr_if_needed vbucket_for_key atr_id_for_vbucket collection doc fresh
  = fresh
  /\ Legacy.atr_id_ fresh = None
  /\ Legacy.replace mutate_in vbucket_for_key atr_id_for_vbucket collection doc content
       (Legacy.St fresh w [])
     = (thrown bad_optional_access, Legacy.St fresh w [])
  /\ Legacy.atr_id_
       (Legacy.init_atr_if_needed vbucket_for_key atr_id_for_vbucket collection next
          selected)
     = Some (atr_id_for_vbucket (vbucket_for_key next)).
Proof.
  repeat split; reflexivity.
Qed.

(** C5, at the failing input: [insert] as the first mutation of a new
    attempt.  The one request it sends before it fails is the ATR-PENDING
    write, and that write is addressed to the key of the inserted document;
    it records 15 as the expiry, whatever the attempt is configured with,
    and overwrites the body of the document with an empty object. *)
Theorem legacy_insert_writes_pending_to_the_document {W}
    (mutate_in : Legacy.request -> W -> Legacy.result * W)
    (vbucket_for_key : string -> nat) (atr_id_for_vbucket : nat -> string)
    (collection : Legacy.collection_ref) (uid doc : string) (content : json) (w : W) :
  let fresh := Legacy.new_attempt_context uid in
  let r := Legacy.insert mutate_in vbucket_for_key atr_id_for_vbucket collection doc
             content (Legacy.St fresh w []) in
  let prefix := ATR_FIELD_ATTEMPTS +:+ "." +:+ uid +:+ "." in
  Legacy.sent (snd r) = [Legacy.Req collection doc (Legacy.pending_specs fresh)]
  /\ In (Legacy.with_xattr
           (Legacy.insert_spec (prefix +:+ ATR_FIELD_EXPIRES_AFTER_MSECS) (JNum 15)))
        (Legacy.pending_specs fresh)
  /\ In (Legacy.fulldoc_upsert (JObj ∅)) (Legacy.pending_specs fresh)
  /\ fst r = thrown bad_optional_access.
Proof.
  unfold Legacy.insert, Legacy.init_atr_if_needed, Legacy.send, Legacy.atr_id_value.
  cbn [Legacy.new_attempt_context Legacy.atr_id_ Legacy.this Legacy.set_this
       Legacy.no_staged Legacy.staged_mutations_ Legacy.world Legacy.sent].
  destruct (mutate_in _ w) as [res w1]. cbn [snd fst Legacy.this Legacy.atr_id_ Legacy.sent app].
  repeat split; try reflexivity; cbn [Legacy.pending_specs In]; auto.
Qed.

(** ** Cleanup of the documents of an attempt *)

Section CleanupVisits.
Context {W : Type} (E : cluster W) (e : atr_cleanup_entry).


Lemma touches_result (id : document_id) (ec : option error_class) (m : machine W) :
  fst (throw_if ec (ret tt) m) = returned tt
  \/ exists ex, fst (throw_if ec (ret tt) m) = thrown ex.
Proof. destruct ec; cbn; eauto. Qed.
















End CleanupVisits.


(** ** get *)





(** * Further properties of the operations, the cleanup and the queue *)

(** ** What no operation changes *)

Section Preserves.
Context {W : Type} (E : cluster W).
Context (P : attempt_context_impl -> Prop) (HP : setter_closed P).

#[local] Abbreviation act := (fun x : machine W => x).

Lemma preserves_skip : preserves act P (skip (W := W)).
Proof. intros m H. exact H. Qed.

Lemma preserves_emit (e : event) : preserves act P (emit (W := W) e).
Proof. intros m H. exact H. Qed.

Lemma preserves_modify (f : attempt_context_impl -> attempt_context_impl) :
  (forall a, P a -> P (f a)) -> preserves act P (modify (W := W) f).
Proof. intros Hf m H. apply Hf, H. Qed.

Section Answer.
Context {R : Type} (proj : R -> machine W).

Lemma preserves_then (a : action W) (b : machine W -> R) :
  preserves act P a -> preserves proj P b -> preserves proj P (then_ a b).
Proof. intros Ha Hb m H. unfold then_. apply Hb, Ha, H. Qed.

Lemma preserves_read {A} (f : attempt_context_impl -> A) (k : A -> machine W -> R) :
  (forall v, preserves proj P (k v)) -> preserves proj P (read f k).
Proof. intros Hk m H. unfold read. apply Hk, H. Qed.

Lemma preserves_ask {A} (f : W -> A * W) (k : A -> machine W -> R) :
  (forall v, preserves proj P (k v)) -> preserves proj P (ask f k).
Proof.
  intros Hk m H. unfold ask. destruct (f (world m)) as [v w]. apply Hk. exact H.
Qed.

Lemma preserves_clock (k : Z -> machine W -> R) :
  (forall v, preserves proj P (k v)) -> preserves proj P (clock E k).
Proof. intros Hk m H. unfold clock. apply Hk, H. Qed.

End Answer.

Lemma preserves_value {A} (o : option A) (k : A -> action W) :
  (forall v, preserves act P (k v)) -> preserves act P (value o k).
Proof. intros Hk. destruct o; [apply Hk | apply preserves_emit]. Qed.

#[local] Abbreviation blk := (@snd _ (machine W)).

Lemma preserves_ret {A} (a : A) : preserves blk P (ret (W := W) a).
Proof. intros m H. exact H. Qed.

Lemma preserves_throw {A} (e : exn) : preserves blk P (throw (W := W) (A := A) e).
Proof. intros m H. exact H. Qed.

Lemma preserves_out_of_fuel {A} :
  preserves blk P (fun m : machine W => (@out_of_fuel A, m)).
Proof. intros m H. exact H. Qed.

Lemma preserves_lift (a : action W) : preserves act P a -> preserves blk P (lift a).
Proof. intros Ha m H. unfold lift. simpl. apply Ha, H. Qed.

Lemma preserves_bind {A B} (c : blocking W A) (k : A -> blocking W B) :
  preserves blk P c -> (forall a, preserves blk P (k a)) ->
  preserves blk P (blocking_bind A B k c).
Proof.
  intros Hc Hk m H. unfold blocking_bind.
  specialize (Hc m H). destruct (c m) as [[a | e |] m']; simpl in *.
  - apply Hk, Hc.
  - exact Hc.
  - exact Hc.
Qed.

Lemma preserves_try_catch {A} (c : blocking W A) (h : exn -> blocking W A) :
  preserves blk P c -> (forall e, preserves blk P (h e)) ->
  preserves blk P (try_catch c h).
Proof.
  intros Hc Hh m H. unfold try_catch.
  specialize (Hc m H). destruct (c m) as [[a | e |] m']; simpl in *.
  - exact Hc.
  - apply Hh, Hc.
  - exact Hc.
Qed.

End Preserves.

Ltac pres_modify HP :=
  apply preserves_modify; intros ? ?; cbv beta;
  first [ apply (closed_overtime _ HP) | apply (closed_state _ HP)
        | apply (closed_done _ HP) | apply (closed_queue _ HP)
        | apply (closed_atr _ HP) | apply (closed_overall _ HP) ];
  assumption.

Ltac pres_step HP :=
  match goal with
  | |- preserves _ _ skip => apply preserves_skip
  | |- preserves _ _ (emit _) => apply preserves_emit
  | |- preserves _ _ (then_ _ _) => apply preserves_then
  | |- preserves _ _ (read _ _) => apply preserves_read; intros
  | |- preserves _ _ (ask _ _) => apply preserves_ask; intros
  | |- preserves _ _ (clock _ _) => apply preserves_clock; intros
  | |- preserves _ _ (value _ _) => apply preserves_value; intros
  | |- preserves _ _ (modify _) => pres_modify HP
  | |- preserves _ _ (ret _) => apply preserves_ret
  | |- preserves _ _ (throw _) => apply preserves_throw
  | |- preserves _ _ (lift _) => apply preserves_lift
  | |- preserves _ _ (blocking_bind _ _ _ _) => apply preserves_bind; intros
  | |- preserves _ _ (try_catch _ _) => apply preserves_try_catch; intros
  | |- preserves _ _ (fun m => (out_of_fuel, m)) => apply preserves_out_of_fuel
  | |- preserves _ _ (match ?x with _ => _ end) => destruct x
  | H : forall _, preserves _ _ (?f _) |- preserves _ _ (?f _) => apply H
  | H : preserves _ _ ?a |- preserves _ _ ?a => exact H
  end.

Ltac pres HP :=
  repeat first
    [ pres_step HP
    | progress unfold op_completed_with_error, op_completed_with_callback,
        op_completed_with_void_callback, cache_error_async, call_hook,
        execute_mutate, execute_lookup, fetch_atr, delay, check_if_done,
        has_expired_client_side, check_expiry_pre_commit,
        error_if_expired_and_not_in_overtime,
        check_expiry_during_commit_or_rollback, staging_error_handler,
        remove_error_handler, found_doc_error_handler, get_error,
        after_do_get, throw_failed, throw_if, run_queue, mbind ].

Section PreservedByTheEngine.
Context {W : Type} (E : cluster W).
Context (P : attempt_context_impl -> Prop) (HP : setter_closed P).

#[local] Abbreviation act := (fun x : machine W => x).
#[local] Abbreviation blk := (@snd _ (machine W)).

Lemma preserves_check_atr_entry (fuel : nat) (doc : transaction_get_result)
    (cb : option transaction_operation_failed -> action W) :
  (forall v, preserves act P (cb v)) ->
  preserves act P (check_atr_entry_for_blocking_document E fuel doc cb).
Proof.
  intros Hcb. induction fuel as [| fuel IH];
    cbn [check_atr_entry_for_blocking_document]; pres HP.
Qed.

Lemma preserves_check_and_handle (fuel : nat) (doc : transaction_get_result)
    (stg : forward_compat_stage)
    (cb : option transaction_operation_failed -> action W) :
  (forall v, preserves act P (cb v)) ->
  preserves act P (check_and_handle_blocking_transactions E fuel doc stg cb).
Proof.
  intros Hcb. unfold check_and_handle_blocking_transactions.
  pres HP; apply preserves_check_atr_entry; exact Hcb.
Qed.

Lemma preserves_get_doc (doc : document_id)
    (cb : option error_class -> option transaction_get_result -> action W) :
  (forall e r, preserves act P (cb e r)) -> preserves act P (get_doc E doc cb).
Proof. intros Hcb. unfold get_doc. pres HP; apply Hcb. Qed.

Lemma preserves_set_atr_pending (fuel : nat) (doc : document_id)
    (fn : option transaction_operation_failed -> action W) :
  (forall v, preserves act P (fn v)) ->
  preserves act P (set_atr_pending_locked E fuel doc fn).
Proof.
  intros Hfn. induction fuel as [| fuel IH]; cbn [set_atr_pending_locked]; pres HP.
Qed.

Lemma preserves_select_atr (fuel : nat) (doc : document_id)
    (cb : option transaction_operation_failed -> action W) :
  (forall v, preserves act P (cb v)) ->
  preserves act P (select_atr_if_needed_unlocked E fuel doc cb).
Proof.
  intros Hcb. unfold select_atr_if_needed_unlocked.
  pres HP; apply preserves_set_atr_pending; exact Hcb.
Qed.

Ltac pres_more HP :=
  repeat first
    [ progress pres HP
    | match goal with
      | |- preserves _ _ (get_doc _ _ _) => apply preserves_get_doc; intros
      | |- preserves _ _ (check_and_handle_blocking_transactions _ _ _ _ _) =>
          apply preserves_check_and_handle; intros
      | |- preserves _ _ (select_atr_if_needed_unlocked _ _ _ _) =>
          apply preserves_select_atr; intros
      end ].

Lemma preserves_do_get (doc : document_id)
    (cb : option error_class -> option transaction_get_result -> action W) :
  (forall e r, preserves act P (cb e r)) -> preserves act P (do_get E doc cb).
Proof.
  intros Hcb. unfold do_get, do_get_with_atr. pres_more HP; apply Hcb.
Qed.

Lemma preserves_create_staged_insert (fuel : nat) (doc : document_id)
    (content : string) (cas0 : Z) :
  preserves act P (create_staged_insert E fuel doc content cas0).
Proof.
  revert cas0. induction fuel as [| fuel IH]; intros cas0;
    cbn [create_staged_insert]; [pres HP |].
  assert (Hh : forall ec,
            preserves act P (create_staged_insert_error_handler E fuel
                               (fun cas' => create_staged_insert E fuel doc content cas')
                               doc cas0 ec)).
  { intros ec. unfold create_staged_insert_error_handler. pres_more HP; apply IH. }
  pres HP; apply Hh.
Qed.

Lemma preserves_retry_op {A} (fuel : nat) (f : blocking W A) :
  preserves blk P f -> preserves blk P (retry_op E fuel f).
Proof.
  intros Hf. induction fuel as [| fuel IH]; cbn [retry_op]; pres HP.
Qed.

Lemma preserves_retry_op_exp {A} (fuel : nat) (f : blocking W A) :
  preserves blk P f -> preserves blk P (retry_op_exp E fuel f).
Proof.
  intros Hf. induction fuel as [| fuel IH]; cbn [retry_op_exp]; pres HP.
Qed.

Lemma preserves_ambiguity_resolution :
  preserves blk P (atr_commit_ambiguity_resolution E).
Proof. unfold atr_commit_ambiguity_resolution. pres HP. Qed.

Lemma preserves_atr_commit (fuel : nat) : preserves blk P (atr_commit E fuel).
Proof.
  unfold atr_commit. pres HP.
  apply preserves_retry_op, preserves_ambiguity_resolution.
Qed.

Lemma preserves_atr_complete : preserves blk P (atr_complete E).
Proof. unfold atr_complete. pres HP. Qed.

Lemma preserves_atr_abort : preserves blk P (atr_abort E).
Proof. unfold atr_abort. pres HP. Qed.

Lemma preserves_atr_rollback_complete : preserves blk P (atr_rollback_complete E).
Proof. unfold atr_rollback_complete. pres HP. Qed.

(** Whatever the engine assigns to the attempt keeps [P]; so does every
    operation of the attempt. *)
Lemma preserves_operations (fuel : nat) (doc : document_id)
    (document : transaction_get_result) (content : string) :
  preserves act P (get E doc)
  /\ preserves act P (get_optional E doc)
  /\ preserves act P (insert_raw E fuel doc content)
  /\ preserves act P (replace_raw E fuel document content)
  /\ preserves act P (remove E fuel document)
  /\ preserves blk P (commit E fuel)
  /\ preserves blk P (rollback E fuel).
Proof.
  repeat split.
  - unfold get. pres HP. apply preserves_do_get. intros. pres HP.
  - unfold get_optional. pres HP. apply preserves_do_get. intros. pres HP.
  - unfold insert_raw. pres_more HP. apply preserves_create_staged_insert.
  - unfold replace_raw. pres_more HP.
  - unfold remove. pres_more HP.
  - unfold commit. pres HP; first
      [ apply preserves_retry_op_exp, preserves_atr_commit
      | apply preserves_atr_complete ].
  - unfold rollback. pres HP; first
      [ apply preserves_retry_op_exp; first
          [ apply preserves_atr_abort | apply preserves_atr_rollback_complete ] ].
Qed.

End PreservedByTheEngine.

Lemma current_attempt_set_current_state (s : attempt_state) (c : transaction_context) :
  attempt_id_of (current_attempt (set_current_state s c))
  = attempt_id_of (current_attempt c)
  /\ List.length (attempts (set_current_state s c)) = List.length (attempts c).
Proof.
  unfold current_attempt, set_current_state. cbn [attempts].
  destruct (attempts c) as [| x l] using rev_ind.
  - split; reflexivity.
  - rewrite rev_app_distr. cbn [rev app]. rewrite rev_involutive.
    rewrite !last_last, !length_app. split; reflexivity.
Qed.

(** Once an attempt is done it stays done, and once it is in
    expiry-overtime mode it stays there: no operation of the attempt resets
    either flag, whatever the cluster answers. *)
Theorem done_and_overtime_are_permanent {W} (E : cluster W) (fuel : nat)
    (doc : document_id) (document : transaction_get_result) (content : string)
    (m : machine W) :
  let after :=
    [ self (get E doc m); self (get_optional E doc m);
      self (insert_raw E fuel doc content m);
      self (replace_raw E fuel document content m);
      self (remove E fuel document m);
      self (snd (commit E fuel m)); self (snd (rollback E fuel m)) ] in
  Forall (fun a =>
            (is_done_ (self m) = true -> is_done_ a = true)
            /\ (expiry_overtime_mode_ (self m) = true -> expiry_overtime_mode_ a = true))
         after.
Proof.
  intros after.
  assert (Hdone : setter_closed (fun a => is_done_ a = true))
    by (split; intros; first [assumption | reflexivity]).
  assert (Hover : setter_closed (fun a => expiry_overtime_mode_ a = true))
    by (split; intros; first [assumption | reflexivity]).
  destruct (preserves_operations E _ Hdone fuel doc document content)
    as (D1 & D2 & D3 & D4 & D5 & D6 & D7).
  destruct (preserves_operations E _ Hover fuel doc document content)
    as (O1 & O2 & O3 & O4 & O5 & O6 & O7).
  subst after. repeat constructor; intros H;
    first [ exact (D1 m H) | exact (D2 m H) | exact (D3 m H) | exact (D4 m H)
          | exact (D5 m H) | exact (D6 m H) | exact (D7 m H)
          | exact (O1 m H) | exact (O2 m H) | exact (O3 m H) | exact (O4 m H)
          | exact (O5 m H) | exact (O6 m H) | exact (O7 m H) ].
Qed.

(** No operation of the attempt changes the transaction it belongs to, its
    own id, its configuration, the start of the transaction's clock or the
    number of attempts of the transaction. *)
Theorem operations_keep_the_identity {W} (E : cluster W) (fuel : nat)
    (doc : document_id) (document : transaction_get_result) (content : string)
    (m : machine W) :
  let same (a : attempt_context_impl) :=
    transaction_id (overall_ a) = transaction_id (overall_ (self m))
    /\ id a = id (self m)
    /\ config_ a = config_ (self m)
    /\ start_time_client (overall_ a) = start_time_client (overall_ (self m))
    /\ num_attempts (overall_ a) = num_attempts (overall_ (self m)) in
  Forall same
    [ self (get E doc m); self (get_optional E doc m);
      self (insert_raw E fuel doc content m);
      self (replace_raw E fuel document content m);
      self (remove E fuel document m);
      self (snd (commit E fuel m)); self (snd (rollback E fuel m)) ].
Proof.
  intros same.
  assert (Hsame : setter_closed same).
  { subst same. split; intros; cbv beta in *; try assumption.
    destruct (current_attempt_set_current_state s (overall_ a)) as [Hid Hlen].
    unfold id, num_attempts in *. cbn [set_state overall_ config_].
    rewrite Hid, Hlen. cbn [set_current_state transaction_id start_time_client].
    assumption. }
  assert (H0 : same (self m)) by (subst same; cbv beta; repeat split; reflexivity).
  destruct (preserves_operations E _ Hsame fuel doc document content)
    as (D1 & D2 & D3 & D4 & D5 & D6 & D7).
  repeat (apply List.Forall_cons); try apply List.Forall_nil;
    first [ exact (D1 m H0) | exact (D2 m H0) | exact (D3 m H0) | exact (D4 m H0)
          | exact (D5 m H0) | exact (D6 m H0) | exact (D7 m H0) ].
Qed.

Lemma done_and_overtime_are_permanent_witness :
  is_done_ (self Inputs.finished) = true
  /\ is_done_ (self (get Sim.the_cluster (Sim.doc "a") Inputs.finished)) = true.
Proof.
  split; [reflexivity |].
  pose proof (done_and_overtime_are_permanent Sim.the_cluster 5 (Sim.doc "a")
                (Sim.plain "a" "{v:1}") "{v:2}" Inputs.finished) as H.
  cbv zeta in H. apply Forall_cons in H as [[H _] _]. apply H. reflexivity.
Defined.

(** ** What staging never writes *)

Section Emits.
Context {W : Type} (E : cluster W) (Q : event -> Prop).

Lemma emits_skip : emits Q (skip (W := W)).
Proof. intros m. exists []. split; [symmetry; apply app_nil_r | constructor]. Qed.

Lemma emits_emit (e : event) : Q e -> emits Q (emit (W := W) e).
Proof. intros He m. exists [e]. split; [reflexivity | repeat constructor; exact He]. Qed.

Lemma emits_modify (f : attempt_context_impl -> attempt_context_impl) :
  emits Q (modify (W := W) f).
Proof. intros m. exists []. split; [symmetry; apply app_nil_r | constructor]. Qed.

Lemma emits_then (a b : action W) : emits Q a -> emits Q b -> emits Q (then_ a b).
Proof.
  intros Ha Hb m. unfold then_.
  destruct (Ha m) as (l1 & H1 & Q1). destruct (Hb (a m)) as (l2 & H2 & Q2).
  exists (l1 ++ l2). split.
  - rewrite H2, H1, app_assoc. reflexivity.
  - apply Forall_app. split; assumption.
Qed.

Lemma emits_read {A} (f : attempt_context_impl -> A) (k : A -> action W) :
  (forall a, emits Q (k (f a))) -> emits Q (read f k).
Proof. intros Hk m. unfold read. apply Hk. Qed.

Lemma emits_ask {A} (f : W -> A * W) (k : A -> action W) :
  (forall v, emits Q (k v)) -> emits Q (ask f k).
Proof.
  intros Hk m. unfold ask. destruct (f (world m)) as [v w].
  apply (Hk v (Machine (self m) w (trace m))).
Qed.

Lemma emits_clock (k : Z -> action W) :
  (forall v, emits Q (k v)) -> emits Q (clock E k).
Proof. intros Hk m. unfold clock. apply Hk. Qed.

Lemma emits_value {A} (o : option A) (k : A -> action W) :
  Q (ev_throw bad_optional_access) ->
  (forall v, emits Q (k v)) -> emits Q (value o k).
Proof. intros Hq Hk. destruct o; [apply Hk | apply emits_emit, Hq]. Qed.

End Emits.

Lemma create_staging_request_xattrs (a : attempt_context_impl) (atr : document_id)
    (document : transaction_get_result) (type : string) (content : option string) :
  Forall (fun s => spec_xattr s = true)
         (mreq_specs (create_staging_request a atr document type content)).
Proof.
  unfold create_staging_request, wrap_durable_request, with_specs, metadata_specs.
  cbn [mreq_specs mutate_in_request_for app].
  repeat (apply List.Forall_cons; [reflexivity |]).
  apply Forall_app. split.
  - destruct (metadata document) as [md |]; [| constructor].
    destruct (meta_cas md), (meta_revid md), (meta_exptime md); cbn [app];
      repeat (apply List.Forall_cons; [reflexivity |]); constructor.
  - destruct (bool_decide (type = "remove"));
      repeat (apply List.Forall_cons; [reflexivity |]); constructor.
Qed.

Lemma staged_insert_request_xattrs (a : attempt_context_impl) (doc : document_id)
    (content : string) (cas0 : Z) :
  Forall (fun s => spec_xattr s = true)
         (mreq_specs (staged_insert_request a doc content cas0)).
Proof.
  unfold staged_insert_request. cbn.
  repeat (apply List.Forall_cons; [reflexivity |]). constructor.
Qed.

Lemma atr_pending_request_xattrs (a : attempt_context_impl) (atr : document_id) :
  Forall (fun s => spec_xattr s = true) (mreq_specs (atr_pending_request a atr)).
Proof.
  unfold atr_pending_request. cbn.
  repeat (apply List.Forall_cons; [reflexivity |]). constructor.
Qed.

Ltac xattrs_event :=
  unfold stages_in_xattrs;
  first
    [ exact I
    | cbn [mreq_specs with_access_deleted with_cas with_store_semantics
           with_create_as_deleted];
      first [ apply create_staging_request_xattrs
            | apply staged_insert_request_xattrs
            | apply atr_pending_request_xattrs ] ].

Ltac emits_step :=
  match goal with
  | |- emits _ skip => apply emits_skip
  | |- emits _ (emit _) => apply emits_emit; xattrs_event
  | |- emits _ (then_ _ _) => apply emits_then
  | |- emits _ (read _ _) => apply emits_read; intros; cbv beta
  | |- emits _ (ask _ _) => apply emits_ask; intros
  | |- emits _ (clock _ _) => apply emits_clock; intros
  | |- emits _ (value _ _) => apply emits_value; [exact I | intros]
  | |- emits _ (modify _) => apply emits_modify
  | |- emits _ (match ?x with _ => _ end) => destruct x
  | H : forall _, emits _ (?f _) |- emits _ (?f _) => apply H
  | H : emits _ ?a |- emits _ ?a => exact H
  end.

Ltac emits_all :=
  repeat first
    [ emits_step
    | progress unfold op_completed_with_error, op_completed_with_callback,
        op_completed_with_void_callback, cache_error_async, call_hook,
        execute_mutate, execute_lookup, fetch_atr, delay, check_if_done,
        has_expired_client_side, check_expiry_pre_commit,
        error_if_expired_and_not_in_overtime, staging_error_handler,
        remove_error_handler, found_doc_error_handler, get_error ].

Section StagingWritesXattrs.
Context {W : Type} (E : cluster W).

#[local] Abbreviation Q := stages_in_xattrs.

Lemma emits_check_atr_entry (fuel : nat) (doc : transaction_get_result)
    (cb : option transaction_operation_failed -> action W) :
  (forall v, emits Q (cb v)) ->
  emits Q (check_atr_entry_for_blocking_document E fuel doc cb).
Proof.
  intros Hcb. induction fuel as [| fuel IH];
    cbn [check_atr_entry_for_blocking_document]; emits_all.
Qed.

Lemma emits_check_and_handle (fuel : nat) (doc : transaction_get_result)
    (stg : forward_compat_stage)
    (cb : option transaction_operation_failed -> action W) :
  (forall v, emits Q (cb v)) ->
  emits Q (check_and_handle_blocking_transactions E fuel doc stg cb).
Proof.
  intros Hcb. unfold check_and_handle_blocking_transactions.
  emits_all; apply emits_check_atr_entry; exact Hcb.
Qed.

Lemma emits_get_doc (doc : document_id)
    (cb : option error_class -> option transaction_get_result -> action W) :
  (forall e r, emits Q (cb e r)) -> emits Q (get_doc E doc cb).
Proof. intros Hcb. unfold get_doc. emits_all; apply Hcb. Qed.

Lemma emits_set_atr_pending (fuel : nat) (doc : document_id)
    (fn : option transaction_operation_failed -> action W) :
  (forall v, emits Q (fn v)) ->
  emits Q (set_atr_pending_locked E fuel doc fn).
Proof.
  intros Hfn. induction fuel as [| fuel IH]; cbn [set_atr_pending_locked]; emits_all.
Qed.

Lemma emits_select_atr (fuel : nat) (doc : document_id)
    (cb : option transaction_operation_failed -> action W) :
  (forall v, emits Q (cb v)) ->
  emits Q (select_atr_if_needed_unlocked E fuel doc cb).
Proof.
  intros Hcb. unfold select_atr_if_needed_unlocked.
  emits_all; apply emits_set_atr_pending; exact Hcb.
Qed.

Ltac emits_more :=
  repeat first
    [ progress emits_all
    | match goal with
      | |- emits _ (get_doc _ _ _) => apply emits_get_doc; intros
      | |- emits _ (check_and_handle_blocking_transactions _ _ _ _ _) =>
          apply emits_check_and_handle; intros
      | |- emits _ (select_atr_if_needed_unlocked _ _ _ _) =>
          apply emits_select_atr; intros
      end ].

Lemma emits_create_staged_insert (fuel : nat) (doc : document_id)
    (content : string) (cas0 : Z) :
  emits Q (create_staged_insert E fuel doc content cas0).
Proof.
  revert cas0. induction fuel as [| fuel IH]; intros cas0;
    cbn [create_staged_insert]; [emits_all |].
  assert (Hh : forall ec,
            emits Q (create_staged_insert_error_handler E fuel
                       (fun cas' => create_staged_insert E fuel doc content cas')
                       doc cas0 ec)).
  { intros ec. unfold create_staged_insert_error_handler. emits_more; apply IH. }
  emits_all; apply Hh.
Qed.

Lemma emits_new_events (a : action W) (m : machine W) :
  emits Q a -> Forall Q (new_events a m).
Proof.
  intros Ha. destruct (Ha m) as (l & Hl & HQ).
  unfold new_events. rewrite Hl, drop_app_length. exact HQ.
Qed.

(** Staging leaves the bodies of the documents alone.  Whatever the state
    of the attempt and whatever the cluster and the hooks answer, every
    mutation that [insert], [replace] and [remove] send, the ATR-PENDING
    write included, is a mutate-in whose specs all address extended
    attributes; none of them sends a full-document insert or remove. *)
Theorem staging_writes_extended_attributes_only (fuel : nat) (doc : document_id)
    (document : transaction_get_result) (content : string) (m : machine W) :
  Forall (fun op : action W => Forall stages_in_xattrs (new_events op m))
         [insert_raw E fuel doc content;
          replace_raw E fuel document content;
          remove E fuel document].
Proof.
  repeat (apply List.Forall_cons; [apply emits_new_events |]); [| | | constructor].
  - unfold insert_raw. emits_more. apply emits_create_staged_insert.
  - unfold replace_raw. emits_more.
  - unfold remove. emits_more.
Qed.

End StagingWritesXattrs.

(** ** get and get_optional *)

Ltac trace_suffix :=
  first
    [ exists []; split; [symmetry; apply app_nil_r | reflexivity]
    | eexists; split; [rewrite <- ?app_assoc; cbn [app]; reflexivity | reflexivity] ].

Ltac calls_leaf calls :=
  exists calls; eexists; split;
  [ intros cb; unfold replay; cbn [fold_left fst snd]; reflexivity
  | split;
    [ cbn [self]; first [left; reflexivity | right; reflexivity]
    | split; [cbn [trace]; trace_suffix | cbn [List.length]; lia] ] ].

Lemma do_get_calls {W} (E : cluster W) (doc : document_id) (m : machine W) :
  exists calls m0,
    (forall cb, do_get E doc cb m = replay cb calls m0)
    /\ (self m0 = self m \/ self m0 = set_expiry_overtime_mode_ true (self m))
    /\ (exists l, trace m0 = trace m ++ l /\ forallb is_read l = true)
    /\ (List.length calls <= 2)%nat.
Proof.
  unfold do_get, check_expiry_pre_commit, has_expired_client_side, get_doc,
    do_get_with_atr, call_hook, execute_lookup, fetch_atr, value, clock, read, ask,
    then_, modify, emit.
  destruct m as [a w tr]; cbn [self world trace].
  repeat (cbv beta; cbn [self world trace fst snd];
          match goal with
          | |- context [let '(_, _) := ?x in _] => destruct x eqn:?
          | |- context [match ?x with _ => _ end] => destruct x eqn:?
          end);
  cbv beta; cbn [self world trace fst snd].
  all: first
    [ calls_leaf (@nil (option error_class * option transaction_get_result))
    | eexists [(_, _)]; eexists; split;
      [ intros cb; unfold replay; cbn [fold_left fst snd]; reflexivity
      | split;
        [ cbn [self]; first [left; reflexivity | right; reflexivity]
        | split; [cbn [trace]; trace_suffix | cbn [List.length]; lia] ] ]
    | eexists [(_, _); (_, _)]; eexists; split;
      [ intros cb; unfold replay; cbn [fold_left fst snd]; reflexivity
      | split;
        [ cbn [self]; first [left; reflexivity | right; reflexivity]
        | split; [cbn [trace]; trace_suffix | cbn [List.length]; lia] ] ] ].
Qed.

Section Reads.
Context {W : Type} (E : cluster W).

Lemma get_unfold (doc : document_id) (m : machine W) :
  get E doc m = do_get E doc (get_cb E doc) (check_if_done m).
Proof. reflexivity. Qed.

Lemma get_optional_unfold (doc : document_id) (m : machine W) :
  get_optional E doc m = do_get E doc (get_optional_cb E doc) (check_if_done m).
Proof. reflexivity. Qed.

Lemma completion_pair (doc : document_id) (ec : option error_class)
    (res : option transaction_get_result) (m1 m2 : machine W) :
  self m1 = self m2 -> world m1 = world m2 ->
  exists w e1 e2,
    get_optional_cb E doc ec res m1 = Machine (self m1) w (trace m1 ++ [e1])
    /\ get_cb E doc ec res m2 = Machine (self m2) w (trace m2 ++ [e2])
    /\ same_but_missing e1 e2
    /\ is_completion e1 = true /\ is_completion e2 = true.
Proof.
  intros Hs Hw. destruct m1 as [a1 w1 t1], m2 as [a2 w2 t2]. cbn in Hs, Hw. subst a2 w2.
  unfold get_optional_cb, get_cb, after_do_get, call_hook, ask, get_error,
    op_completed_with_error, op_completed_with_callback, emit.
  repeat (cbv beta; cbn [self world trace fst snd];
          match goal with
          | |- context [let '(_, _) := ?x in _] => destruct x eqn:?
          | |- context [match ?x with _ => _ end] => destruct x eqn:?
          end);
  cbv beta; cbn [self world trace fst snd];
  do 3 eexists; repeat split; cbn; eauto.
Qed.

Lemma replay_pair (doc : document_id)
    (calls : list (option error_class * option transaction_get_result))
    (m1 m2 : machine W) :
  self m1 = self m2 -> world m1 = world m2 ->
  exists w l1 l2,
    replay (get_optional_cb E doc) calls m1 = Machine (self m1) w (trace m1 ++ l1)
    /\ replay (get_cb E doc) calls m2 = Machine (self m2) w (trace m2 ++ l2)
    /\ Forall2 same_but_missing l1 l2
    /\ forallb is_completion l1 = true /\ forallb is_completion l2 = true.
Proof.
  revert m1 m2. induction calls as [| [ec res] calls IH]; intros m1 m2 Hs Hw.
  - exists (world m1), [], []. unfold replay. cbn [fold_left]. rewrite !app_nil_r.
    destruct m1, m2. cbn in *. subst. repeat split; constructor.
  - unfold replay. cbn [fold_left fst snd].
    destruct (completion_pair doc ec res m1 m2 Hs Hw)
      as (w & e1 & e2 & H1 & H2 & Hsame & Hc1 & Hc2).
    rewrite H1, H2.
    destruct (IH (Machine (self m1) w (trace m1 ++ [e1]))
                 (Machine (self m2) w (trace m2 ++ [e2])) Hs eq_refl)
      as (w' & l1 & l2 & R1 & R2 & Hall & Hf1 & Hf2).
    unfold replay in R1, R2. rewrite R1, R2. cbn [self trace].
    exists w', (e1 :: l1), (e2 :: l2). rewrite <- !app_assoc. cbn [app].
    repeat split; [constructor; assumption | |]; cbn [forallb];
      rewrite ?Hc1, ?Hc2; assumption.
Qed.

End Reads.

Lemma check_if_done_effect {W} (m : machine W) :
  exists lc,
    check_if_done m = Machine (self m) (world m) (trace m ++ lc)
    /\ Forall (fun e => exists f, e = ev_error f) lc.
Proof.
  unfold check_if_done, read, op_completed_with_error, emit, skip.
  destruct (is_done_ (self m)).
  - eexists. split; [reflexivity |]. repeat constructor. eauto.
  - exists []. rewrite app_nil_r. destruct m. split; [reflexivity | constructor].
Qed.

Lemma same_but_missing_refl (l : list event) :
  Forall (fun e => (exists f, e = ev_error f) \/ is_read e = true) l ->
  Forall2 same_but_missing l l.
Proof.
  induction 1 as [| e l He _ IH]; constructor; [| exact IH].
  destruct He as [[f ->] | He]; [reflexivity |].
  destruct e; try discriminate He; reflexivity.
Qed.

Lemma forallb_is_read_Forall (l : list event) :
  forallb is_read l = true ->
  Forall (fun e => (exists f, e = ev_error f) \/ is_read e = true) l.
Proof.
  intros H. apply Forall_forall. intros e He. right.
  rewrite forallb_forall in H. apply H. apply list_elem_of_In. exact He.
Qed.

(** [get] and [get_optional] do the same and leave the attempt and the
    world in the same state; they differ in one thing: where [get_optional]
    completes with no document, [get] completes with a failure that asks
    for no retry and allows rollback. *)
Theorem get_differs_from_get_optional_only_on_missing {W} (E : cluster W)
    (doc : document_id) (m : machine W) :
  self (get E doc m) = self (get_optional E doc m)
  /\ world (get E doc m) = world (get_optional E doc m)
  /\ Forall2 same_but_missing
       (new_events (get_optional E doc) m) (new_events (get E doc) m).
Proof.
  unfold new_events. rewrite !get_unfold, !get_optional_unfold.
  destruct (check_if_done_effect m) as (lc & Hc & Hlc).
  destruct (do_get_calls E doc (check_if_done m))
    as (calls & m0 & Hcalls & _ & (l & Hl & Hread) & _).
  destruct (replay_pair E doc calls m0 m0 eq_refl eq_refl)
    as (w & l1 & l2 & R1 & R2 & Hall & _ & _).
  rewrite !Hcalls, R1, R2. cbn [self world trace].
  repeat split.
  rewrite Hl, Hc. cbn [trace]. rewrite <- !app_assoc.
  rewrite !drop_app_length.
  apply Forall2_app; [| apply Forall2_app; [| exact Hall]].
  - apply same_but_missing_refl. eapply Forall_impl; [exact Hlc |].
    intros e He. left. exact He.
  - apply same_but_missing_refl, forallb_is_read_Forall, Hread.
Qed.

Lemma no_write_of_read (l : list event) :
  forallb is_read l = true -> forallb no_write l = true.
Proof.
  rewrite !forallb_forall. intros H e He. specialize (H e He).
  destruct e; try discriminate H; reflexivity.
Qed.

Lemma no_write_of_completion (l : list event) :
  forallb is_completion l = true -> forallb no_write l = true.
Proof.
  rewrite !forallb_forall. intros H e He. specialize (H e He).
  destruct e; try discriminate H; reflexivity.
Qed.

(** Reading changes nothing of the attempt but, when the attempt has run
    out of time, its expiry-overtime flag; and a read sends no mutation to
    the cluster. *)
Theorem reads_change_only_the_overtime_flag {W} (E : cluster W)
    (doc : document_id) (m : machine W) :
  Forall (fun op : action W =>
            (self (op m) = self m
             \/ self (op m) = set_expiry_overtime_mode_ true (self m))
            /\ forallb no_write (new_events op m) = true)
         [get E doc; get_optional E doc].
Proof.
  destruct (check_if_done_effect m) as (lc & Hc & Hlc).
  destruct (do_get_calls E doc (check_if_done m))
    as (calls & m0 & Hcalls & Hself & (l & Hl & Hread) & _).
  destruct (replay_pair E doc calls m0 m0 eq_refl eq_refl)
    as (w & l1 & l2 & R1 & R2 & _ & Hc1 & Hc2).
  assert (Hlc' : forallb no_write lc = true).
  { apply forallb_forall. intros e He. apply list_elem_of_In in He.
    rewrite Forall_forall in Hlc. destruct (Hlc e He) as [f ->]. reflexivity. }
  rewrite Hc in Hself. cbn [self] in Hself.
  apply List.Forall_cons; [split | apply List.Forall_cons; [split | apply List.Forall_nil]].
  - rewrite get_unfold, Hcalls, R2. exact Hself.
  - unfold new_events. rewrite get_unfold, Hcalls, R2. cbn [trace].
    rewrite Hl, Hc. cbn [trace]. rewrite <- !app_assoc, drop_app_length.
    rewrite !forallb_app, Hlc', (no_write_of_read _ Hread), (no_write_of_completion _ Hc2).
    reflexivity.
  - rewrite get_optional_unfold, Hcalls, R1. exact Hself.
  - unfold new_events. rewrite get_optional_unfold, Hcalls, R1. cbn [trace].
    rewrite Hl, Hc. cbn [trace]. rewrite <- !app_assoc, drop_app_length.
    rewrite !forallb_app, Hlc', (no_write_of_read _ Hread), (no_write_of_completion _ Hc1).
    reflexivity.
Qed.

(** ** Staging on a cluster with the production hooks *)

Section Production.
Context {W : Type} (E : cluster W) (HE : production_hooks E).

Lemma call_hook_production {R} (h : hook_point) (k : option string)
    (cont : option error_class -> machine W -> R) (a : attempt_context_impl)
    (w : W) (tr : list event) :
  call_hook E h k cont (Machine a w tr) = cont None (Machine a w tr).
Proof.
  unfold call_hook, ask. cbn [world self trace].
  rewrite (hook_is_silent E HE). reflexivity.
Qed.

Lemma has_expired_production {R} (place : stage) (k : option string)
    (cont : bool -> machine W -> R) (a : attempt_context_impl) (w : W)
    (tr : list event) :
  has_expired_client_side E place k cont (Machine a w tr)
  = cont (ctx_has_expired_client_side (overall_ a) (config_ a) (now E w))
         (Machine a w tr).
Proof.
  unfold has_expired_client_side, read, clock, ask. cbn [world self trace fst snd].
  rewrite (expiry_hook_is_silent E HE). rewrite orb_false_r. reflexivity.
Qed.

Lemma check_expiry_pre_commit_production {R} (place : stage) (k : option string)
    (cont : bool -> machine W -> R) (a : attempt_context_impl) (w : W)
    (tr : list event) :
  in_time E (Machine a w tr) ->
  check_expiry_pre_commit E place k cont (Machine a w tr)
  = cont false (Machine a w tr).
Proof.
  intros H. unfold check_expiry_pre_commit. rewrite has_expired_production.
  unfold in_time in H. cbn [self world] in H. rewrite H. reflexivity.
Qed.

Lemma check_expiry_pre_commit_expired {R} (place : stage) (k : option string)
    (cont : bool -> machine W -> R) (a : attempt_context_impl) (w : W)
    (tr : list event) :
  ~ in_time E (Machine a w tr) ->
  check_expiry_pre_commit E place k cont (Machine a w tr)
  = cont true (Machine (set_expiry_overtime_mode_ true a) w tr).
Proof.
  intros H. unfold check_expiry_pre_commit. rewrite has_expired_production.
  unfold in_time in H. cbn [self world] in H.
  destruct (ctx_has_expired_client_side _ _ _); [reflexivity | congruence].
Qed.

Lemma error_if_expired_production {R} (place : stage) (k : option string)
    (cont : option error_class -> machine W -> R) (a : attempt_context_impl)
    (w : W) (tr : list event) :
  expiry_overtime_mode_ a = true \/ in_time E (Machine a w tr) ->
  error_if_expired_and_not_in_overtime E place k cont (Machine a w tr)
  = cont None (Machine a w tr).
Proof.
  intros H. unfold error_if_expired_and_not_in_overtime, read. cbn [self].
  destruct (expiry_overtime_mode_ a) eqn:Ho; [reflexivity |].
  destruct H as [H | H]; [discriminate |].
  rewrite has_expired_production. unfold in_time in H. cbn [self world] in H.
  rewrite H. reflexivity.
Qed.

Lemma check_and_handle_writable (fuel : nat) (doc : transaction_get_result)
    (stg : forward_compat_stage)
    (cb : option transaction_operation_failed -> action W) (m : machine W) :
  writable_by (self m) doc ->
  check_and_handle_blocking_transactions E fuel doc stg cb m = cb None m.
Proof.
  intros H. unfold check_and_handle_blocking_transactions.
  destruct (has_staged_write (links doc)) eqn:Hs; [| reflexivity].
  destruct H as [H | H]; [congruence |].
  rewrite H. unfold value, read. rewrite bool_decide_eq_true_2 by reflexivity.
  reflexivity.
Qed.

(** [replace_raw] in closed form, up to the answer of the cluster. *)
Lemma replace_raw_production (fuel : nat) (document : transaction_get_result)
    (content : string) (atr : document_id) (m : machine W) :
  is_done_ (self m) = false ->
  in_time E m ->
  atr_id_ (self m) = Some atr ->
  writable_by (self m) document ->
  let req :=
    with_access_deleted
      (with_cas (create_staging_request (self m) atr document "replace" (Some content))
                (cas document)) true in
  let resp := fst (execute_mutate_in E req (world m)) in
  let w' := snd (execute_mutate_in E req (world m)) in
  replace_raw E fuel document content m
  = match mresp_ec resp with
    | Some ec =>
        staging_error_handler ec (Machine (self m) w' (trace m ++ [ev_mutate_in req]))
    | None =>
        let out := set_cas document (mresp_cas resp) in
        let q := staged_mutations_ (self m) in
        let q' :=
          match find_replace q (doc_id document), find_insert q (doc_id document) with
          | Some _, _ =>
              queue_update REPLACE (doc_id document)
                (fun mu => Staged (set_cas (sm_doc mu) (cas out)) content (sm_type mu)) q
          | None, Some _ =>
              queue_update INSERT (doc_id document)
                (fun mu => Staged (set_cas (set_content (sm_doc mu) content) (cas out))
                                  (sm_content mu) (sm_type mu)) q
          | None, None => queue_add q (Staged out content REPLACE)
          end in
        Machine (set_staged_mutations_ q' (self m)) w'
                (trace m ++ [ev_mutate_in req; ev_result (Some out)])
    end.
Proof.
  intros Hdone Htime Hatr Hfree req resp w'.
  unfold replace_raw, cache_error_async.
  rewrite then_apply, check_if_done_not_done by exact Hdone.
  destruct m as [a w tr]. cbn [self world trace] in *.
  rewrite check_expiry_pre_commit_production by exact Htime.
  rewrite check_and_handle_writable by exact Hfree.
  rewrite (select_atr_if_needed_unlocked_frozen E fuel (doc_id document) atr) by exact Hatr.
  unfold read at 1. cbn [self]. rewrite Hatr. unfold value.
  unfold read at 1. cbn [self]. fold req.
  rewrite call_hook_production.
  unfold execute_mutate, then_, emit, ask. cbn [self world trace].
  subst resp w'. destruct (execute_mutate_in E req w) as [resp w'].
  cbn [fst snd]. destruct (mresp_ec resp) as [ec |]; [reflexivity |].
  rewrite call_hook_production. unfold read. cbn [self].
  destruct (find_replace (staged_mutations_ a) (doc_id document)),
           (find_insert (staged_mutations_ a) (doc_id document));
    unfold modify, op_completed_with_callback, emit; cbn [self world trace];
    rewrite <- app_assoc; reflexivity.
Qed.

End Production.

(** *** Lookups in the queue after an update *)

Lemma find_any_queue_add (t : staged_mutation_type) (q : list staged_mutation)
    (mu : staged_mutation) :
  find_any t (queue_add q mu) (doc_id (sm_doc mu))
  = if bool_decide (sm_type mu = t) then Some mu else None.
Proof.
  unfold find_any, queue_add.
  induction q as [| x q IH]; cbn [List.filter app List.find].
  - rewrite (bool_decide_eq_true_2 (doc_id (sm_doc mu) = doc_id (sm_doc mu))) by reflexivity.
    rewrite andb_true_r. reflexivity.
  - destruct (bool_decide (doc_id (sm_doc x) = doc_id (sm_doc mu))) eqn:Hx;
      cbn [negb]; [exact IH |].
    cbn [app List.find]. rewrite Hx, andb_false_r. exact IH.
Qed.

Lemma queue_update_length (t : staged_mutation_type) (id : document_id)
    (f : staged_mutation -> staged_mutation) (q : list staged_mutation) :
  List.length (queue_update t id f q) = List.length q.
Proof.
  induction q as [| x q IH]; cbn [queue_update]; [reflexivity |].
  destruct (_ && _); cbn [List.length]; [reflexivity | rewrite IH; reflexivity].
Qed.

Lemma find_any_queue_update (t t' : staged_mutation_type) (id : document_id)
    (f : staged_mutation -> staged_mutation) (q : list staged_mutation) :
  (forall x, sm_type (f x) = sm_type x /\ doc_id (sm_doc (f x)) = doc_id (sm_doc x)) ->
  find_any t' (queue_update t id f q) id
  = if bool_decide (t' = t) then option_map f (find_any t q id) else find_any t' q id.
Proof.
  intros Hf. unfold find_any.
  induction q as [| x q IH]; cbn [queue_update List.find option_map].
  - destruct (bool_decide (t' = t)); reflexivity.
  - destruct (bool_decide (sm_type x = t)) eqn:Ht;
      destruct (bool_decide (doc_id (sm_doc x) = id)) eqn:Hid; cbn [andb];
      cbn [List.find].
    + destruct (Hf x) as [H1 H2]. rewrite H1, H2, Hid.
      apply bool_decide_eq_true in Ht. subst t.
      destruct (bool_decide (t' = sm_type x)) eqn:Ht'.
      * apply bool_decide_eq_true in Ht'. subst t'.
        rewrite !bool_decide_eq_true_2 by reflexivity. reflexivity.
      * apply bool_decide_eq_false in Ht'.
        rewrite (bool_decide_eq_false_2 (sm_type x = t')) by congruence.
        reflexivity.
    + rewrite Hid, andb_false_r. exact IH.
    + rewrite Hid, andb_true_r.
      destruct (bool_decide (t' = t)) eqn:Ht'.
      * apply bool_decide_eq_true in Ht'. subst t'. rewrite Ht. exact IH.
      * destruct (bool_decide (sm_type x = t')); [reflexivity | exact IH].
    + rewrite Hid, andb_false_r. exact IH.
Qed.

Lemma find_any_some (t : staged_mutation_type) (q : list staged_mutation)
    (id : document_id) (mu : staged_mutation) :
  find_any t q id = Some mu ->
  In mu q /\ sm_type mu = t /\ doc_id (sm_doc mu) = id.
Proof.
  intros H. unfold find_any in H. apply List.find_some in H as [Hin Hb].
  apply andb_true_iff in Hb as [H1 H2].
  apply bool_decide_eq_true in H1, H2. auto.
Qed.

Section Scenarios.
Context {W : Type} (E : cluster W) (HE : production_hooks E).

Lemma do_get_production_start (doc : document_id)
    (cb : option error_class -> option transaction_get_result -> action W)
    (a : attempt_context_impl) (w : W) (tr : list event) :
  in_time E (Machine a w tr) ->
  do_get E doc cb (Machine a w tr)
  = match check_for_own_write (staged_mutations_ a) doc with
    | Some own_write =>
        cb None (Some (create_from (sm_doc own_write) (sm_content own_write)))
           (Machine a w tr)
    | None =>
        match find_remove (staged_mutations_ a) doc with
        | Some _ => cb None None (Machine a w tr)
        | None =>
            get_doc E doc (fun ec d0 =>
              match ec, d0 with
              | None, None => cb None None
              | None, Some d0 =>
                  if is_document_in_transaction (links d0) then
                    value (atr_bucket_name (links d0)) (fun b =>
                    value (atr_scope_name (links d0)) (fun s =>
                    value (atr_collection_name (links d0)) (fun c =>
                    value (atr_id (links d0)) (fun k =>
                    fetch_atr E (DocId b s c k) (do_get_with_atr E d0 cb)))))
                  else if is_deleted (links d0) then cb None None
                  else cb None (Some d0)
              | Some _, _ => cb ec None
              end) (Machine a w tr)
        end
    end.
Proof.
  intros Htime. unfold do_get.
  rewrite (check_expiry_pre_commit_production E HE) by exact Htime.
  unfold read. cbn [self].
  destruct (check_for_own_write (staged_mutations_ a) doc); [reflexivity |].
  destruct (find_remove (staged_mutations_ a) doc); [reflexivity |].
  rewrite (call_hook_production E HE). reflexivity.
Qed.

(** An attempt reads its own writes from its queue: a document it has
    inserted or replaced comes back with the staged content, and a document
    it has removed is not there ([get_optional] completes with no document,
    [get] with a failure); neither sends anything to the cluster. *)
Theorem attempt_reads_its_own_writes (doc : document_id) (m : machine W) :
  is_done_ (self m) = false ->
  in_time E m ->
  (forall fc, forward_compat_check E GETS fc = None) ->
  let q := staged_mutations_ (self m) in
  let completes_with (op : action W) (e : event) :=
    op m = Machine (self m) (world m) (trace m ++ [e]) in
  match check_for_own_write q doc, find_remove q doc with
  | Some mu, _ =>
      let res := ev_result (Some (create_from (sm_doc mu) (sm_content mu))) in
      completes_with (get E doc) res /\ completes_with (get_optional E doc) res
  | None, Some _ =>
      completes_with (get_optional E doc) (ev_result None)
      /\ completes_with (get E doc)
           (ev_error (operation_failed (indeterminate_error_class E)))
  | None, None => True
  end.
Proof.
  intros Hdone Htime Hfc q completes_with. subst completes_with q. cbv beta.
  unfold get, get_optional, cache_error_async.
  rewrite !then_apply, !check_if_done_not_done by exact Hdone.
  destruct m as [a w tr]. cbn [self world trace] in *.
  rewrite !do_get_production_start by exact Htime.
  destruct (check_for_own_write (staged_mutations_ a) doc) as [mu |].
  - unfold after_do_get. rewrite !(call_hook_production E HE), !Hfc.
    split; reflexivity.
  - destruct (find_remove (staged_mutations_ a) doc); [| exact I].
    unfold after_do_get. rewrite !(call_hook_production E HE).
    split; reflexivity.
Qed.

(** When the lookup of the document ends with FAIL_PATH_NOT_FOUND,
    [get_doc] hands the result to its callback twice (the case of its
    [switch] runs on into [default]); [get] and [get_optional] then complete
    their callback twice, each time with FAIL_OTHER. *)
Theorem get_completes_twice_on_path_not_found (doc : document_id) (m : machine W) :
  is_done_ (self m) = false ->
  in_time E m ->
  check_for_own_write (staged_mutations_ (self m)) doc = None ->
  find_remove (staged_mutations_ (self m)) doc = None ->
  lresp_ec (fst (execute_lookup_in E (get_doc_request doc) (world m)))
  = Some FAIL_PATH_NOT_FOUND ->
  let twice := [ev_error (operation_failed FAIL_OTHER);
                ev_error (operation_failed FAIL_OTHER)] in
  completions (get E doc) m = twice /\ completions (get_optional E doc) m = twice.
Proof.
  intros Hdone Htime Hown Hrem Hresp twice.
  unfold completions, new_events, get, get_optional, cache_error_async.
  rewrite !then_apply, !check_if_done_not_done by exact Hdone.
  destruct m as [a w tr]. cbn [self world trace] in *.
  rewrite !do_get_production_start by exact Htime.
  rewrite Hown, Hrem. unfold get_doc, execute_lookup, then_, emit, ask.
  cbn [self world trace].
  destruct (execute_lookup_in E (get_doc_request doc) w) as [resp w'].
  cbn [fst] in Hresp. rewrite Hresp.
  unfold after_do_get, get_error, op_completed_with_error, emit.
  cbn [self world trace]. rewrite <- !app_assoc, !drop_app_length.
  split; reflexivity.
Qed.

(** [replace] of a document that the attempt has not written yet, with the
    ATR selected: it sends one mutate-in to the document, guarded by the CAS
    the document was read with.  When the write succeeds the attempt queues a
    REPLACE entry that carries the new CAS and completes with the document
    at that CAS; when it fails the attempt is as before and the failure asks
    for a retry exactly for the classes DOC_NOT_FOUND, DOC_ALREADY_EXISTS,
    CAS_MISMATCH, TRANSIENT and AMBIGUOUS, and forbids rollback exactly for
    FAIL_HARD. *)
Theorem replace_stages_one_guarded_write (fuel : nat)
    (document : transaction_get_result) (content : string) (atr : document_id)
    (m : machine W) :
  is_done_ (self m) = false ->
  in_time E m ->
  atr_id_ (self m) = Some atr ->
  writable_by (self m) document ->
  check_for_own_write (staged_mutations_ (self m)) (doc_id document) = None ->
  let req :=
    with_access_deleted
      (with_cas (create_staging_request (self m) atr document "replace" (Some content))
                (cas document)) true in
  let resp := fst (execute_mutate_in E req (world m)) in
  let m' := replace_raw E fuel document content m in
  mreq_id req = doc_id document /\ mreq_cas req = cas document
  /\ world m' = snd (execute_mutate_in E req (world m))
  /\ match mresp_ec resp with
     | None =>
         let out := set_cas document (mresp_cas resp) in
         trace m' = trace m ++ [ev_mutate_in req; ev_result (Some out)]
         /\ self m'
            = set_staged_mutations_
                (queue_add (staged_mutations_ (self m)) (Staged out content REPLACE))
                (self m)
     | Some ec =>
         exists e,
           trace m' = trace m ++ [ev_mutate_in req; ev_error e]
           /\ self m' = self m
           /\ tof_ec e = ec
           /\ tof_retry e
              = bool_decide (ec ∈ [FAIL_DOC_NOT_FOUND; FAIL_DOC_ALREADY_EXISTS;
                                   FAIL_CAS_MISMATCH; FAIL_TRANSIENT; FAIL_AMBIGUOUS])
           /\ tof_rollback e = negb (bool_decide (ec = FAIL_HARD))
           /\ tof_expired e = false
     end.
Proof.
  intros Hdone Htime Hatr Hfree Hown req resp m'.
  unfold check_for_own_write in Hown.
  destruct (find_replace _ _) eqn:Hr; [discriminate |].
  destruct (find_insert _ _) eqn:Hi; [discriminate |].
  subst m'. rewrite (replace_raw_production E HE fuel document content atr m)
    by assumption.
  cbv zeta. rewrite Hr, Hi. fold req. fold resp.
  split; [reflexivity | split; [reflexivity | split]].
  - destruct (mresp_ec resp) as [ec |]; [destruct ec |]; reflexivity.
  - destruct (mresp_ec resp) as [ec |].
    + destruct ec; eexists;
        (split; [unfold staging_error_handler, op_completed_with_error, emit;
                 cbn [trace self]; rewrite <- app_assoc; reflexivity |]);
        repeat split; reflexivity.
    + cbv zeta. split; reflexivity.
Qed.

(** [replace] of a document that the attempt has replaced before does not
    add to the queue: the REPLACE entry of the document takes the new
    content and the new CAS, and the queue keeps its length. *)
Theorem replace_again_updates_the_entry (fuel : nat)
    (document : transaction_get_result) (content : string) (atr : document_id)
    (mu : staged_mutation) (m : machine W) :
  is_done_ (self m) = false ->
  in_time E m ->
  atr_id_ (self m) = Some atr ->
  writable_by (self m) document ->
  find_replace (staged_mutations_ (self m)) (doc_id document) = Some mu ->
  let req :=
    with_access_deleted
      (with_cas (create_staging_request (self m) atr document "replace" (Some content))
                (cas document)) true in
  let resp := fst (execute_mutate_in E req (world m)) in
  mresp_ec resp = None ->
  let m' := replace_raw E fuel document content m in
  let q' := staged_mutations_ (self m') in
  trace m' = trace m ++ [ev_mutate_in req;
                         ev_result (Some (set_cas document (mresp_cas resp)))]
  /\ List.length q' = List.length (staged_mutations_ (self m))
  /\ find_replace q' (doc_id document)
     = Some (Staged (set_cas (sm_doc mu) (mresp_cas resp)) content REPLACE)
  /\ find_insert q' (doc_id document)
     = find_insert (staged_mutations_ (self m)) (doc_id document).
Proof.
  intros Hdone Htime Hatr Hfree Hfind req resp Hok m' q'.
  subst q' m'. rewrite (replace_raw_production E HE fuel document content atr m)
    by assumption.
  cbv zeta. fold req. fold resp. rewrite Hok, Hfind. cbn [self trace staged_mutations_ set_staged_mutations_].
  destruct (find_any_some _ _ _ _ Hfind) as (_ & Hty & _).
  split; [reflexivity | split; [apply queue_update_length | split]].
  - unfold find_replace. rewrite find_any_queue_update by (intros x; split; reflexivity).
    rewrite bool_decide_eq_true_2 by reflexivity.
    unfold find_replace in Hfind. rewrite Hfind. cbn [option_map cas set_cas].
    rewrite Hty. reflexivity.
  - unfold find_insert. rewrite find_any_queue_update by (intros x; split; reflexivity).
    rewrite bool_decide_eq_false_2 by discriminate. reflexivity.
Qed.

(** [replace] of a document that the attempt has inserted keeps the INSERT
    entry and leaves the content recorded with it as it was: the new content
    goes into the document the entry holds.  What the attempt reads back for
    the document afterwards is the content it inserted, at the new CAS. *)
Theorem replace_after_insert_reads_back_the_insert (fuel : nat)
    (document : transaction_get_result) (content : string) (atr : document_id)
    (mu : staged_mutation) (m : machine W) :
  is_done_ (self m) = false ->
  in_time E m ->
  atr_id_ (self m) = Some atr ->
  writable_by (self m) document ->
  find_replace (staged_mutations_ (self m)) (doc_id document) = None ->
  find_insert (staged_mutations_ (self m)) (doc_id document) = Some mu ->
  (forall fc, forward_compat_check E GETS fc = None) ->
  let req :=
    with_access_deleted
      (with_cas (create_staging_request (self m) atr document "replace" (Some content))
                (cas document)) true in
  let resp := fst (execute_mutate_in E req (world m)) in
  mresp_ec resp = None ->
  let m' := replace_raw E fuel document content m in
  in_time E m' ->
  check_for_own_write (staged_mutations_ (self m')) (doc_id document)
  = Some (Staged (set_cas (set_content (sm_doc mu) content) (mresp_cas resp))
                 (sm_content mu) INSERT)
  /\ get_optional E (doc_id document) m'
     = Machine (self m') (world m')
         (trace m' ++ [ev_result (Some (set_cas (set_content (sm_doc mu) (sm_content mu))
                                                (mresp_cas resp)))]).
Proof.
  intros Hdone Htime Hatr Hfree Hrep Hins Hfc req resp Hok m'.
  subst m'. rewrite (replace_raw_production E HE fuel document content atr m)
    by assumption.
  cbv zeta. fold req. fold resp. rewrite Hok, Hrep, Hins.
  set (w' := snd (execute_mutate_in E req (world m))).
  destruct (find_any_some _ _ _ _ Hins) as (_ & Hty & _).
  intros Htime'.
  assert (Hown : check_for_own_write
                   (queue_update INSERT (doc_id document)
                      (fun x => Staged (set_cas (set_content (sm_doc x) content)
                                                (cas (set_cas document (mresp_cas resp))))
                                       (sm_content x) (sm_type x))
                      (staged_mutations_ (self m))) (doc_id document)
                 = Some (Staged (set_cas (set_content (sm_doc mu) content) (mresp_cas resp))
                                (sm_content mu) INSERT)).
  { unfold check_for_own_write, find_replace, find_insert.
    rewrite !find_any_queue_update by (intros x; split; reflexivity).
    rewrite bool_decide_eq_false_2 by discriminate.
    rewrite bool_decide_eq_true_2 by reflexivity.
    unfold find_replace in Hrep. unfold find_insert in Hins. rewrite Hrep, Hins.
    cbn [option_map cas set_cas]. rewrite Hty. reflexivity. }
  split; [exact Hown |].
  unfold get_optional, cache_error_async.
  rewrite then_apply, check_if_done_not_done by exact Hdone.
  rewrite do_get_production_start by exact Htime'.
  cbn [staged_mutations_ set_staged_mutations_]. rewrite Hown.
  unfold after_do_get. rewrite (call_hook_production E HE), Hfc.
  reflexivity.
Qed.

(** [remove] in closed form, up to the answer of the cluster. *)
Lemma remove_production (fuel : nat) (document : transaction_get_result)
    (atr : document_id) (m : machine W) :
  is_done_ (self m) = false ->
  in_time E m ->
  atr_id_ (self m) = Some atr ->
  writable_by (self m) document ->
  find_insert (staged_mutations_ (self m)) (doc_id document) = None ->
  let req :=
    with_access_deleted
      (with_cas (create_staging_request (self m) atr document "remove" None)
                (cas document)) (is_deleted (links document)) in
  let resp := fst (execute_mutate_in E req (world m)) in
  let w' := snd (execute_mutate_in E req (world m)) in
  remove E fuel document m
  = match mresp_ec resp with
    | Some ec =>
        remove_error_handler ec (Machine (self m) w' (trace m ++ [ev_mutate_in req]))
    | None =>
        Machine (set_staged_mutations_
                   (queue_add (staged_mutations_ (self m))
                      (Staged (set_cas document (mresp_cas resp)) "" REMOVE))
                   (self m))
                w' (trace m ++ [ev_mutate_in req; ev_done])
    end.
Proof.
  intros Hdone Htime Hatr Hfree Hins req resp w'.
  unfold remove, cache_error_async.
  rewrite then_apply, check_if_done_not_done by exact Hdone.
  destruct m as [a w tr]. cbn [self world trace] in *.
  rewrite (check_expiry_pre_commit_production E HE) by exact Htime.
  unfold read at 1. cbn [self]. rewrite Hins.
  rewrite (check_and_handle_writable E) by exact Hfree.
  rewrite (select_atr_if_needed_unlocked_frozen E fuel (doc_id document) atr) by exact Hatr.
  rewrite (call_hook_production E HE).
  unfold read at 1. cbn [self]. rewrite Hatr. unfold value.
  unfold read at 1. cbn [self]. fold req.
  unfold execute_mutate, then_, emit, ask. cbn [self world trace].
  subst resp w'. destruct (execute_mutate_in E req w) as [resp w'].
  cbn [fst snd]. destruct (mresp_ec resp) as [ec |]; [reflexivity |].
  rewrite (call_hook_production E HE).
  unfold modify, op_completed_with_void_callback, emit. cbn [self world trace].
  rewrite <- app_assoc. reflexivity.
Qed.

(** [remove] of a document that the attempt has not inserted, with the ATR
    selected: one mutate-in to the document, guarded by the CAS the document
    was read with.  When the write succeeds the attempt queues a REMOVE entry
    at the new CAS and completes; when it fails the queue is as before, the
    failure asks for a retry for the classes DOC_NOT_FOUND,
    DOC_ALREADY_EXISTS, CAS_MISMATCH, TRANSIENT and AMBIGUOUS, forbids
    rollback for FAIL_HARD, and on FAIL_EXPIRY is marked expired and puts the
    attempt in expiry-overtime mode. *)
Theorem remove_stages_one_guarded_write (fuel : nat)
    (document : transaction_get_result) (atr : document_id) (m : machine W) :
  is_done_ (self m) = false ->
  in_time E m ->
  atr_id_ (self m) = Some atr ->
  writable_by (self m) document ->
  find_insert (staged_mutations_ (self m)) (doc_id document) = None ->
  let req :=
    with_access_deleted
      (with_cas (create_staging_request (self m) atr document "remove" None)
                (cas document)) (is_deleted (links document)) in
  let resp := fst (execute_mutate_in E req (world m)) in
  let m' := remove E fuel document m in
  mreq_id req = doc_id document /\ mreq_cas req = cas document
  /\ world m' = snd (execute_mutate_in E req (world m))
  /\ match mresp_ec resp with
     | None =>
         trace m' = trace m ++ [ev_mutate_in req; ev_done]
         /\ self m'
            = set_staged_mutations_
                (queue_add (staged_mutations_ (self m))
                   (Staged (set_cas document (mresp_cas resp)) "" REMOVE))
                (self m)
     | Some ec =>
         exists e,
           trace m' = trace m ++ [ev_mutate_in req; ev_error e]
           /\ self m' = (if bool_decide (ec = FAIL_EXPIRY)
                         then set_expiry_overtime_mode_ true (self m) else self m)
           /\ tof_ec e = ec
           /\ tof_retry e
              = bool_decide (ec ∈ [FAIL_DOC_NOT_FOUND; FAIL_DOC_ALREADY_EXISTS;
                                   FAIL_CAS_MISMATCH; FAIL_TRANSIENT; FAIL_AMBIGUOUS])
           /\ tof_rollback e = negb (bool_decide (ec = FAIL_HARD))
           /\ tof_expired e = bool_decide (ec = FAIL_EXPIRY)
     end.
Proof.
  intros Hdone Htime Hatr Hfree Hins req resp m'.
  subst m'. rewrite (remove_production fuel document atr m) by assumption.
  cbv zeta. fold req. fold resp.
  split; [reflexivity | split; [reflexivity | split]].
  - destruct (mresp_ec resp) as [ec |]; [destruct ec |]; reflexivity.
  - destruct (mresp_ec resp) as [ec |].
    + destruct ec; eexists;
        (split; [unfold remove_error_handler, op_completed_with_error, emit, then_,
                   modify;
                 cbn [trace self]; rewrite <- app_assoc; reflexivity |]);
        repeat split; reflexivity.
    + split; reflexivity.
Qed.

(** A document the attempt has removed, and had not written before, is gone
    for the attempt: [get_optional] completes with no document and [get]
    with a failure, and neither asks the cluster. *)
Theorem removed_document_is_gone_for_the_attempt (fuel : nat)
    (document : transaction_get_result) (atr : document_id) (m : machine W) :
  is_done_ (self m) = false ->
  in_time E m ->
  atr_id_ (self m) = Some atr ->
  writable_by (self m) document ->
  check_for_own_write (staged_mutations_ (self m)) (doc_id document) = None ->
  let m' := remove E fuel document m in
  completions (remove E fuel document) m = [ev_done] ->
  in_time E m' ->
  get_optional E (doc_id document) m'
  = Machine (self m') (world m') (trace m' ++ [ev_result None])
  /\ get E (doc_id document) m'
     = Machine (self m') (world m')
         (trace m' ++ [ev_error (operation_failed (indeterminate_error_class E))]).
Proof.
  intros Hdone Htime Hatr Hfree Hown m'.
  assert (Hins : find_insert (staged_mutations_ (self m)) (doc_id document) = None).
  { unfold check_for_own_write in Hown.
    destruct (find_replace _ _); [discriminate |].
    destruct (find_insert _ _); [discriminate | reflexivity]. }
  subst m'. unfold completions, new_events.
  rewrite (remove_production fuel document atr m) by assumption.
  cbv zeta.
  set (req := with_access_deleted _ _).
  destruct (mresp_ec (fst (execute_mutate_in E req (world m)))) as [ec |].
  - intros Hc. exfalso. revert Hc.
    destruct ec; unfold remove_error_handler, op_completed_with_error, emit, then_,
      modify; cbn [trace self]; rewrite <- app_assoc, drop_app_length;
      discriminate.
  - intros _ Htime'.
    set (q' := queue_add _ _).
    assert (Hown' : check_for_own_write q' (doc_id document) = None
                    /\ find_remove q' (doc_id document) <> None).
    { subst q'. unfold check_for_own_write, find_replace, find_insert, find_remove.
      change (doc_id document)
        with (doc_id (sm_doc (Staged (set_cas document
                (mresp_cas (fst (execute_mutate_in E req (world m))))) "" REMOVE))).
      rewrite !find_any_queue_add. cbn [sm_type].
      rewrite !bool_decide_eq_false_2 by discriminate.
      rewrite bool_decide_eq_true_2 by reflexivity. split; [reflexivity | discriminate]. }
    destruct Hown' as [Ho Hr].
    unfold get, get_optional, cache_error_async.
    rewrite !then_apply, !check_if_done_not_done by exact Hdone.
    rewrite !do_get_production_start by exact Htime'.
    cbn [staged_mutations_ set_staged_mutations_ self]. fold q'. rewrite Ho.
    destruct (find_remove q' (doc_id document)); [| congruence].
    unfold after_do_get. rewrite !(call_hook_production E HE).
    split; reflexivity.
Qed.

(** One round of [create_staged_insert], up to the answer of the cluster. *)
Lemma create_staged_insert_production (fuel : nat) (doc atr : document_id)
    (content : string) (cas0 : Z) (a : attempt_context_impl) (w : W)
    (tr : list event) :
  expiry_overtime_mode_ a = true \/ in_time E (Machine a w tr) ->
  atr_id_ a = Some atr ->
  let req := staged_insert_request a doc content cas0 in
  let resp := fst (execute_mutate_in E req w) in
  let w' := snd (execute_mutate_in E req w) in
  create_staged_insert E (S fuel) doc content cas0 (Machine a w tr)
  = match mresp_ec resp with
    | None =>
        let out := inserted_document a atr doc content (mresp_cas resp) in
        Machine (set_staged_mutations_
                   (queue_add (staged_mutations_ a) (Staged out content INSERT)) a)
                w' (tr ++ [ev_mutate_in req; ev_result (Some out)])
    | Some ec =>
        create_staged_insert_error_handler E fuel
          (fun cas' => create_staged_insert E fuel doc content cas') doc cas0 ec
          (Machine a w' (tr ++ [ev_mutate_in req]))
    end.
Proof.
  intros Htime Hatr req resp w'.
  cbn [create_staged_insert].
  rewrite (error_if_expired_production E HE) by exact Htime.
  rewrite (call_hook_production E HE).
  unfold read at 1. cbn [self]. fold req.
  unfold execute_mutate, then_, emit, ask. cbn [self world trace].
  subst resp w'. destruct (execute_mutate_in E req w) as [resp w'].
  cbn [fst snd]. rewrite (call_hook_production E HE).
  destruct (mresp_ec resp) as [ec |]; [reflexivity |].
  unfold read. cbn [self fst snd]. rewrite Hatr. unfold value, modify, then_,
    op_completed_with_callback, emit. cbn [self world trace].
  rewrite <- app_assoc. reflexivity.
Qed.

Lemma insert_raw_production (fuel : nat) (doc atr : document_id) (content : string)
    (m : machine W) :
  is_done_ (self m) = false ->
  in_time E m ->
  atr_id_ (self m) = Some atr ->
  check_for_own_write (staged_mutations_ (self m)) doc = None ->
  insert_raw E fuel doc content m
  = create_staged_insert E fuel doc content 0
      (Machine (self m) (world m) (trace m)).
Proof.
  intros Hdone Htime Hatr Hown.
  unfold insert_raw, cache_error_async.
  rewrite then_apply, check_if_done_not_done by exact Hdone.
  destruct m as [a w tr]. cbn [self world trace] in *.
  unfold read at 1. cbn [self]. rewrite Hown.
  rewrite (check_expiry_pre_commit_production E HE) by exact Htime.
  rewrite (select_atr_if_needed_unlocked_frozen E fuel doc atr) by exact Hatr.
  reflexivity.
Qed.

(** [insert] of a document that the attempt has not written, with the ATR
    selected: the first write is a mutate-in with insert semantics and CAS 0
    that creates the document as a tombstone.  When it succeeds the attempt
    queues an INSERT entry, which it reads back from then on, and completes
    with the content at the CAS of the write, linked to this attempt.  When
    it fails with a class that is settled at once (every class but
    AMBIGUOUS, DOC_ALREADY_EXISTS and CAS_MISMATCH) the queue is as before;
    the failure asks for a retry unless the class is EXPIRY, OTHER or HARD,
    forbids rollback for HARD, and on EXPIRY is marked expired and puts the
    attempt in expiry-overtime mode. *)
Theorem insert_stages_a_hidden_document (fuel : nat) (doc atr : document_id)
    (content : string) (m : machine W) :
  is_done_ (self m) = false ->
  in_time E m ->
  expiry_overtime_mode_ (self m) = false ->
  atr_id_ (self m) = Some atr ->
  check_for_own_write (staged_mutations_ (self m)) doc = None ->
  let req := staged_insert_request (self m) doc content 0 in
  let resp := fst (execute_mutate_in E req (world m)) in
  let m' := insert_raw E (S fuel) doc content m in
  (mreq_id req = doc /\ mreq_cas req = 0%Z /\ mreq_store_semantics req = sem_insert
   /\ mreq_create_as_deleted req = true /\ mreq_access_deleted req = true)
  /\ match mresp_ec resp with
     | None =>
         let out := inserted_document (self m) atr doc content (mresp_cas resp) in
         trace m' = trace m ++ [ev_mutate_in req; ev_result (Some out)]
         /\ world m' = snd (execute_mutate_in E req (world m))
         /\ self m'
            = set_staged_mutations_
                (queue_add (staged_mutations_ (self m)) (Staged out content INSERT))
                (self m)
         /\ check_for_own_write (staged_mutations_ (self m')) doc
            = Some (Staged out content INSERT)
     | Some ec =>
         ec ∉ [FAIL_AMBIGUOUS; FAIL_DOC_ALREADY_EXISTS; FAIL_CAS_MISMATCH] ->
         exists e,
           trace m' = trace m ++ [ev_mutate_in req; ev_error e]
           /\ self m' = (if bool_decide (ec = FAIL_EXPIRY)
                         then set_expiry_overtime_mode_ true (self m) else self m)
           /\ tof_ec e = ec
           /\ tof_retry e = negb (bool_decide (ec ∈ [FAIL_EXPIRY; FAIL_OTHER; FAIL_HARD]))
           /\ tof_rollback e = negb (bool_decide (ec = FAIL_HARD))
           /\ tof_expired e = bool_decide (ec = FAIL_EXPIRY)
     end.
Proof.
  intros Hdone Htime Hover Hatr Hown req resp m'.
  split; [repeat split |].
  subst m'. rewrite (insert_raw_production (S fuel) doc atr content m) by assumption.
  rewrite (create_staged_insert_production fuel doc atr content 0)
    by (first [assumption | right; destruct m; exact Htime]).
  cbv zeta. fold req. fold resp.
  destruct (mresp_ec resp) as [ec |].
  - intros Hec.
    unfold create_staged_insert_error_handler, read. cbn [self]. rewrite Hover.
    destruct ec;
      try (exfalso; apply Hec; set_solver);
      eexists;
      (split; [unfold op_completed_with_error, emit, then_, modify;
               cbn [trace self]; rewrite <- app_assoc; reflexivity |]);
      repeat split; reflexivity.
  - cbv zeta. cbn [self trace world staged_mutations_ set_staged_mutations_].
    repeat split.
    unfold check_for_own_write, find_replace, find_insert.
    change doc with (doc_id (sm_doc (Staged
      (inserted_document (self m) atr doc content (mresp_cas resp)) content INSERT))) at 2 4.
    rewrite !find_any_queue_add. cbn [sm_type].
    rewrite bool_decide_eq_false_2 by discriminate.
    rewrite bool_decide_eq_true_2 by reflexivity. reflexivity.
Qed.

(** [insert] of a document that is there already.  The staged insert is
    refused by the server (the document exists, or the CAS does not match)
    and the attempt fetches the document.  A live document outside any
    transaction ends the insert with FAIL_DOC_ALREADY_EXISTS; so does a
    document on which a transaction has staged something other than an
    insert, with the cause DOCUMENT_EXISTS_EXCEPTION.  Neither failure asks
    for a retry, and the attempt is as it was. *)
Theorem insert_of_existing_document_fails (fuel : nat) (doc atr : document_id)
    (content : string) (m : machine W) :
  is_done_ (self m) = false ->
  in_time E m ->
  expiry_overtime_mode_ (self m) = false ->
  atr_id_ (self m) = Some atr ->
  check_for_own_write (staged_mutations_ (self m)) doc = None ->
  let req := staged_insert_request (self m) doc content 0 in
  let refused := execute_mutate_in E req (world m) in
  mresp_ec (fst refused) ∈ [Some FAIL_DOC_ALREADY_EXISTS; Some FAIL_CAS_MISMATCH] ->
  let fetched := execute_lookup_in E (get_doc_request doc) (snd refused) in
  let d := lresp_doc (fst fetched) in
  lresp_ec (fst fetched) = None ->
  forward_compat_check E WWC_INSERTING_GET (forward_compat (links d)) = None ->
  forall staged_otherwise : bool,
  (if staged_otherwise
   then is_document_in_transaction (links d) = true
        /\ exists o, op (links d) = Some o /\ o <> "insert"
   else is_document_in_transaction (links d) = false /\ is_deleted (links d) = false) ->
  let e :=
    if staged_otherwise
    then cause DOCUMENT_EXISTS_EXCEPTION (operation_failed FAIL_DOC_ALREADY_EXISTS)
    else operation_failed FAIL_DOC_ALREADY_EXISTS in
  insert_raw E (S fuel) doc content m
  = Machine (self m) (snd fetched)
      (trace m ++ [ev_mutate_in req; ev_lookup_in (get_doc_request doc); ev_error e]).
Proof.
  intros Hdone Htime Hover Hatr Hown req refused Hrefused fetched d Hfetched Hfc
    staged_otherwise Hd e.
  rewrite (insert_raw_production (S fuel) doc atr content m) by assumption.
  rewrite (create_staged_insert_production fuel doc atr content 0)
    by (first [assumption | right; destruct m; exact Htime]).
  cbv zeta. fold req. fold refused.
  assert (Hh : forall ec, ec = FAIL_DOC_ALREADY_EXISTS \/ ec = FAIL_CAS_MISMATCH ->
            create_staged_insert_error_handler E fuel
              (fun cas' => create_staged_insert E fuel doc content cas') doc 0 ec
              (Machine (self m) (snd refused) (trace m ++ [ev_mutate_in req]))
            = Machine (self m) (snd fetched)
                (trace m ++ [ev_mutate_in req; ev_lookup_in (get_doc_request doc);
                             ev_error e])).
  { intros ec Hec.
    unfold create_staged_insert_error_handler, read. cbn [self]. rewrite Hover.
    destruct Hec as [-> | ->];
      rewrite (call_hook_production E HE);
      unfold get_doc, execute_lookup, then_, emit, ask; cbn [self world trace];
      subst d; subst fetched;
      destruct (execute_lookup_in E (get_doc_request doc) (snd refused)) as [resp w2];
      cbn [fst snd] in *; rewrite Hfetched, Hfc;
      subst e; destruct staged_otherwise;
      [ destruct Hd as (Hin & o & Ho & Hno); rewrite Hin; cbn [negb andb];
        rewrite Ho; rewrite bool_decide_eq_true_2 by eauto;
        rewrite bool_decide_eq_false_2 by congruence; cbn [negb andb]
      | destruct Hd as (Hin & Hdel); rewrite Hin, Hdel; cbn [negb andb]
      | destruct Hd as (Hin & o & Ho & Hno); rewrite Hin; cbn [negb andb];
        rewrite Ho; rewrite bool_decide_eq_true_2 by eauto;
        rewrite bool_decide_eq_false_2 by congruence; cbn [negb andb]
      | destruct Hd as (Hin & Hdel); rewrite Hin, Hdel; cbn [negb andb] ];
      unfold op_completed_with_error, emit; cbn [self world trace];
      rewrite <- !app_assoc; reflexivity. }
  rewrite !elem_of_cons, elem_of_nil in Hrefused.
  destruct Hrefused as [Hr | [Hr | []]]; rewrite Hr; apply Hh; auto.
Qed.

(** [insert] over a tombstone.  When the server refuses the staged insert
    and the document turns out to be a deleted document outside any
    transaction, the attempt waits for its pacer and stages the insert
    again, this time with the CAS of the tombstone (and so, the CAS not being
    0, with replace semantics).  When that write succeeds the insert
    completes as any other. *)
Theorem insert_over_a_tombstone (fuel : nat) (doc atr : document_id)
    (content : string) (m : machine W) :
  is_done_ (self m) = false ->
  in_time E m ->
  expiry_overtime_mode_ (self m) = false ->
  atr_id_ (self m) = Some atr ->
  check_for_own_write (staged_mutations_ (self m)) doc = None ->
  let req := staged_insert_request (self m) doc content 0 in
  let refused := execute_mutate_in E req (world m) in
  mresp_ec (fst refused) ∈ [Some FAIL_DOC_ALREADY_EXISTS; Some FAIL_CAS_MISMATCH] ->
  let fetched := execute_lookup_in E (get_doc_request doc) (snd refused) in
  let d := lresp_doc (fst fetched) in
  lresp_ec (fst fetched) = None ->
  forward_compat_check E WWC_INSERTING_GET (forward_compat (links d)) = None ->
  is_document_in_transaction (links d) = false ->
  is_deleted (links d) = true ->
  let paced := exp_delay E (snd fetched) in
  fst paced = false ->
  in_time E (Machine (self m) (snd paced) []) ->
  let again := staged_insert_request (self m) doc content (cas d) in
  let staged := execute_mutate_in E again (snd paced) in
  mresp_ec (fst staged) = None ->
  let out := inserted_document (self m) atr doc content (mresp_cas (fst staged)) in
  mreq_cas again = cas d
  /\ (cas d <> 0%Z -> mreq_store_semantics again = sem_replace)
  /\ insert_raw E (S (S fuel)) doc content m
     = Machine (set_staged_mutations_
                  (queue_add (staged_mutations_ (self m)) (Staged out content INSERT))
                  (self m))
               (snd staged)
               (trace m ++ [ev_mutate_in req; ev_lookup_in (get_doc_request doc);
                            ev_mutate_in again; ev_result (Some out)]).
Proof.
  intros Hdone Htime Hover Hatr Hown req refused Hrefused fetched d Hfetched Hfc
    Hin Hdel paced Hpaced Htime' again staged Hstaged out.
  split; [reflexivity | split].
  { intros Hcas. unfold again, staged_insert_request, wrap_durable_request,
      with_store_semantics. cbn [mreq_store_semantics].
    rewrite bool_decide_eq_false_2 by exact Hcas. reflexivity. }
  rewrite (insert_raw_production (S (S fuel)) doc atr content m) by assumption.
  rewrite (create_staged_insert_production (S fuel) doc atr content 0)
    by (first [assumption | right; destruct m; exact Htime]).
  cbv zeta. fold req. fold refused.
  assert (Hh : forall ec, ec = FAIL_DOC_ALREADY_EXISTS \/ ec = FAIL_CAS_MISMATCH ->
            create_staged_insert_error_handler E (S fuel)
              (fun cas' => create_staged_insert E (S fuel) doc content cas') doc 0 ec
              (Machine (self m) (snd refused) (trace m ++ [ev_mutate_in req]))
            = create_staged_insert E (S fuel) doc content (cas d)
                (Machine (self m) (snd paced)
                   (trace m ++ [ev_mutate_in req; ev_lookup_in (get_doc_request doc)]))).
  { intros ec Hec.
    unfold create_staged_insert_error_handler, read. cbn [self]. rewrite Hover.
    destruct Hec as [-> | ->];
      rewrite (call_hook_production E HE);
      unfold get_doc, execute_lookup, then_, emit, ask; cbn [self world trace];
      subst paced d; subst fetched;
      destruct (execute_lookup_in E (get_doc_request doc) (snd refused)) as [resp w2];
      cbn [fst snd] in *; rewrite Hfetched, Hfc, Hin, Hdel; cbn [negb andb];
      unfold delay, ask; cbn [self world trace];
      destruct (exp_delay E w2) as [timed_out w3]; cbn [fst snd] in *;
      subst timed_out; rewrite <- !app_assoc; reflexivity. }
  rewrite !elem_of_cons, elem_of_nil in Hrefused.
  assert (Hgo : match mresp_ec (fst refused) with
                | Some ec => ec = FAIL_DOC_ALREADY_EXISTS \/ ec = FAIL_CAS_MISMATCH
                | None => False
                end).
  { destruct Hrefused as [Hr | [Hr | []]]; rewrite Hr; auto. }
  destruct (mresp_ec (fst refused)) as [ec |]; [| contradiction].
  rewrite (Hh ec Hgo).
  rewrite (create_staged_insert_production fuel doc atr content (cas d))
    by (first [assumption | right; exact Htime']).
  cbv zeta. fold again. fold staged. rewrite Hstaged.
  rewrite <- !app_assoc. reflexivity.
Qed.

Lemma select_and_pending_production (fuel : nat) (doc : document_id)
    (cb : option transaction_operation_failed -> action W)
    (a : attempt_context_impl) (w : W) (tr : list event) :
  atr_id_ a = None ->
  staged_mutations_ a = [] ->
  expiry_overtime_mode_ a = false ->
  in_time E (Machine a w tr) ->
  let a1 := with_atr_selected E a doc in
  let pending := atr_pending_request a1 (selected_atr E doc) in
  let presp := fst (execute_mutate_in E pending w) in
  let w1 := snd (execute_mutate_in E pending w) in
  select_atr_if_needed_unlocked E (S fuel) doc cb (Machine a w tr)
  = match mresp_ec presp with
    | None => cb None (Machine (set_state PENDING a1) w1 (tr ++ [ev_mutate_in pending]))
    | Some FAIL_AMBIGUOUS =>
        set_atr_pending_locked E fuel doc cb
          (Machine a1 (sleep_for E (retry_delay (config_ a1)) w1)
                   (tr ++ [ev_mutate_in pending; ev_sleep (retry_delay (config_ a1))]))
    | Some FAIL_PATH_ALREADY_EXISTS =>
        cb None (Machine a1 w1 (tr ++ [ev_mutate_in pending]))
    | Some ec =>
        let err := operation_failed ec in
        cb (Some match ec with
                 | FAIL_EXPIRY => expired err
                 | FAIL_TRANSIENT => retry err
                 | FAIL_HARD => no_rollback err
                 | _ => err
                 end)
           (Machine (if bool_decide (ec = FAIL_EXPIRY)
                     then set_expiry_overtime_mode_ true a1 else a1)
                    w1 (tr ++ [ev_mutate_in pending]))
    end.
Proof.
  intros Hatr Hq Hover Htime a1 pending presp w1.
  unfold select_atr_if_needed_unlocked, read at 1. cbn [self]. rewrite Hatr.
  unfold ask at 1. cbn [self world trace]. rewrite (atr_hook_is_silent E HE).
  unfold then_, modify. cbn [self world trace]. fold (with_atr_selected E a doc). fold a1.
  cbn [set_atr_pending_locked].
  unfold read at 1. cbn [self].
  replace (staged_mutations_ a1) with (staged_mutations_ a) by reflexivity.
  rewrite Hq. cbn [queue_empty]. unfold read at 1. cbn [self].
  change (atr_id_ a1) with (Some (selected_atr E doc)). cbv iota.
  assert (Htime1 : in_time E (Machine a1 w tr)).
  { unfold in_time in *. cbn [self world] in *. exact Htime. }
  rewrite (error_if_expired_production E HE) by (right; exact Htime1).
  rewrite (call_hook_production E HE).
  unfold read at 1. cbn [self]. fold pending.
  unfold execute_mutate, then_, emit, ask. cbn [self world trace].
  subst presp w1. destruct (execute_mutate_in E pending w) as [presp w1].
  cbn [fst snd].
  destruct (mresp_ec presp) as [ec |].
  - unfold read. cbn [self].
    replace (expiry_overtime_mode_ a1) with (expiry_overtime_mode_ a) by reflexivity.
    rewrite Hover.
    destruct ec; unfold then_, modify, emit, ask; cbn [self world trace];
      rewrite <- ?app_assoc; reflexivity.
  - rewrite (call_hook_production E HE). reflexivity.
Qed.

Ltac emits_staging :=
  repeat first
    [ progress emits_all
    | match goal with
      | |- emits _ (get_doc _ _ _) => apply emits_get_doc; intros
      | |- emits _ (check_and_handle_blocking_transactions _ _ _ _ _) =>
          apply emits_check_and_handle; intros
      | |- emits _ (select_atr_if_needed_unlocked _ _ _ _) =>
          apply emits_select_atr; intros
      | |- emits _ (create_staged_insert _ _ _ _ _) =>
          apply emits_create_staged_insert
      end ].

Lemma emits_insert_handler (fuel : nat) (doc : document_id) (content : string)
    (cas0 : Z) (ec : error_class) :
  emits stages_in_xattrs
    (create_staged_insert_error_handler E fuel
       (fun cas' => create_staged_insert E fuel doc content cas') doc cas0 ec).
Proof. unfold create_staged_insert_error_handler. emits_staging. Qed.

(** An operation that, past its hooks, sends [req] and only adds to the
    trace from there. *)
Ltac staging_write Ha' :=
  cbv beta iota;
  repeat first
    [ rewrite (call_hook_production E HE)
    | match goal with
      | |- context [trace (read ?f ?k ?m0)] =>
          change (read f k m0) with (k (f (self m0)) m0); cbn [self];
          rewrite ?Ha'; cbn [value]; cbv beta iota zeta
      end ];
  unfold execute_mutate at 1; rewrite then_apply; unfold emit at 1, ask at 1;
  cbn [self world trace];
  match goal with
  | |- context [execute_mutate_in E ?r ?w0] =>
      let resp := fresh "resp" in
      let w2 := fresh "w" in
      destruct (execute_mutate_in E r w0) as [resp w2]; exists r;
      match goal with
      | |- context [trace (?k (Machine ?a0 w2 ?t0))] =>
          let Hk := fresh "Hk" in
          let l := fresh "l" in
          let Hl := fresh "Hl" in
          assert (Hk : emits stages_in_xattrs k) by emits_staging;
          destruct (Hk (Machine a0 w2 t0)) as (l & Hl & _);
          exists l; rewrite Hl; cbn [trace]; rewrite <- app_assoc; split; reflexivity
      end
  end.

(** After the ATR is selected the first event is the ATR-PENDING write,
    however that write ends. *)
Lemma select_and_pending_first (fuel : nat) (doc : document_id)
    (cb : option transaction_operation_failed -> action W)
    (a : attempt_context_impl) (w : W) (tr : list event) :
  (forall v, emits stages_in_xattrs (cb v)) ->
  atr_id_ a = None ->
  staged_mutations_ a = [] ->
  expiry_overtime_mode_ a = false ->
  in_time E (Machine a w tr) ->
  let pending := atr_pending_request (with_atr_selected E a doc) (selected_atr E doc) in
  exists rest,
    trace (select_atr_if_needed_unlocked E (S fuel) doc cb (Machine a w tr))
    = tr ++ ev_mutate_in pending :: rest.
Proof.
  intros Hcb Hatr Hq Hover Htime pending.
  rewrite (select_and_pending_production fuel doc cb a w tr) by assumption.
  cbv zeta. fold pending.
  assert (Hvia : forall v a' w', exists rest,
            trace (cb v (Machine a' w' (tr ++ [ev_mutate_in pending])))
            = tr ++ ev_mutate_in pending :: rest).
  { intros v a' w'. destruct (Hcb v (Machine a' w' (tr ++ [ev_mutate_in pending])))
      as (l & Hl & _).
    exists l. rewrite Hl. cbn [trace]. rewrite <- app_assoc. reflexivity. }
  destruct (mresp_ec (fst (execute_mutate_in E pending w))) as [ec |]; [| apply Hvia].
  destruct ec; try apply Hvia.
  match goal with
  | |- context [set_atr_pending_locked E fuel doc cb ?m1] =>
      destruct (emits_set_atr_pending E fuel doc cb Hcb m1) as (l & Hl & _)
  end.
  rewrite Hl. cbn [trace]. rewrite <- app_assoc. cbn [app]. eexists. reflexivity.
Qed.

(** The first mutation of an attempt writes to the ATR before it writes to
    the document.  Whichever of [insert], [replace] and [remove] comes first
    (for [replace] and [remove]: of a document on which no other transaction
    has anything staged), its first request is the ATR-PENDING write to the
    ATR of the document's vbucket, however that write ends.  When the write
    fails with a class that is settled at once, the operation completes with
    that failure and no request is made to the document.  When it succeeds,
    the next request of each of the three is the staging write to the
    document; the attempt is PENDING by then, as the completed [insert]
    shows. *)
Theorem first_mutation_writes_the_atr_first (fuel : nat)
    (document : transaction_get_result) (content : string) (m : machine W) :
  is_done_ (self m) = false ->
  in_time E m ->
  expiry_overtime_mode_ (self m) = false ->
  atr_id_ (self m) = None ->
  staged_mutations_ (self m) = [] ->
  writable_by (self m) document ->
  let doc := doc_id document in
  let a1 := with_atr_selected E (self m) doc in
  let pending := atr_pending_request a1 (selected_atr E doc) in
  let presp := fst (execute_mutate_in E pending (world m)) in
  let w1 := snd (execute_mutate_in E pending (world m)) in
  let ops := [insert_raw E (S fuel) doc content;
              replace_raw E (S fuel) document content;
              remove E (S fuel) document] in
  mreq_id pending = selected_atr E doc
  /\ Forall (fun op : action W =>
               exists rest, new_events op m = ev_mutate_in pending :: rest) ops
  /\ (forall ec,
        mresp_ec presp = Some ec ->
        ec ∉ [FAIL_AMBIGUOUS; FAIL_PATH_ALREADY_EXISTS] ->
        Forall (fun op : action W =>
                  exists e a',
                    op m = Machine a' w1 (trace m ++ [ev_mutate_in pending; ev_error e])
                    /\ tof_ec e = ec) ops)
  /\ (mresp_ec presp = None ->
      let a2 := set_state PENDING a1 in
      in_time E (Machine a2 w1 []) ->
      Forall (fun op : action W =>
                exists req rest,
                  new_events op m = ev_mutate_in pending :: ev_mutate_in req :: rest
                  /\ mreq_id req = doc) ops
      /\ let req := staged_insert_request a2 doc content 0 in
         let resp := fst (execute_mutate_in E req w1) in
         (mresp_ec resp = None ->
          let out := inserted_document a2 (selected_atr E doc) doc content
                       (mresp_cas resp) in
          insert_raw E (S fuel) doc content m
          = Machine (set_staged_mutations_ [Staged out content INSERT] a2)
                    (snd (execute_mutate_in E req w1))
                    (trace m ++ [ev_mutate_in pending; ev_mutate_in req;
                                 ev_result (Some out)]))).
Proof.
  intros Hdone Htime Hover Hatr Hq Hfree doc a1 pending presp w1 ops.
  (* each operation is the selection of the ATR followed by its staging *)
  set (stage_insert := fun err : option transaction_operation_failed =>
         match err with
         | Some err => op_completed_with_error (W := W) err
         | None => create_staged_insert E (S fuel) doc content 0
         end).
  assert (Hins : insert_raw E (S fuel) doc content m
                 = select_atr_if_needed_unlocked E (S fuel) doc stage_insert m).
  { unfold insert_raw, cache_error_async.
    rewrite then_apply, check_if_done_not_done by exact Hdone.
    destruct m as [a w tr]. cbn [self world trace] in *.
    unfold read at 1. cbn [self]. rewrite Hq.
    change (check_for_own_write [] doc) with (@None staged_mutation). cbv iota.
    rewrite (check_expiry_pre_commit_production E HE) by exact Htime. reflexivity. }
  assert (Hrep : exists stage_replace,
             replace_raw E (S fuel) document content m
             = select_atr_if_needed_unlocked E (S fuel) doc stage_replace m
             /\ (forall err, stage_replace (Some err) = op_completed_with_error err)
             /\ (forall v, emits stages_in_xattrs (stage_replace v))
             /\ forall a' atr w' tr',
                  atr_id_ a' = Some atr ->
                  exists req rest,
                    trace (stage_replace None (Machine a' w' tr'))
                    = tr' ++ ev_mutate_in req :: rest
                    /\ mreq_id req = doc).
  { unfold replace_raw, cache_error_async.
    rewrite then_apply, check_if_done_not_done by exact Hdone.
    destruct m as [a w tr]. cbn [self world trace] in *.
    rewrite (check_expiry_pre_commit_production E HE) by exact Htime.
    rewrite (check_and_handle_writable E) by exact Hfree.
    match goal with
    | |- context [select_atr_if_needed_unlocked E (S fuel) (doc_id document) ?cb _] =>
        exists cb
    end.
    split; [reflexivity | split; [reflexivity | split]].
    - intros [err |]; emits_staging.
    - intros a' atr w' tr' Ha'. staging_write Ha'. }
  assert (Hrem : exists stage_remove,
             remove E (S fuel) document m
             = select_atr_if_needed_unlocked E (S fuel) doc stage_remove m
             /\ (forall err, stage_remove (Some err) = op_completed_with_error err)
             /\ (forall v, emits stages_in_xattrs (stage_remove v))
             /\ forall a' atr w' tr',
                  atr_id_ a' = Some atr ->
                  exists req rest,
                    trace (stage_remove None (Machine a' w' tr'))
                    = tr' ++ ev_mutate_in req :: rest
                    /\ mreq_id req = doc).
  { unfold remove, cache_error_async.
    rewrite then_apply, check_if_done_not_done by exact Hdone.
    destruct m as [a w tr]. cbn [self world trace] in *.
    rewrite (check_expiry_pre_commit_production E HE) by exact Htime.
    unfold read at 1. cbn [self]. rewrite Hq.
    change (find_insert [] (doc_id document)) with (@None staged_mutation). cbv iota.
    rewrite (check_and_handle_writable E) by exact Hfree.
    match goal with
    | |- context [select_atr_if_needed_unlocked E (S fuel) (doc_id document) ?cb _] =>
        exists cb
    end.
    split; [reflexivity | split; [reflexivity | split]].
    - intros [err |]; emits_staging.
    - intros a' atr w' tr' Ha'. staging_write Ha'. }
  destruct Hrep as (stage_replace & Hrep & Hrep_err & Hrep_emits & Hrep_ok).
  destruct Hrem as (stage_remove & Hrem & Hrem_err & Hrem_emits & Hrem_ok).
  assert (Hins_emits : forall v, emits stages_in_xattrs (stage_insert v)).
  { intros [err |]; subst stage_insert; cbv beta iota; emits_staging. }
  assert (Hfirst : forall cb : option transaction_operation_failed -> action W,
            (forall v, emits stages_in_xattrs (cb v)) ->
            exists rest,
              new_events (select_atr_if_needed_unlocked E (S fuel) doc cb) m
              = ev_mutate_in pending :: rest).
  { intros cb Hcb. unfold new_events. destruct m as [a w tr]. cbn [self world trace] in *.
    destruct (select_and_pending_first fuel doc cb a w tr Hcb Hatr Hq Hover Htime)
      as [rest Hrest].
    exists rest. rewrite Hrest, drop_app_length. reflexivity. }
  assert (Hsel : forall cb : option transaction_operation_failed -> action W,
            (forall err, cb (Some err) = op_completed_with_error err) ->
            forall ec, mresp_ec presp = Some ec ->
            ec ∉ [FAIL_AMBIGUOUS; FAIL_PATH_ALREADY_EXISTS] ->
            exists e a',
              select_atr_if_needed_unlocked E (S fuel) doc cb m
              = Machine a' w1 (trace m ++ [ev_mutate_in pending; ev_error e])
              /\ tof_ec e = ec).
  { intros cb Hcb ec Hec Hsettled. destruct m as [a w tr]. cbn [self world trace] in *.
    rewrite (select_and_pending_production fuel doc cb a w tr) by assumption.
    cbv zeta. fold a1. fold pending. fold presp. fold w1. rewrite Hec.
    rewrite !elem_of_cons, elem_of_nil in Hsettled.
    destruct ec; try (exfalso; apply Hsettled; auto; fail);
      rewrite Hcb; unfold op_completed_with_error, emit; cbn [self world trace];
      rewrite <- app_assoc; do 2 eexists; split; reflexivity. }
  assert (Hnew : forall op1 op2 : action W,
            op1 m = op2 m -> new_events op1 m = new_events op2 m).
  { intros op1 op2 H. unfold new_events. rewrite H. reflexivity. }
  split; [reflexivity | split; [| split]].
  - subst ops. repeat apply List.Forall_cons; try apply List.Forall_nil.
    + rewrite (Hnew _ _ Hins). apply Hfirst, Hins_emits.
    + rewrite (Hnew _ _ Hrep). apply Hfirst, Hrep_emits.
    + rewrite (Hnew _ _ Hrem). apply Hfirst, Hrem_emits.
  - intros ec Hec Hsettled.
    subst ops. repeat apply List.Forall_cons; try apply List.Forall_nil.
    + rewrite Hins. apply Hsel; [reflexivity | assumption | assumption].
    + rewrite Hrep. apply Hsel; assumption.
    + rewrite Hrem. apply Hsel; assumption.
  - intros Hok a2 Htime2.
    assert (Hthen : forall cb : option transaction_operation_failed -> action W,
              select_atr_if_needed_unlocked E (S fuel) doc cb m
              = cb None (Machine a2 w1 (trace m ++ [ev_mutate_in pending]))).
    { intros cb. destruct m as [a w tr]. cbn [self world trace] in *.
      rewrite (select_and_pending_production fuel doc cb a w tr) by assumption.
      cbv zeta. fold a1. fold pending. fold presp. fold w1. rewrite Hok. reflexivity. }
    assert (Hsecond : forall cb : option transaction_operation_failed -> action W,
              (exists req rest,
                 trace (cb None (Machine a2 w1 (trace m ++ [ev_mutate_in pending])))
                 = (trace m ++ [ev_mutate_in pending]) ++ ev_mutate_in req :: rest
                 /\ mreq_id req = doc) ->
              exists req rest,
                new_events (select_atr_if_needed_unlocked E (S fuel) doc cb) m
                = ev_mutate_in pending :: ev_mutate_in req :: rest
                /\ mreq_id req = doc).
    { intros cb Hcb. unfold new_events. rewrite Hthen.
      destruct Hcb as (req & rest & Htr & Hid).
      exists req, rest. rewrite Htr, <- app_assoc, drop_app_length. split; [reflexivity | exact Hid]. }
    assert (Hcsi : create_staged_insert E (S fuel) doc content 0
                     (Machine a2 w1 (trace m ++ [ev_mutate_in pending]))
                   = _)
      by (apply (create_staged_insert_production fuel doc (selected_atr E doc)
                   content 0);
          first [reflexivity | right; exact Htime2]).
    cbv zeta in Hcsi.
    split.
    + subst ops. repeat apply List.Forall_cons; try apply List.Forall_nil.
      * rewrite (Hnew _ _ Hins). apply Hsecond.
        subst stage_insert. cbv beta iota. rewrite Hcsi.
        eexists.
        destruct (mresp_ec (fst (execute_mutate_in E (staged_insert_request a2 doc content 0)
                                   w1))) as [ec |].
        -- match goal with
           | |- context [trace (?k ?m1)] =>
               destruct (emits_insert_handler fuel doc content 0 ec m1) as (l & Hl & _)
           end.
           exists l. rewrite Hl. cbn [trace]. rewrite <- app_assoc.
           split; reflexivity.
        -- eexists. cbn [trace]. split; reflexivity.
      * rewrite (Hnew _ _ Hrep). apply Hsecond, (Hrep_ok a2 (selected_atr E doc)).
        reflexivity.
      * rewrite (Hnew _ _ Hrem). apply Hsecond, (Hrem_ok a2 (selected_atr E doc)).
        reflexivity.
    + intros req resp Hresp out.
      rewrite Hins, Hthen. subst stage_insert. cbv beta iota. rewrite Hcsi.
      fold req. fold resp. rewrite Hresp.
      replace (staged_mutations_ a2) with (staged_mutations_ (self m)) by reflexivity.
      rewrite Hq. rewrite <- app_assoc. reflexivity.
Qed.

End Scenarios.

(** The scripted cluster has the production hooks. *)
Lemma sim_has_production_hooks : production_hooks Sim.the_cluster.
Proof.
  split; reflexivity.
Qed.

Lemma path_not_found_has_production_hooks :
  production_hooks Inputs.path_not_found_cluster.
Proof.
  split; reflexivity.
Qed.

(** ** get_optional against the reference lookup *)

Section GetReference.
Context {W : Type} (E : cluster W) (HE : production_hooks E).
Hypothesis compatible : forall stg fc, forward_compat_check E stg fc = None.





End GetReference.

(** [add] keeps the queue at one entry for a document at most. *)
Lemma queue_add_one_entry_per_document (q : list staged_mutation) (mu : staged_mutation) :
  NoDup (List.map (fun x => doc_id (sm_doc x)) q) ->
  NoDup (List.map (fun x => doc_id (sm_doc x)) (queue_add q mu)).
Proof.
  intros Hnd. unfold queue_add. rewrite List.map_app. cbn [List.map].
  apply NoDup_app. split; [| split; [| apply NoDup_singleton]].
  - induction q as [| x q IH]; [constructor |].
    cbn [List.map] in Hnd. apply NoDup_cons in Hnd as [Hx Hnd].
    cbn [List.filter]. destruct (negb _); [| exact (IH Hnd)].
    cbn [List.map]. apply NoDup_cons. split; [| exact (IH Hnd)].
    intros Hin. apply Hx. apply list_elem_of_In in Hin. apply list_elem_of_In.
    apply List.in_map_iff in Hin as (y & Hy & Hin). apply List.filter_In in Hin as [Hin _].
    apply List.in_map_iff. exists y. split; assumption.
  - intros i Hi Hmu. apply list_elem_of_In in Hi.
    apply List.in_map_iff in Hi as (y & Hy & Hin). apply List.filter_In in Hin as [_ Hin].
    apply list_elem_of_singleton in Hmu. subst i.
    apply negb_true_iff, bool_decide_eq_false in Hin. contradiction.
Qed.



Lemma attempt_reads_its_own_writes_witness :
  get Sim.the_cluster (Sim.doc "b") Inputs.after_insert_b
  = Machine (self Inputs.after_insert_b) (world Inputs.after_insert_b)
      [ev_result (Some (create_from Inputs.inserted_b "x"))]
  /\ get_optional Sim.the_cluster (Sim.doc "a") Inputs.after_remove_a
     = Machine (self Inputs.after_remove_a) (world Inputs.after_remove_a)
         [ev_result None].
Proof.
  split.
  - apply (attempt_reads_its_own_writes Sim.the_cluster sim_has_production_hooks
             (Sim.doc "b") Inputs.after_insert_b); reflexivity.
  - apply (attempt_reads_its_own_writes Sim.the_cluster sim_has_production_hooks
             (Sim.doc "a") Inputs.after_remove_a); reflexivity.
Defined.

Lemma get_completes_twice_on_path_not_found_witness :
  completions (get Inputs.path_not_found_cluster (Sim.doc "a")) (Inputs.ready_to_write [])
  = [ev_error (operation_failed FAIL_OTHER); ev_error (operation_failed FAIL_OTHER)].
Proof.
  apply (get_completes_twice_on_path_not_found Inputs.path_not_found_cluster
           path_not_found_has_production_hooks (Sim.doc "a") (Inputs.ready_to_write []));
    reflexivity.
Defined.

Lemma replace_stages_one_guarded_write_witness :
  let m := Inputs.ready_to_write [] in
  let document := Sim.plain "a" "{v:1}" in
  let m' := replace_raw Sim.the_cluster 5 document "{v:2}" m in
  staged_mutations_ (self m') = [Staged (set_cas document 101) "{v:2}" REPLACE]
  /\ completions (replace_raw Sim.the_cluster 5 document "{v:2}") m
     = [ev_result (Some (set_cas document 101))].
Proof.
  intros m document m'.
  destruct (replace_stages_one_guarded_write Sim.the_cluster sim_has_production_hooks
              5 document "{v:2}" (Sim.doc "_txn:atr-1") m)
    as (_ & _ & _ & H).
  - reflexivity.
  - reflexivity.
  - reflexivity.
  - left. reflexivity.
  - reflexivity.
  - cbv zeta in H. fold m' in H.
    change (mresp_ec _) with (@None error_class) in H. cbv iota in H.
    destruct H as [Htrace Hself]. split.
    + rewrite Hself. reflexivity.
    + unfold completions, new_events. fold m'. rewrite Htrace.
      cbn [trace]. rewrite drop_app_length. reflexivity.
Defined.

Lemma replace_again_updates_the_entry_witness :
  let document := Sim.plain "b" "new" in
  let m' := replace_raw Sim.the_cluster 5 document "newer" Inputs.after_replace_b in
  List.length (staged_mutations_ (self m')) = 1%nat
  /\ find_replace (staged_mutations_ (self m')) (Sim.doc "b")
     = Some (Staged (set_cas document 101) "newer" REPLACE).
Proof.
  intros document m'.
  destruct (replace_again_updates_the_entry Sim.the_cluster sim_has_production_hooks
              5 document "newer" (Sim.doc "_txn:atr-1")
              (Staged document "new" REPLACE) Inputs.after_replace_b)
    as (_ & Hlen & Hfind & _).
  - reflexivity.
  - reflexivity.
  - reflexivity.
  - left. reflexivity.
  - reflexivity.
  - reflexivity.
  - split; [exact Hlen | exact Hfind].
Defined.

Lemma replace_after_insert_reads_back_the_insert_witness :
  let m' := replace_raw Sim.the_cluster 5 Inputs.inserted_b "y" Inputs.after_insert_b in
  completions (get_optional Sim.the_cluster (Sim.doc "b")) m'
  = [ev_result (Some (set_cas Inputs.inserted_b 101))].
Proof.
  intros m'.
  destruct (replace_after_insert_reads_back_the_insert Sim.the_cluster
              sim_has_production_hooks 5 Inputs.inserted_b "y" (Sim.doc "_txn:atr-1")
              (Staged Inputs.inserted_b "x" INSERT) Inputs.after_insert_b)
    as [_ H].
  - reflexivity.
  - reflexivity.
  - reflexivity.
  - right. reflexivity.
  - reflexivity.
  - reflexivity.
  - reflexivity.
  - reflexivity.
  - reflexivity.
  - fold m' in H. unfold completions, new_events.
    change (doc_id Inputs.inserted_b) with (Sim.doc "b") in H. rewrite H.
    cbn [trace]. rewrite drop_app_length. reflexivity.
Defined.

Lemma remove_stages_one_guarded_write_witness :
  let m := Inputs.ready_to_write [Some FAIL_EXPIRY] in
  let document := Sim.plain "a" "{v:1}" in
  let m' := remove Sim.the_cluster 5 document m in
  exists e,
    completions (remove Sim.the_cluster 5 document) m = [ev_error e]
    /\ tof_expired e = true /\ tof_retry e = false
    /\ expiry_overtime_mode_ (self m') = true
    /\ staged_mutations_ (self m') = [].
Proof.
  intros m document m'.
  destruct (remove_stages_one_guarded_write Sim.the_cluster sim_has_production_hooks
              5 document (Sim.doc "_txn:atr-1") m)
    as (_ & _ & _ & H).
  - reflexivity.
  - reflexivity.
  - reflexivity.
  - left. reflexivity.
  - reflexivity.
  - cbv zeta in H. fold m' in H.
    change (mresp_ec _) with (Some FAIL_EXPIRY) in H. cbv iota in H.
    destruct H as (e & Htrace & Hself & _ & Hretry & _ & Hexpired).
    exists e. split; [| split; [exact Hexpired | split; [exact Hretry |]]].
    + unfold completions, new_events. fold m'. rewrite Htrace.
      cbn [trace]. rewrite drop_app_length. reflexivity.
    + rewrite Hself. split; reflexivity.
Defined.

Lemma removed_document_is_gone_for_the_attempt_witness :
  let m := Inputs.ready_to_write [] in
  let document := Sim.plain "a" "{v:1}" in
  let m' := remove Sim.the_cluster 5 document m in
  completions (get_optional Sim.the_cluster (Sim.doc "a")) m' = [ev_result None].
Proof.
  intros m document m'.
  destruct (removed_document_is_gone_for_the_attempt Sim.the_cluster
              sim_has_production_hooks 5 document (Sim.doc "_txn:atr-1") m)
    as [H _].
  - reflexivity.
  - reflexivity.
  - reflexivity.
  - left. reflexivity.
  - reflexivity.
  - reflexivity.
  - reflexivity.
  - fold m' in H. unfold completions, new_events.
    change (doc_id document) with (Sim.doc "a") in H. rewrite H.
    cbn [trace]. rewrite drop_app_length. reflexivity.
Defined.

Lemma insert_stages_a_hidden_document_witness :
  let m := Inputs.ready_to_write [] in
  let m' := insert_raw Sim.the_cluster 5 (Sim.doc "n") "{v:1}" m in
  let out := inserted_document (self m) (Sim.doc "_txn:atr-1") (Sim.doc "n") "{v:1}" 101 in
  trace m' = [ev_mutate_in (staged_insert_request (self m) (Sim.doc "n") "{v:1}" 0);
              ev_result (Some out)]
  /\ check_for_own_write (staged_mutations_ (self m')) (Sim.doc "n")
     = Some (Staged out "{v:1}" INSERT).
Proof.
  intros m m' out.
  destruct (insert_stages_a_hidden_document Sim.the_cluster sim_has_production_hooks
              4 (Sim.doc "n") (Sim.doc "_txn:atr-1") "{v:1}" m)
    as [_ H].
  - reflexivity.
  - reflexivity.
  - reflexivity.
  - reflexivity.
  - reflexivity.
  - cbv zeta in H. fold m' in H.
    change (mresp_ec _) with (@None error_class) in H. cbv iota in H.
    destruct H as (Htrace & _ & _ & Hown). split; [exact Htrace | exact Hown].
Defined.

Lemma insert_of_existing_document_fails_witness :
  let m := Inputs.ready_to_write [Some FAIL_DOC_ALREADY_EXISTS] in
  completions (insert_raw Sim.the_cluster 5 (Sim.doc "a") "{v:2}") m
  = [ev_error (operation_failed FAIL_DOC_ALREADY_EXISTS)]
  /\ self (insert_raw Sim.the_cluster 5 (Sim.doc "a") "{v:2}" m) = self m.
Proof.
  intros m.
  unshelve epose proof
    (insert_of_existing_document_fails Sim.the_cluster sim_has_production_hooks
       4 (Sim.doc "a") (Sim.doc "_txn:atr-1") "{v:2}" m _ _ _ _ _ _ _ _ false _) as H.
  - reflexivity.
  - reflexivity.
  - reflexivity.
  - reflexivity.
  - reflexivity.
  - apply list_elem_of_here.
  - reflexivity.
  - reflexivity.
  - split; reflexivity.
  - cbv zeta in H. unfold completions, new_events. rewrite H. split; reflexivity.
Defined.

Lemma insert_over_a_tombstone_witness :
  let m := Inputs.over_tombstone in
  let m' := insert_raw Sim.the_cluster 5 (Sim.doc "t") "{v:1}" m in
  let again := staged_insert_request (self m) (Sim.doc "t") "{v:1}" 7 in
  let out := inserted_document (self m) (Sim.doc "_txn:atr-1") (Sim.doc "t") "{v:1}" 102 in
  mreq_store_semantics again = sem_replace
  /\ trace m'
     = [ev_mutate_in (staged_insert_request (self m) (Sim.doc "t") "{v:1}" 0);
        ev_lookup_in (get_doc_request (Sim.doc "t"));
        ev_mutate_in again; ev_result (Some out)].
Proof.
  intros m m' again out.
  unshelve epose proof
    (insert_over_a_tombstone Sim.the_cluster sim_has_production_hooks
       3 (Sim.doc "t") (Sim.doc "_txn:atr-1") "{v:1}" m _ _ _ _ _ _ _ _ _ _ _ _ _) as H.
  - reflexivity.
  - reflexivity.
  - reflexivity.
  - reflexivity.
  - reflexivity.
  - apply list_elem_of_here.
  - reflexivity.
  - reflexivity.
  - reflexivity.
  - reflexivity.
  - reflexivity.
  - reflexivity.
  - reflexivity.
  - cbv zeta in H. destruct H as (_ & Hsem & Hrun). split.
    + apply Hsem. discriminate.
    + subst m'. rewrite Hrun. reflexivity.
Defined.

Lemma first_mutation_writes_the_atr_first_witness :
  let m := Inputs.starting [Some FAIL_TRANSIENT] in
  let document := Sim.plain "a" "{v:1}" in
  let atr := selected_atr Sim.the_cluster (Sim.doc "a") in
  let pending :=
    atr_pending_request (with_atr_selected Sim.the_cluster (self m) (Sim.doc "a")) atr in
  atr = Sim.doc "_txn:atr-1"
  /\ mreq_id pending = atr
  /\ (exists rest,
        new_events (replace_raw Sim.the_cluster 5 document "{v:2}") m
        = ev_mutate_in pending :: rest)
  /\ exists e a',
       remove Sim.the_cluster 5 document m
       = Machine a' (Sim.Sim 1000 ∅ ∅ [] 101 []) [ev_mutate_in pending; ev_error e]
       /\ tof_ec e = FAIL_TRANSIENT.
Proof.
  intros m document atr pending.
  destruct (first_mutation_writes_the_atr_first Sim.the_cluster sim_has_production_hooks
              4 document "{v:2}" m)
    as (Hid & Hfirst & Hfail & _).
  - reflexivity.
  - reflexivity.
  - reflexivity.
  - reflexivity.
  - reflexivity.
  - left. reflexivity.
  - split; [reflexivity | split; [exact Hid | split]].
    + apply Forall_cons in Hfirst as [_ Hfirst].
      apply Forall_cons in Hfirst as [Hreplace _]. exact Hreplace.
    + specialize (Hfail FAIL_TRANSIENT eq_refl).
      assert (Hnot : FAIL_TRANSIENT ∉ [FAIL_AMBIGUOUS; FAIL_PATH_ALREADY_EXISTS]).
      { intros Hin. rewrite !elem_of_cons, elem_of_nil in Hin.
        destruct Hin as [Hin | [Hin | []]]; discriminate Hin. }
      specialize (Hfail Hnot).
      apply Forall_cons in Hfail as [_ Hfail].
      apply Forall_cons in Hfail as [_ Hfail].
      apply Forall_cons in Hfail as [Hremove _].
      destruct Hremove as (e & a' & Hrun & Hec).
      exists e, a'. split; [exact Hrun | exact Hec].
Defined.

(** ** commit and rollback *)

(** A call to [commit] that returns leaves the attempt done, whatever the
    cluster answered on the way: [commit] never returns from an attempt it
    has not finished. *)
Theorem commit_returns_only_when_done {W} (E : cluster W) (fuel : nat)
    (m : machine W) :
  fst (commit E fuel m) = returned tt ->
  is_done_ (self (snd (commit E fuel m))) = true.
Proof.
  unfold commit, check_expiry_pre_commit, has_expired_client_side, read, clock, ask,
    then_, modify, throw_failed, throw, lift, mbind, blocking_bind.
  cbn [self world trace].
  destruct (hook_has_expired_client_side E STAGE_BEFORE_COMMIT None (world m)) as [h w1].
  cbn [self world trace].
  destruct (_ || _); cbn [self world trace fst snd]; [discriminate |].
  destruct (atr_id_ (self m)) as [atr |], (is_done_ (self m));
    cbn [fst snd self]; try discriminate; try reflexivity.
  destruct (negb (is_empty (key atr))); cbn [fst snd self]; [| reflexivity].
  destruct (retry_op_exp E fuel (atr_commit E fuel) _) as [[u | e |] m1];
    cbn [fst snd]; try discriminate.
  destruct (run_queue (queue_commit E) m1) as [[u' | e |] m2];
    cbn [fst snd]; try discriminate.
  destruct (atr_complete E m2) as [[u'' | e |] m3];
    cbn [fst snd]; try discriminate.
  reflexivity.
Qed.


Section Blocking.
Context {W : Type} (E : cluster W) (HE : production_hooks E).

Lemma retry_op_exp_once {A} (fuel : nat) (f : blocking W A) (m : machine W) :
  fst (f m) <> thrown retry_operation ->
  retry_op_exp E (S fuel) f m = f m.
Proof.
  intros H. cbn [retry_op_exp]. unfold try_catch.
  destruct (f m) as [[a | e |] m']; try reflexivity.
  destruct e; try reflexivity. cbn [fst] in H. congruence.
Qed.

Lemma atr_commit_production (fuel : nat) (atr : document_id)
    (a : attempt_context_impl) (w : W) (tr : list event) :
  expiry_overtime_mode_ a = true \/ in_time E (Machine a w tr) ->
  atr_id_ a = Some atr ->
  let creq := extract_to (atr_prefix (id a)) (staged_mutations_ a)
                (atr_commit_request a atr) in
  let cresp := fst (execute_mutate_in E creq w) in
  let m1 := Machine a (snd (execute_mutate_in E creq w)) (tr ++ [ev_mutate_in creq]) in
  atr_commit E fuel (Machine a w tr)
  = match mresp_ec cresp with
    | None =>
        (returned tt, Machine (set_state COMMITTED a) (world m1) (trace m1))
    | Some FAIL_EXPIRY =>
        (thrown (operation_failed_exn (expired (operation_failed FAIL_EXPIRY))),
         Machine (set_expiry_overtime_mode_ true a) (world m1) (trace m1))
    | Some FAIL_AMBIGUOUS =>
        try_catch (retry_op E fuel (atr_commit_ambiguity_resolution E))
          (fun e => match e with
                    | retry_atr_commit => throw retry_operation
                    | _ => throw e
                    end) m1
    | Some FAIL_TRANSIENT =>
        (thrown (operation_failed_exn (retry (operation_failed FAIL_TRANSIENT))), m1)
    | Some FAIL_HARD =>
        (thrown (operation_failed_exn (no_rollback (operation_failed FAIL_HARD))), m1)
    | Some ec => (thrown (operation_failed_exn (operation_failed ec)), m1)
    end.
Proof.
  intros Htime Hatr creq cresp m1.
  unfold atr_commit, try_catch. unfold read at 1. cbn [self fst snd]. rewrite Hatr.
  rewrite (error_if_expired_production E HE) by exact Htime.
  unfold throw_if at 1. rewrite (call_hook_production E HE). unfold throw_if at 1.
  unfold read at 1. cbn [self]. fold creq.
  unfold execute_mutate, then_, emit, ask. cbn [self world trace].
  subst m1 cresp. destruct (execute_mutate_in E creq w) as [cresp w1].
  cbn [fst snd world trace].
  destruct (mresp_ec cresp) as [ec |].
  - unfold throw_if, throw. destruct ec; reflexivity.
  - unfold throw_if at 1. rewrite (call_hook_production E HE). reflexivity.
Qed.

Lemma atr_complete_production (atr : document_id) (a : attempt_context_impl)
    (w : W) (tr : list event) :
  expiry_overtime_mode_ a = true \/ in_time E (Machine a w tr) ->
  atr_id_ a = Some atr ->
  let rreq := atr_remove_request a atr in
  let rresp := fst (execute_mutate_in E rreq w) in
  let w' := snd (execute_mutate_in E rreq w) in
  atr_complete E (Machine a w tr)
  = match mresp_ec rresp with
    | None =>
        (returned tt,
         Machine (set_state COMPLETED a) w' (tr ++ [ev_mutate_in rreq]))
    | Some FAIL_HARD =>
        (thrown (operation_failed_exn
                   (failed_post_commit (no_rollback (operation_failed FAIL_HARD)))),
         Machine a w' (tr ++ [ev_mutate_in rreq]))
    | Some _ => (returned tt, Machine a w' (tr ++ [ev_mutate_in rreq]))
    end.
Proof.
  intros Htime Hatr rreq rresp w'.
  unfold atr_complete, try_catch.
  rewrite (call_hook_production E HE). unfold throw_if at 1.
  rewrite (error_if_expired_production E HE) by exact Htime.
  unfold throw_if at 1. unfold read at 1. cbn [self fst snd]. rewrite Hatr.
  fold rreq. unfold execute_mutate, then_, emit, ask. cbn [self world trace].
  subst rresp w'. destruct (execute_mutate_in E rreq w) as [rresp w'].
  cbn [fst snd].
  destruct (mresp_ec rresp) as [ec |].
  - unfold throw_if, throw. destruct ec; reflexivity.
  - unfold throw_if at 1. rewrite (call_hook_production E HE). reflexivity.
Qed.

(** [commit] of an attempt that has mutated nothing sends nothing and marks
    the attempt done; [commit] of an attempt that is done already is refused
    with FAIL_OTHER, no rollback; and once the transaction has run out of
    time [commit] is refused with FAIL_EXPIRY before anything is sent, and
    the attempt enters expiry-overtime mode. *)
Theorem commit_without_mutations_or_too_late (fuel : nat) (m : machine W) :
  (in_time E m -> atr_id_ (self m) = None -> is_done_ (self m) = false ->
   commit E fuel m
   = (returned tt, Machine (set_is_done_ true (self m)) (world m) (trace m)))
  /\ (in_time E m -> is_done_ (self m) = true ->
      commit E fuel m
      = (thrown (operation_failed_exn (no_rollback (operation_failed FAIL_OTHER))),
         Machine (self m) (world m) (trace m)))
  /\ (~ in_time E m ->
      commit E fuel m
      = (thrown (operation_failed_exn (expired (operation_failed FAIL_EXPIRY))),
         Machine (set_expiry_overtime_mode_ true (self m)) (world m) (trace m))).
Proof.
  destruct m as [a w tr]. cbn [self world trace].
  repeat split.
  - intros Htime Hatr Hdone. unfold commit.
    rewrite (check_expiry_pre_commit_production E HE) by exact Htime.
    unfold read. cbn [self]. rewrite Hatr, Hdone. reflexivity.
  - intros Htime Hdone. unfold commit.
    rewrite (check_expiry_pre_commit_production E HE) by exact Htime.
    unfold read. cbn [self]. rewrite Hdone. destruct (atr_id_ a); reflexivity.
  - intros Htime. unfold commit.
    rewrite (check_expiry_pre_commit_expired E HE) by exact Htime. reflexivity.
Qed.

(** [commit] of an attempt with staged mutations, in order: the ATR entry
    is set to COMMITTED together with the ids of the staged documents; then
    the staged mutations are written out; then the entry is removed from the
    ATR and the attempt is COMPLETED.  A failure to remove the entry does not
    fail the commit, the attempt just stays COMMITTED; only FAIL_HARD comes
    out, marked as a failure after the commit, with the attempt not done. *)
Theorem commit_sets_committed_unstages_and_completes (fuel : nat)
    (atr : document_id) (m : machine W) :
  in_time E m ->
  is_done_ (self m) = false ->
  atr_id_ (self m) = Some atr ->
  key atr <> "" ->
  let a := self m in
  let creq := extract_to (atr_prefix (id a)) (staged_mutations_ a)
                (atr_commit_request a atr) in
  let committed := execute_mutate_in E creq (world m) in
  mresp_ec (fst committed) = None ->
  let a1 := set_state COMMITTED a in
  let unstaged := queue_commit E (staged_mutations_ a) (snd committed) in
  fst unstaged = None ->
  in_time E (Machine a1 (snd unstaged) []) ->
  let rreq := atr_remove_request a1 atr in
  let removed := execute_mutate_in E rreq (snd unstaged) in
  let tr' := trace m ++ [ev_mutate_in creq; ev_mutate_in rreq] in
  commit E (S fuel) m
  = match mresp_ec (fst removed) with
    | None =>
        (returned tt,
         Machine (set_is_done_ true (set_state COMPLETED a1)) (snd removed) tr')
    | Some FAIL_HARD =>
        (thrown (operation_failed_exn
                   (failed_post_commit (no_rollback (operation_failed FAIL_HARD)))),
         Machine a1 (snd removed) tr')
    | Some _ => (returned tt, Machine (set_is_done_ true a1) (snd removed) tr')
    end.
Proof.
  intros Htime Hdone Hatr Hkey a creq committed Hcommitted a1 unstaged Hunstaged
    Htime1 rreq removed tr'.
  destruct m as [a0 w tr]. cbn [self world trace] in *. subst a.
  unfold commit.
  rewrite (check_expiry_pre_commit_production E HE) by exact Htime.
  unfold read at 1. cbn [self]. rewrite Hatr, Hdone.
  unfold is_empty. rewrite bool_decide_eq_false_2 by exact Hkey. cbn [negb].
  unfold mbind, blocking_bind.
  rewrite retry_op_exp_once;
    rewrite (atr_commit_production (S fuel) atr a0 w tr) by (auto using Htime);
    cbv zeta; fold creq; fold committed; rewrite Hcommitted; [| discriminate].
  cbn [world trace].
  unfold run_queue, read, ask. cbn [self world trace staged_mutations_ set_state].
  fold unstaged. destruct unstaged as [r w2] eqn:Hu. cbn [fst snd] in *. subst r.
  unfold ret. fold a1.
  rewrite (atr_complete_production atr a1 w2) by (first [right; exact Htime1 | exact Hatr]).
  cbv zeta. fold rreq. fold removed.
  subst tr'. rewrite <- app_assoc. cbn [app].
  destruct (mresp_ec (fst removed)) as [ec |]; [destruct ec |]; reflexivity.
Qed.

(** When the ATR-COMMIT write fails outright, nothing is unstaged: [commit]
    throws after that one request, the attempt is not COMMITTED and not done.
    The failure is marked expired for FAIL_EXPIRY (and the attempt enters
    expiry-overtime mode), asks for a retry for FAIL_TRANSIENT and forbids
    rollback for FAIL_HARD. *)
Theorem failed_commit_write_unstages_nothing (fuel : nat) (atr : document_id)
    (ec : error_class) (m : machine W) :
  in_time E m ->
  is_done_ (self m) = false ->
  atr_id_ (self m) = Some atr ->
  key atr <> "" ->
  let a := self m in
  let creq := extract_to (atr_prefix (id a)) (staged_mutations_ a)
                (atr_commit_request a atr) in
  let refused := execute_mutate_in E creq (world m) in
  mresp_ec (fst refused) = Some ec ->
  ec <> FAIL_AMBIGUOUS ->
  exists e,
    commit E (S fuel) m
    = (thrown (operation_failed_exn e),
       Machine (if bool_decide (ec = FAIL_EXPIRY)
                then set_expiry_overtime_mode_ true a else a)
               (snd refused) (trace m ++ [ev_mutate_in creq]))
    /\ tof_ec e = ec
    /\ tof_expired e = bool_decide (ec = FAIL_EXPIRY)
    /\ tof_retry e = bool_decide (ec = FAIL_TRANSIENT)
    /\ tof_rollback e = negb (bool_decide (ec = FAIL_HARD)).
Proof.
  intros Htime Hdone Hatr Hkey a creq refused Hrefused Hec.
  destruct m as [a0 w tr]. cbn [self world trace] in *. subst a.
  unfold commit.
  rewrite (check_expiry_pre_commit_production E HE) by exact Htime.
  unfold read at 1. cbn [self]. rewrite Hatr, Hdone.
  unfold is_empty. rewrite bool_decide_eq_false_2 by exact Hkey. cbn [negb].
  unfold mbind, blocking_bind.
  rewrite retry_op_exp_once;
    rewrite (atr_commit_production (S fuel) atr a0 w tr) by (auto using Htime);
    cbv zeta; fold creq; fold refused; rewrite Hrefused.
  - destruct ec; try congruence; eexists; repeat split; reflexivity.
  - destruct ec; try congruence; discriminate.
Qed.

Lemma check_expiry_during_rollback_production (place : stage) (k : option string)
    (a : attempt_context_impl) (w : W) (tr : list event) :
  check_expiry_during_commit_or_rollback E place k (Machine a w tr)
  = Machine (if expiry_overtime_mode_ a then a
             else if ctx_has_expired_client_side (overall_ a) (config_ a) (now E w)
                  then set_expiry_overtime_mode_ true a else a) w tr.
Proof.
  unfold check_expiry_during_commit_or_rollback, read. cbn [self].
  destruct (expiry_overtime_mode_ a); [reflexivity |].
  rewrite (has_expired_production E HE).
  destruct (ctx_has_expired_client_side _ _ _); reflexivity.
Qed.

Lemma atr_abort_production (atr : document_id) (a : attempt_context_impl)
    (w : W) (tr : list event) :
  expiry_overtime_mode_ a = true \/ in_time E (Machine a w tr) ->
  atr_id_ a = Some atr ->
  let areq := atr_abort_request a atr in
  let aresp := fst (execute_mutate_in E areq w) in
  let w1 := snd (execute_mutate_in E areq w) in
  let tr1 := tr ++ [ev_mutate_in areq] in
  atr_abort E (Machine a w tr)
  = match mresp_ec aresp with
    | None => (returned tt, Machine (set_state ABORTED a) w1 tr1)
    | Some ec =>
        if expiry_overtime_mode_ a
        then (thrown (operation_failed_exn
                        (expired (no_rollback (operation_failed FAIL_EXPIRY)))),
              Machine a w1 tr1)
        else
          match ec with
          | FAIL_EXPIRY =>
              (thrown retry_operation, Machine (set_expiry_overtime_mode_ true a) w1 tr1)
          | FAIL_PATH_NOT_FOUND =>
              (thrown (operation_failed_exn
                         (cause ACTIVE_TRANSACTION_RECORD_ENTRY_NOT_FOUND
                            (no_rollback (operation_failed ec)))), Machine a w1 tr1)
          | FAIL_DOC_NOT_FOUND =>
              (thrown (operation_failed_exn
                         (cause ACTIVE_TRANSACTION_RECORD_NOT_FOUND
                            (no_rollback (operation_failed ec)))), Machine a w1 tr1)
          | FAIL_ATR_FULL =>
              (thrown (operation_failed_exn
                         (cause ACTIVE_TRANSACTION_RECORD_FULL
                            (no_rollback (operation_failed ec)))), Machine a w1 tr1)
          | FAIL_HARD =>
              (thrown (operation_failed_exn (no_rollback (operation_failed ec))),
               Machine a w1 tr1)
          | _ => (thrown retry_operation, Machine a w1 tr1)
          end
    end.
Proof.
  intros Htime Hatr areq aresp w1 tr1.
  unfold atr_abort, try_catch.
  rewrite (error_if_expired_production E HE) by exact Htime.
  unfold throw_if at 1. rewrite (call_hook_production E HE). unfold throw_if at 1.
  unfold read at 1. cbn [self fst snd]. rewrite Hatr. fold areq.
  unfold execute_mutate, then_, emit, ask. cbn [self world trace].
  subst aresp w1 tr1. destruct (execute_mutate_in E areq w) as [aresp w1].
  cbn [fst snd].
  destruct (mresp_ec aresp) as [ec |].
  - unfold throw_if, throw, read. cbn [self].
    destruct (expiry_overtime_mode_ a); [reflexivity |].
    destruct ec; reflexivity.
  - unfold throw_if at 1, mbind, blocking_bind, lift, modify. cbn [self world trace].
    rewrite (call_hook_production E HE). reflexivity.
Qed.

Lemma atr_rollback_complete_production (atr : document_id)
    (a : attempt_context_impl) (w : W) (tr : list event) :
  expiry_overtime_mode_ a = true \/ in_time E (Machine a w tr) ->
  atr_id_ a = Some atr ->
  let rreq := atr_remove_request a atr in
  let rresp := fst (execute_mutate_in E rreq w) in
  let w1 := snd (execute_mutate_in E rreq w) in
  let tr1 := tr ++ [ev_mutate_in rreq] in
  atr_rollback_complete E (Machine a w tr)
  = match mresp_ec rresp with
    | None =>
        (returned tt, Machine (set_is_done_ true (set_state ROLLED_BACK a)) w1 tr1)
    | Some ec =>
        if expiry_overtime_mode_ a
        then (thrown (operation_failed_exn
                        (expired (no_rollback (operation_failed FAIL_EXPIRY)))),
              Machine a w1 tr1)
        else
          match ec with
          | FAIL_DOC_NOT_FOUND | FAIL_PATH_NOT_FOUND =>
              (returned tt, Machine (set_is_done_ true a) w1 tr1)
          | FAIL_HARD =>
              (thrown (operation_failed_exn (no_rollback (operation_failed ec))),
               Machine a w1 tr1)
          | FAIL_EXPIRY =>
              (thrown (operation_failed_exn
                         (expired (no_rollback (operation_failed ec)))),
               Machine a w1 tr1)
          | _ => (thrown retry_operation, Machine a w1 tr1)
          end
    end.
Proof.
  intros Htime Hatr rreq rresp w1 tr1.
  unfold atr_rollback_complete, try_catch.
  rewrite (error_if_expired_production E HE) by exact Htime.
  unfold throw_if at 1. rewrite (call_hook_production E HE). unfold throw_if at 1.
  unfold read at 1. cbn [self fst snd]. rewrite Hatr. fold rreq.
  unfold execute_mutate, then_, emit, ask. cbn [self world trace].
  subst rresp w1 tr1. destruct (execute_mutate_in E rreq w) as [rresp w1].
  cbn [fst snd].
  destruct (mresp_ec rresp) as [ec |].
  - unfold throw_if, throw, read. cbn [self].
    destruct (expiry_overtime_mode_ a); [reflexivity |].
    destruct ec; reflexivity.
  - unfold throw_if at 1, mbind, blocking_bind, lift, modify. cbn [self world trace].
    rewrite (call_hook_production E HE). reflexivity.
Qed.

(** [rollback] of an attempt that has no ATR, or whose state is still
    NOT_STARTED, sends nothing and marks the attempt done, so that a [commit]
    that follows is refused with FAIL_OTHER, no rollback. *)
Theorem rollback_of_an_unstarted_attempt_forbids_commit (fuel fuel' : nat)
    (m : machine W) :
  atr_id_ (self m) = None \/ state (self m) = NOT_STARTED ->
  in_time E m ->
  let r := rollback E fuel m in
  r = (returned tt, Machine (set_is_done_ true (self m)) (world m) (trace m))
  /\ commit E fuel' (snd r)
     = (thrown (operation_failed_exn (no_rollback (operation_failed FAIL_OTHER))),
        snd r).
Proof.
  intros Hempty Htime r.
  destruct m as [a w tr]. cbn [self world trace] in *.
  assert (Hr : r = (returned tt, Machine (set_is_done_ true a) w tr)).
  { subst r. unfold rollback, mbind, blocking_bind, lift.
    rewrite check_expiry_during_rollback_production.
    unfold in_time in Htime. cbn [self world] in Htime. rewrite Htime.
    replace (if expiry_overtime_mode_ a then a else a) with a
      by (destruct (expiry_overtime_mode_ a); reflexivity).
    unfold read. cbn [self].
    destruct Hempty as [Hatr | Hst].
    - rewrite Hatr. reflexivity.
    - rewrite Hst. rewrite (bool_decide_eq_true_2 (NOT_STARTED = NOT_STARTED)) by reflexivity.
      rewrite orb_true_r. reflexivity. }
  split; [exact Hr |]. rewrite Hr. cbn [snd]. unfold commit.
  rewrite (check_expiry_pre_commit_production E HE) by exact Htime.
  unfold read. cbn [self set_is_done_ atr_id_ is_done_].
  destruct (atr_id_ a); reflexivity.
Qed.

(** [rollback] in expiry-overtime mode makes one attempt: when the ATR-ABORT
    write fails, whatever the class, [rollback] gives up at once with
    FAIL_EXPIRY marked expired and no-rollback; nothing is unstaged and the
    attempt is not done. *)
Theorem rollback_in_overtime_gives_up_at_once (fuel : nat) (atr : document_id)
    (ec : error_class) (m : machine W) :
  expiry_overtime_mode_ (self m) = true ->
  is_done_ (self m) = false ->
  atr_id_ (self m) = Some atr ->
  key atr <> "" ->
  state (self m) <> NOT_STARTED ->
  let areq := atr_abort_request (self m) atr in
  let refused := execute_mutate_in E areq (world m) in
  mresp_ec (fst refused) = Some ec ->
  rollback E (S fuel) m
  = (thrown (operation_failed_exn
               (expired (no_rollback (operation_failed FAIL_EXPIRY)))),
     Machine (self m) (snd refused) (trace m ++ [ev_mutate_in areq])).
Proof.
  intros Hover Hdone Hatr Hkey Hst areq refused Hrefused.
  destruct m as [a w tr]. cbn [self world trace] in *.
  unfold rollback, mbind, blocking_bind, lift.
  rewrite check_expiry_during_rollback_production. rewrite Hover.
  unfold read. cbn [self]. rewrite Hatr, Hdone.
  rewrite (bool_decide_eq_false_2 (Some atr = None)) by discriminate.
  unfold is_empty. rewrite (bool_decide_eq_false_2 (key atr = "")) by exact Hkey.
  rewrite (bool_decide_eq_false_2 (state a = NOT_STARTED)) by exact Hst.
  cbn [orb]. unfold try_catch at 1.
  rewrite retry_op_exp_once;
    rewrite (atr_abort_production atr a w tr) by auto;
    cbv zeta; fold areq; fold refused; rewrite Hrefused, Hover;
    [reflexivity | discriminate].
Qed.

(** [rollback] of an attempt with staged mutations, in order: the ATR entry
    is set to ABORTED, then the staged mutations are taken back, then the
    entry is removed from the ATR; the attempt is ROLLED_BACK and done.  An
    ATR or an entry that is no longer there when it is to be removed ends the
    rollback just as well, with the attempt done and still ABORTED. *)
Theorem rollback_aborts_unstages_and_removes (fuel : nat) (atr : document_id)
    (m : machine W) :
  in_time E m ->
  expiry_overtime_mode_ (self m) = false ->
  is_done_ (self m) = false ->
  atr_id_ (self m) = Some atr ->
  key atr <> "" ->
  state (self m) <> NOT_STARTED ->
  let a := self m in
  let areq := atr_abort_request a atr in
  let aborted := execute_mutate_in E areq (world m) in
  mresp_ec (fst aborted) = None ->
  let a1 := set_state ABORTED a in
  let unstaged := queue_rollback E (staged_mutations_ a) (snd aborted) in
  fst unstaged = None ->
  in_time E (Machine a1 (snd unstaged) []) ->
  let rreq := atr_remove_request a1 atr in
  let removed := execute_mutate_in E rreq (snd unstaged) in
  let tr' := trace m ++ [ev_mutate_in areq; ev_mutate_in rreq] in
  mresp_ec (fst removed) ∈ [None; Some FAIL_DOC_NOT_FOUND; Some FAIL_PATH_NOT_FOUND] ->
  rollback E (S fuel) m
  = (returned tt,
     Machine (set_is_done_ true
                match mresp_ec (fst removed) with
                | None => set_state ROLLED_BACK a1
                | Some _ => a1
                end)
             (snd removed) tr').
Proof.
  intros Htime Hover Hdone Hatr Hkey Hst a areq aborted Haborted a1 unstaged
    Hunstaged Htime1 rreq removed tr' Hremoved.
  rewrite !elem_of_cons, elem_of_nil in Hremoved.
  destruct m as [a0 w tr]. cbn [self world trace] in *. subst a.
  unfold rollback, mbind, blocking_bind, lift.
  rewrite check_expiry_during_rollback_production. rewrite Hover.
  unfold in_time in Htime. cbn [self world] in Htime. rewrite Htime.
  unfold read at 1. cbn [self]. rewrite Hatr, Hdone.
  rewrite (bool_decide_eq_false_2 (Some atr = None)) by discriminate.
  unfold is_empty. rewrite (bool_decide_eq_false_2 (key atr = "")) by exact Hkey.
  rewrite (bool_decide_eq_false_2 (state a0 = NOT_STARTED)) by exact Hst.
  cbn [orb]. unfold try_catch at 1.
  rewrite retry_op_exp_once;
    rewrite (atr_abort_production atr a0 w tr) by (first [exact Hatr | right; exact Htime]);
    cbv zeta; fold areq; fold aborted; rewrite Haborted; [| discriminate].
  unfold run_queue, read, ask. cbn [self world trace staged_mutations_ set_state].
  fold unstaged. destruct unstaged as [r w2] eqn:Hu. cbn [fst snd] in *. subst r.
  unfold ret. fold a1.
  assert (Hover1 : expiry_overtime_mode_ a1 = false) by exact Hover.
  rewrite retry_op_exp_once;
    rewrite (atr_rollback_complete_production atr a1 w2)
      by (first [right; exact Htime1 | exact Hatr]);
    cbv zeta; fold rreq; fold removed; rewrite Hover1;
    subst tr'; rewrite <- ?app_assoc; cbn [app];
    destruct Hremoved as [Hr | [Hr | [Hr | []]]]; rewrite Hr;
    first [reflexivity | discriminate].
Qed.

End Blocking.

Lemma commit_returns_only_when_done_witness :
  let m := Inputs.with_two_staged [] in
  fst (commit Sim.the_cluster 5 m) = returned tt
  /\ is_done_ (self (snd (commit Sim.the_cluster 5 m))) = true.
Proof.
  intros m. assert (H : fst (commit Sim.the_cluster 5 m) = returned tt) by reflexivity.
  split; [exact H |].
  exact (commit_returns_only_when_done Sim.the_cluster 5 m H).
Defined.

Lemma commit_without_mutations_or_too_late_witness :
  commit Sim.the_cluster 5 (Inputs.starting [])
  = (returned tt,
     Machine (set_is_done_ true Sim.fresh_attempt) (world (Inputs.starting [])) [])
  /\ commit Sim.the_cluster 5 Inputs.finished
     = (thrown (operation_failed_exn (no_rollback (operation_failed FAIL_OTHER))),
        Inputs.finished)
  /\ commit Sim.the_cluster 5 Inputs.too_late
     = (thrown (operation_failed_exn (expired (operation_failed FAIL_EXPIRY))),
        Machine (set_expiry_overtime_mode_ true (self Inputs.too_late))
                (world Inputs.too_late) []).
Proof.
  split; [| split].
  - apply (commit_without_mutations_or_too_late Sim.the_cluster sim_has_production_hooks
             5 (Inputs.starting [])); reflexivity.
  - apply (commit_without_mutations_or_too_late Sim.the_cluster sim_has_production_hooks
             5 Inputs.finished); reflexivity.
  - apply (commit_without_mutations_or_too_late Sim.the_cluster sim_has_production_hooks
             5 Inputs.too_late).
    unfold in_time. discriminate.
Defined.

Lemma commit_sets_committed_unstages_and_completes_witness :
  let m := Inputs.with_two_staged [] in
  let a := self m in
  let creq := extract_to (atr_prefix (id a)) (staged_mutations_ a)
                (atr_commit_request a (Sim.doc "_txn:atr-1")) in
  let rreq := atr_remove_request (set_state COMMITTED a) (Sim.doc "_txn:atr-1") in
  commit Sim.the_cluster 5 m
  = (returned tt,
     Machine (set_is_done_ true (set_state COMPLETED (set_state COMMITTED a)))
             (Sim.Sim 1000 ∅ ∅ [] 102 []) [ev_mutate_in creq; ev_mutate_in rreq]).
Proof.
  intros m a creq rreq.
  unshelve epose proof
    (commit_sets_committed_unstages_and_completes Sim.the_cluster
       sim_has_production_hooks 4 (Sim.doc "_txn:atr-1") m _ _ _ _ _ _ _) as H.
  - reflexivity.
  - reflexivity.
  - reflexivity.
  - discriminate.
  - reflexivity.
  - reflexivity.
  - reflexivity.
  - exact H.
Defined.

Lemma failed_commit_write_unstages_nothing_witness :
  let m := Inputs.with_two_staged [Some FAIL_TRANSIENT] in
  exists e,
    fst (commit Sim.the_cluster 5 m) = thrown (operation_failed_exn e)
    /\ tof_retry e = true
    /\ self (snd (commit Sim.the_cluster 5 m)) = self m.
Proof.
  intros m.
  destruct (failed_commit_write_unstages_nothing Sim.the_cluster sim_has_production_hooks
              4 (Sim.doc "_txn:atr-1") FAIL_TRANSIENT m)
    as (e & Hrun & _ & _ & Hretry & _).
  - reflexivity.
  - reflexivity.
  - reflexivity.
  - discriminate.
  - reflexivity.
  - discriminate.
  - exists e. rewrite Hrun. split; [reflexivity | split; [exact Hretry | reflexivity]].
Defined.

Lemma rollback_of_an_unstarted_attempt_forbids_commit_witness :
  let m := Inputs.starting [] in
  let r := rollback Sim.the_cluster 5 m in
  fst r = returned tt
  /\ fst (commit Sim.the_cluster 5 (snd r))
     = thrown (operation_failed_exn (no_rollback (operation_failed FAIL_OTHER))).
Proof.
  intros m r.
  destruct (rollback_of_an_unstarted_attempt_forbids_commit Sim.the_cluster
              sim_has_production_hooks 5 5 m)
    as [Hrollback Hcommit].
  - left. reflexivity.
  - reflexivity.
  - fold r in Hrollback, Hcommit. rewrite Hcommit, Hrollback. split; reflexivity.
Defined.

Lemma rollback_in_overtime_gives_up_at_once_witness :
  let m := Inputs.in_overtime in
  fst (rollback Sim.the_cluster 5 m)
  = thrown (operation_failed_exn (expired (no_rollback (operation_failed FAIL_EXPIRY))))
  /\ self (snd (rollback Sim.the_cluster 5 m)) = self m.
Proof.
  intros m.
  rewrite (rollback_in_overtime_gives_up_at_once Sim.the_cluster sim_has_production_hooks
             4 (Sim.doc "_txn:atr-1") FAIL_TRANSIENT m).
  - split; reflexivity.
  - reflexivity.
  - reflexivity.
  - reflexivity.
  - discriminate.
  - discriminate.
  - reflexivity.
Defined.

Lemma rollback_aborts_unstages_and_removes_witness :
  let m := Inputs.with_two_staged [] in
  let a := self m in
  let areq := atr_abort_request a (Sim.doc "_txn:atr-1") in
  let rreq := atr_remove_request (set_state ABORTED a) (Sim.doc "_txn:atr-1") in
  rollback Sim.the_cluster 5 m
  = (returned tt,
     Machine (set_is_done_ true (set_state ROLLED_BACK (set_state ABORTED a)))
             (Sim.Sim 1000 ∅ ∅ [] 102 []) [ev_mutate_in areq; ev_mutate_in rreq]).
Proof.
  intros m a areq rreq.
  unshelve epose proof
    (rollback_aborts_unstages_and_removes Sim.the_cluster sim_has_production_hooks
       4 (Sim.doc "_txn:atr-1") m _ _ _ _ _ _ _ _ _ _) as H.
  - reflexivity.
  - reflexivity.
  - reflexivity.
  - reflexivity.
  - discriminate.
  - discriminate.
  - reflexivity.
  - reflexivity.
  - reflexivity.
  - apply list_elem_of_here.
  - exact H.
Defined.

(** ** What the cleanup leaves alone and what it fetches *)

Section Cleanup.
Context {W : Type} (E : cluster W).

(** The cleanup leaves alone what it has no business with.  An entry it is
    to clean only once expired, and that has not been expired for longer
    than the safety margin, is not touched; nor is anything done when the
    ATR cannot be read or does not hold the attempt. *)
Theorem cleanup_leaves_unexpired_and_unknown_attempts (e : atr_cleanup_entry)
    (m : machine W) :
  let same := Machine (self m) (world m) (trace m) in
  (forall entry,
     ce_atr_entry e = Some entry ->
     ce_check_if_expired e = true ->
     has_expired (now E (world m) / 1000000) safety_margin_ms_ entry = false ->
     clean E e m = (returned tt, same))
  /\ (ce_atr_entry e = None ->
      let fetched := get_atr E (ce_atr_id e) (world m) in
      match snd (fst fetched) with
      | Some atr =>
          List.find (fun x => bool_decide (entry_attempt_id x = ce_attempt_id e))
                    (entries atr) = None
      | None => True
      end ->
      clean E e m
      = (returned tt,
         Machine (self m) (snd fetched) (trace m ++ [ev_get_atr (ce_atr_id e)]))).
Proof.
  intros same. subst same. destruct m as [a w tr]. cbn [self world trace]. split.
  - intros entry Hentry Hcheck Hexp. unfold clean. rewrite Hentry.
    unfold check_atr_and_cleanup, clock. cbn [world]. rewrite Hcheck, Hexp.
    reflexivity.
  - intros Hentry Hfetched. unfold clean. rewrite Hentry.
    unfold then_, emit, ask. cbn [self world trace].
    destruct (get_atr E (ce_atr_id e) w) as [[ok atr] w1].
    cbn [fst snd] in *. destruct atr as [atr |]; [rewrite Hfetched |]; reflexivity.
Qed.

(** The cleanup of an attempt that was neither committed nor aborted
    (one that expired while PENDING, say) touches no document: its one
    request is the write to the ATR. *)
Theorem cleanup_of_an_unfinished_attempt_touches_no_document (e : atr_cleanup_entry)
    (entry : atr_entry) (m : machine W) :
  entry_state entry <> COMMITTED ->
  entry_state entry <> ABORTED ->
  ce_check_if_expired e = false
  \/ has_expired (now E (world m) / 1000000) safety_margin_ms_ entry = true ->
  forward_compat_check E CLEANUP_ENTRY (entry_forward_compat entry) = None ->
  let req := cleanup_entry_request e in
  let written := execute_mutate_in E req (world m) in
  check_atr_and_cleanup E e entry m
  = (match mresp_ec (fst written) with
     | Some ec => thrown (client_error ec)
     | None => returned tt
     end,
     Machine (self m) (snd written) (trace m ++ [ev_mutate_in req]))
  /\ mreq_id req = ce_atr_id e.
Proof.
  intros Hc Ha Hdue Hfc req written. split; [| reflexivity].
  destruct m as [a w tr]. cbn [self world trace] in *.
  unfold check_atr_and_cleanup, clock. cbn [world].
  replace (ce_check_if_expired e
           && negb (has_expired (now E w / 1000000) safety_margin_ms_ entry))
    with false
    by (destruct Hdue as [-> | ->]; [reflexivity | rewrite andb_false_r; reflexivity]).
  rewrite Hfc.
  assert (Hdocs : cleanup_docs E e entry = ret tt).
  { unfold cleanup_docs. destruct (entry_state entry); try reflexivity; congruence. }
  unfold mbind, blocking_bind.
  rewrite Hdocs. unfold ret, cleanup_entry, execute_mutate, then_, emit, ask.
  cbn [self world trace]. fold req. subst written.
  destruct (execute_mutate_in E req w) as [resp w1]. cbn [fst snd].
  destruct (mresp_ec resp); reflexivity.
Qed.

Lemma lookups_app (l1 l2 : list event) : lookups (l1 ++ l2) = lookups l1 ++ lookups l2.
Proof. unfold lookups. apply List.filter_app. Qed.

Lemma do_per_doc_lookups (e : atr_cleanup_entry) (require_crc_to_match : bool)
    (call : transaction_get_result -> bool -> blocking W unit)
    (docs : list doc_record) (m : machine W) :
  (forall d b, writes_only (call d b)) ->
  exists l fetched,
    trace (snd (do_per_doc E e docs require_crc_to_match call m)) = trace m ++ l
    /\ lookups l = fetches fetched
    /\ fetched `prefix_of` docs
    /\ (fst (do_per_doc E e docs require_crc_to_match call m) = returned tt ->
        fetched = docs).
Proof.
  intros Hcall. revert m. induction docs as [| dr rest IH]; intros m.
  - exists [], []. cbn [do_per_doc ret snd fst]. rewrite app_nil_r.
    repeat split; reflexivity.
  - cbn [do_per_doc]. unfold mbind, blocking_bind.
    set (req := get_doc_request (dr_document_id dr)).
    match goal with
    | |- context [try_catch ?c ?h m] => set (step := try_catch c h m)
    end.
    assert (Hstep : exists l2,
              trace (snd step) = trace m ++ ev_lookup_in req :: l2 /\ lookups l2 = []).
    { subst step. unfold try_catch, execute_lookup, then_, emit, ask, throw_if.
      cbn [self world trace]. fold req.
      destruct (execute_lookup_in E req (world m)) as [res w1].
      destruct (lresp_ec res) as [ec |].
      - unfold throw, ret. exists []. destruct ec; split; reflexivity.
      - destruct (lresp_values res); [exists []; split; reflexivity |].
        destruct (cleanup_applies _ _ _); [| exists []; split; reflexivity].
        match goal with
        | |- context [call ?d ?b ?m1] =>
            destruct (Hcall d b m1) as (l2 & Hl2 & Hn); destruct (call d b m1) as [[u | ex |] m2]
        end; cbn [snd trace] in Hl2; exists l2.
        + cbn [snd]. rewrite Hl2, <- app_assoc. split; [reflexivity | exact Hn].
        + destruct ex as [[] | | | | | |]; unfold ret, throw; cbn [snd];
            rewrite Hl2, <- app_assoc; split; first [reflexivity | exact Hn].
        + cbn [snd]. rewrite Hl2, <- app_assoc. split; [reflexivity | exact Hn]. }
    destruct Hstep as (l2 & Hl2 & Hn2).
    destruct step as [[u | ex |] m']; cbn [snd fst] in *.
    + destruct (IH m') as (l & fetched & Hl & Hlook & Hpre & Hret).
      exists ((ev_lookup_in req :: l2) ++ l), (dr :: fetched).
      rewrite Hl, Hl2, <- app_assoc. cbn [app].
      split; [reflexivity | split; [| split]].
      * change (ev_lookup_in req :: l2 ++ l) with ([ev_lookup_in req] ++ l2 ++ l).
        rewrite !lookups_app, Hn2, Hlook. reflexivity.
      * apply prefix_cons. exact Hpre.
      * intros Hr. rewrite (Hret Hr). reflexivity.
    + exists (ev_lookup_in req :: l2), [dr].
      split; [exact Hl2 | split; [| split]].
      * change (ev_lookup_in req :: l2) with ([ev_lookup_in req] ++ l2).
        rewrite lookups_app, Hn2. reflexivity.
      * apply prefix_cons, prefix_nil.
      * discriminate.
    + exists (ev_lookup_in req :: l2), [dr].
      split; [exact Hl2 | split; [| split]].
      * change (ev_lookup_in req :: l2) with ([ev_lookup_in req] ++ l2).
        rewrite lookups_app, Hn2. reflexivity.
      * apply prefix_cons, prefix_nil.
      * discriminate.
Qed.

Lemma fetches_in_order_ret : fetches_in_order (ret (W := W) tt) [].
Proof.
  intros m. exists [], []. cbn [ret snd fst]. rewrite app_nil_r.
  repeat split; reflexivity.
Qed.

Lemma fetches_in_order_bind (c1 c2 : blocking W unit) (docs1 docs2 : list doc_record) :
  fetches_in_order c1 docs1 -> fetches_in_order c2 docs2 ->
  fetches_in_order (blocking_bind unit unit (fun _ => c2) c1) (docs1 ++ docs2).
Proof.
  intros H1 H2 m. unfold blocking_bind.
  destruct (H1 m) as (l1 & f1 & Hl1 & Hk1 & Hp1 & Hr1).
  destruct (c1 m) as [[u | ex |] m1]; cbn [fst snd] in *.
  - destruct (H2 m1) as (l2 & f2 & Hl2 & Hk2 & Hp2 & Hr2).
    destruct u. rewrite (Hr1 eq_refl) in *.
    exists (l1 ++ l2), (docs1 ++ f2). rewrite Hl2, Hl1, <- app_assoc.
    split; [reflexivity | split; [| split]].
    + rewrite lookups_app, Hk1, Hk2. unfold fetches. rewrite List.map_app. reflexivity.
    + apply prefix_app. exact Hp2.
    + intros Hr. rewrite (Hr2 Hr). reflexivity.
  - exists l1, f1. split; [exact Hl1 | split; [exact Hk1 | split]].
    + apply prefix_app_r. exact Hp1.
    + discriminate.
  - exists l1, f1. split; [exact Hl1 | split; [exact Hk1 | split]].
    + apply prefix_app_r. exact Hp1.
    + discriminate.
Qed.

Lemma writes_only_ret {A} (a : A) : writes_only (ret (W := W) a).
Proof. intros m. exists []. cbn. rewrite app_nil_r. split; reflexivity. Qed.

Lemma writes_only_mutate (r : mutate_in_request) :
  writes_only (execute_mutate E r (fun x => throw_if (mresp_ec x) (ret tt))).
Proof.
  intros m. unfold execute_mutate, then_, emit, ask, throw_if. cbn [self world trace].
  destruct (execute_mutate_in E r (world m)) as [x w]. exists [ev_mutate_in r].
  destruct (mresp_ec x); split; reflexivity.
Qed.

Lemma writes_only_insert (r : insert_request) :
  writes_only (execute_insert_req E r (fun ec => throw_if ec (ret tt))).
Proof.
  intros m. unfold execute_insert_req, then_, emit, ask, throw_if. cbn [self world trace].
  destruct (execute_insert E r (world m)) as [x w]. exists [ev_insert r].
  destruct x; split; reflexivity.
Qed.

Lemma writes_only_remove (r : remove_request) :
  writes_only (execute_remove_req E r (fun ec => throw_if ec (ret tt))).
Proof.
  intros m. unfold execute_remove_req, then_, emit, ask, throw_if. cbn [self world trace].
  destruct (execute_remove E r (world m)) as [x w]. exists [ev_remove r].
  destruct x; split; reflexivity.
Qed.

Lemma fetches_in_order_steps (e : atr_cleanup_entry) (docs : option (list doc_record)) :
  fetches_in_order (commit_docs E e docs) (default [] docs)
  /\ fetches_in_order (remove_docs_staged_for_removal E e docs) (default [] docs)
  /\ fetches_in_order (remove_docs E e docs) (default [] docs)
  /\ fetches_in_order (remove_txn_links E e docs) (default [] docs).
Proof.
  destruct docs as [docs |]; cbn [default commit_docs remove_docs_staged_for_removal
    remove_docs remove_txn_links]; [| repeat split; apply fetches_in_order_ret].
  repeat split; intros m; apply do_per_doc_lookups; intros d b.
  - destruct (has_staged_content (links d)); [| apply writes_only_ret].
    destruct (is_deleted (links d)); [apply writes_only_insert | apply writes_only_mutate].
  - destruct (is_document_being_removed (links d));
      [apply writes_only_remove | apply writes_only_ret].
  - destruct b; [apply writes_only_mutate | apply writes_only_remove].
  - apply writes_only_mutate.
Qed.

(** The cleanup fetches the documents the entry lists one after the other,
    each once and before it does anything to it, starting with the inserted
    ones; when it completes it has fetched every one of them, and when it
    stops on a failure it has fetched none beyond the one it stopped at. *)
Theorem cleanup_fetches_each_listed_document_once (e : atr_cleanup_entry)
    (entry : atr_entry) (m : machine W) :
  let r := cleanup_docs E e entry m in
  exists l fetched,
    trace (snd r) = trace m ++ l
    /\ lookups l = fetches fetched
    /\ fetched `prefix_of` listed entry
    /\ (fst r = returned tt -> fetched = listed entry).
Proof.
  cbv zeta. revert m. change (fetches_in_order (cleanup_docs E e entry) (listed entry)).
  unfold cleanup_docs, listed, mbind.
  destruct (fetches_in_order_steps e (inserted_ids entry)) as (I1 & _ & I3 & _).
  destruct (fetches_in_order_steps e (replaced_ids entry)) as (P1 & _ & _ & P4).
  destruct (fetches_in_order_steps e (removed_ids entry)) as (_ & M2 & _ & M4).
  destruct (entry_state entry); try apply fetches_in_order_ret;
    apply fetches_in_order_bind; try assumption;
    apply fetches_in_order_bind; assumption.
Qed.

End Cleanup.

Lemma cleanup_of_an_unfinished_attempt_touches_no_document_witness :
  let req := cleanup_entry_request Inputs.cleaner_of_pending in
  check_atr_and_cleanup Sim.the_cluster Inputs.cleaner_of_pending Inputs.expired_pending
    Inputs.cleaning
  = (returned tt,
     Machine (self Inputs.cleaning)
             (snd (execute_mutate_in Sim.the_cluster req (world Inputs.cleaning)))
             [ev_mutate_in req])
  /\ mreq_id req = Sim.doc "_txn:atr-9".
Proof.
  intros req.
  destruct (cleanup_of_an_unfinished_attempt_touches_no_document Sim.the_cluster
              Inputs.cleaner_of_pending Inputs.expired_pending Inputs.cleaning)
    as [Hrun Hid].
  - discriminate.
  - discriminate.
  - left. reflexivity.
  - reflexivity.
  - split; [exact Hrun | exact Hid].
Defined.

(** ** The queue of attempts to clean *)

Section CleanupQueueOrder.
Import CleanupQueue.

Lemma delete_Permutation_lookup {A} (l : list A) (i : nat) (x : A) :
  l !! i = Some x -> l ≡ₚ x :: delete i l.
Proof.
  revert i. induction l as [| y l IH]; intros [| i] H; try discriminate H.
  - cbn in H. inversion H. reflexivity.
  - cbn in H. cbn [delete list_delete]. rewrite (IH i H) at 1. apply Permutation_swap.
Qed.

(** Every queue has a top: the hypothesis under which [pop] is described
    below holds of some position of any queue. *)
Lemma every_queue_has_a_top (q : atr_cleanup_queue) : exists top, is_top q top.
Proof.
  unfold is_top, atr_cleanup_queue in *.
  induction q as [| x q [i Hi]]; [exists 0%nat; reflexivity |].
  destruct (q !! i) as [t |] eqn:Ht.
  - destruct (compare_atr_entries x t) eqn:Hc.
    + exists (S i). change ((x :: q) !! S i) with (q !! i). rewrite Ht.
      intros y [<- | Hy]; [| exact (Hi y Hy)].
      unfold compare_atr_entries in *. apply Z.ltb_lt in Hc. apply Z.ltb_ge. lia.
    + exists 0%nat. change ((x :: q) !! 0%nat) with (Some x).
      intros y [<- | Hy]; [unfold compare_atr_entries; apply Z.ltb_irrefl |].
      specialize (Hi y Hy). unfold compare_atr_entries in *.
      apply Z.ltb_ge in Hc, Hi. apply Z.ltb_ge. lia.
  - subst q. exists 0%nat. change ([x] !! 0%nat) with (Some x).
    intros y [<- | []]. unfold compare_atr_entries. apply Z.ltb_irrefl.
Qed.

(** The queue hands out an entry that starts earliest, and loses and gains
    nothing on the way.  Wherever the library has its top, an entry that
    [pop] returns starts no later than any entry left in the queue, and the
    queue before is the entry together with the queue after; a pushed entry
    is in the queue from then on, beside the entries that were there, and
    the size grows by one; [pop] of an empty queue returns nothing, and
    [pop] without [check_time] of a queue that is not empty returns an
    entry. *)
Theorem pop_hands_out_the_earliest_entry (top : nat) (check_time : bool) (now : Z)
    (q : atr_cleanup_queue) (x : queued_cleanup) :
  is_top q top ->
  push x q ≡ₚ x :: q
  /\ size (push x q) = S (size q)
  /\ pop top check_time now [] = (None, [])
  /\ (q <> [] -> exists e q', pop top false now q = (Some e, q'))
  /\ match pop top check_time now q with
     | (Some e, q') =>
         (forall y, In y q' -> (min_start_time_ e <= min_start_time_ y)%Z)
         /\ q ≡ₚ e :: q' /\ size q = S (size q')
     | (None, q') => q' = q
     end.
Proof.
  intros Htop. split; [| split; [| split; [| split]]].
  - unfold push. rewrite Permutation_app_comm. reflexivity.
  - unfold size, push. rewrite length_app. cbn [List.length]. lia.
  - unfold pop. destruct top; reflexivity.
  - intros Hq. unfold pop, is_top in *.
    destruct (q !! top) as [t |]; [eauto | contradiction].
  - unfold pop, is_top in *. destruct (q !! top) as [t |] eqn:Ht; [| reflexivity].
    destruct (negb check_time || check_time && ready now t); [| reflexivity].
    pose proof (delete_Permutation_lookup q top t Ht) as Hperm.
    split; [| split].
    + intros y Hy. assert (Hin : In y q).
      { apply list_elem_of_In. rewrite Hperm. apply list_elem_of_In. right. exact Hy. }
      specialize (Htop y Hin). unfold compare_atr_entries in Htop.
      apply Z.ltb_ge in Htop. exact Htop.
    + exact Hperm.
    + unfold size. rewrite Hperm at 1. reflexivity.
Qed.

(** With [check_time], [pop] returns an entry exactly when some entry of
    the queue is ready, and the entry it returns is ready: an entry that is
    due is never held back by one that is not. *)
Theorem pop_returns_an_entry_when_one_is_ready (top : nat) (now : Z)
    (q : atr_cleanup_queue) :
  is_top q top ->
  match pop top true now q with
  | (Some e, _) => ready now e = true
  | (None, _) => forall y, In y q -> ready now y = false
  end.
Proof.
  intros Htop. unfold pop, is_top in *.
  destruct (q !! top) as [t |] eqn:Ht.
  - cbn [negb orb andb]. destruct (ready now t) eqn:Hr; [exact Hr |].
    intros y Hy. specialize (Htop y Hy).
    unfold ready, compare_atr_entries in *.
    apply Z.ltb_ge in Hr, Htop. apply Z.ltb_ge. lia.
  - subst q. intros y [].
Qed.

(** An attempt is queued for cleanup with the time of queueing as its start
    time, so it is not ready before the clock has moved on, whereas an entry
    made from an ATR entry or from the ids alone starts at the epoch of the
    clock and is ready at any time after it.  An attempt that has no ATR
    cannot be queued: the push throws and the queue is as it was. *)
Theorem attempt_is_queued_to_be_cleaned_later (now later : Z)
    (ctx : attempt_context_impl) (q : atr_cleanup_queue) (entry : atr_entry)
    (atr_id : document_id) (attempt_id : string) (config : transaction_config)
    (check_if_expired : bool) :
  match atr_id_ ctx with
  | Some atr =>
      exists e,
        cleanup_entry_of_attempt now ctx = returned e
        /\ push_attempt now ctx q = returned (push e q)
        /\ ce_atr_id (queued_entry e) = atr
        /\ ce_attempt_id (queued_entry e) = id ctx
        /\ ce_check_if_expired (queued_entry e) = false
        /\ (ready later e = true <-> (now < later)%Z)
  | None => push_attempt now ctx q = thrown bad_optional_access
  end
  /\ (ready later (cleanup_entry_of_atr_entry entry atr_id config check_if_expired) = true
      <-> (0 < later)%Z)
  /\ (ready later (cleanup_entry_for atr_id attempt_id config) = true
      <-> (0 < later)%Z).
Proof.
  split.
  - unfold push_attempt, cleanup_entry_of_attempt.
    destruct (atr_id_ ctx) as [atr |]; [| reflexivity].
    eexists. repeat split; try reflexivity.
    + destruct atr; reflexivity.
    + unfold ready. cbn [min_start_time_]. apply Z.ltb_lt.
    + unfold ready. cbn [min_start_time_]. apply Z.ltb_lt.
  - unfold ready, cleanup_entry_of_atr_entry, cleanup_entry_for.
    cbn [min_start_time_]. split; apply Z.ltb_lt.
Qed.

End CleanupQueueOrder.

Lemma pop_hands_out_the_earliest_entry_witness :
  CleanupQueue.is_top Inputs.three_queued 1
  /\ CleanupQueue.pop 1 false 0 Inputs.three_queued
     = (Some (Inputs.queued 10 "attempt-2"),
        [Inputs.queued 30 "attempt-1"; Inputs.queued 20 "attempt-3"])
  /\ CleanupQueue.push (Inputs.queued 15 "attempt-4") Inputs.three_queued
     ≡ₚ Inputs.queued 15 "attempt-4" :: Inputs.three_queued.
Proof.
  assert (H : CleanupQueue.is_top Inputs.three_queued 1).
  { intros y [<- | [<- | [<- | []]]]; reflexivity. }
  split; [exact H | split; [reflexivity |]].
  apply (pop_hands_out_the_earliest_entry 1 false 0 Inputs.three_queued
           (Inputs.queued 15 "attempt-4") H).
Defined.

Lemma pop_returns_an_entry_when_one_is_ready_witness :
  CleanupQueue.is_top Inputs.three_queued 1
  /\ (forall y, In y Inputs.three_queued -> CleanupQueue.ready 10 y = false).
Proof.
  assert (H : CleanupQueue.is_top Inputs.three_queued 1).
  { intros y [<- | [<- | [<- | []]]]; reflexivity. }
  split; [exact H |].
  exact (pop_returns_an_entry_when_one_is_ready 1 10 Inputs.three_queued H).
Defined.

(** ** The first-generation attempt context, whatever it did before *)

(** An attempt context of the first generation that has no ATR never gets
    one and never stages anything.  Whatever it has done before, [replace],
    [insert] and [remove] throw [bad_optional_access] and leave the attempt
    as it was; [replace] sends nothing, [insert] and [remove] send at most
    the ATR-PENDING write, addressed to the key of the document. *)
Theorem legacy_attempt_without_atr_never_stages {W}
    (mutate_in : Legacy.request -> W -> Legacy.result * W)
    (vbucket_for_key : string -> nat) (atr_id_for_vbucket : nat -> string)
    (collection : Legacy.collection_ref) (doc : string) (content : json)
    (s : Legacy.state) :
  Legacy.atr_id_ (Legacy.this s) = None ->
  let pending :=
    if Legacy.no_staged (Legacy.this s)
    then [Legacy.Req collection doc (Legacy.pending_specs (Legacy.this s))]
    else [] in
  let replaced :=
    Legacy.replace mutate_in vbucket_for_key atr_id_for_vbucket collection doc content s in
  let inserted :=
    Legacy.insert mutate_in vbucket_for_key atr_id_for_vbucket collection doc content s in
  let removed :=
    Legacy.remove mutate_in vbucket_for_key atr_id_for_vbucket collection doc s in
  replaced = (thrown bad_optional_access, s)
  /\ fst inserted = thrown bad_optional_access
  /\ Legacy.this (snd inserted) = Legacy.this s
  /\ Legacy.sent (snd inserted) = Legacy.sent s ++ pending
  /\ fst removed = thrown bad_optional_access
  /\ Legacy.this (snd removed) = Legacy.this s
  /\ Legacy.sent (snd removed) = Legacy.sent s ++ pending.
Proof.
  intros Hnone. destruct s as [a w sent]. cbn [Legacy.this] in Hnone.
  unfold Legacy.replace, Legacy.insert, Legacy.remove, Legacy.init_atr_if_needed,
    Legacy.atr_id_value, Legacy.send, Legacy.set_this.
  cbn [Legacy.this Legacy.world Legacy.sent]. rewrite Hnone.
  cbn [Legacy.this Legacy.world Legacy.sent].
  destruct (Legacy.no_staged a).
  - repeat match goal with |- context [mutate_in ?r w] => destruct (mutate_in r w) end.
    cbn [fst snd Legacy.this Legacy.sent]. rewrite Hnone.
    repeat split; reflexivity.
  - cbn [fst snd Legacy.this Legacy.sent]. rewrite Hnone, app_nil_r.
    repeat split; reflexivity.
Qed.

Lemma legacy_attempt_without_atr_never_stages_witness :
  Legacy.replace (fun _ (w : unit) => (Legacy.Res true 7, w)) (fun _ => 0%nat)
    (fun _ => "atr") (Legacy.Coll "b" "s" "c") "doc" (JNum 1)
    (Legacy.St (Legacy.new_attempt_context "uid") tt [])
  = (thrown bad_optional_access, Legacy.St (Legacy.new_attempt_context "uid") tt []).
Proof.
  apply (legacy_attempt_without_atr_never_stages
           (fun _ (w : unit) => (Legacy.Res true 7, w)) (fun _ => 0%nat) (fun _ => "atr")
           (Legacy.Coll "b" "s" "c") "doc" (JNum 1)
           (Legacy.St (Legacy.new_attempt_context "uid") tt [])).
  reflexivity.
Defined.
